(** * solbuild: the builder package and its two commands

    A shallow embedding of [src/builder/build.go] (sources, work
    directories, [Package.Build], profiles and backing images) and of the
    [build] and [update] commands of [src/solbuild/cmd], followed by the
    properties of the build orchestration that the specification states.

    Go strings are [string]; a Go [error] is an [option error] ([None] is
    [nil]); calls into collaborators that live outside these files go
    through one interface, [Env], and every such call is recorded in the
    trace of the computation. *)

From Stdlib Require Import String Ascii List Bool Arith Lia ZArith.
Import ListNotations.
Open Scope string_scope.
Open Scope list_scope.

Set Implicit Arguments.

(** ** Go's [path/filepath] on Unix, as far as the builder uses it *)

Module Filepath.

Definition Separator : ascii := "/"%char.

Definition IsPathSeparator (c : ascii) : bool := Ascii.eqb c Separator.

(** The elements of a path: the pieces between separators, empty ones
    included, so that a path with [n] separators has [n + 1] elements. *)
Fixpoint elements (path : string) : list string :=
  match path with
  | EmptyString => [EmptyString]
  | String c rest =>
      if IsPathSeparator c then EmptyString :: elements rest
      else match elements rest with
           | e :: es => String c e :: es
           | [] => [String c EmptyString]
           end
  end.

(** One turn of the loop of [Clean], on the element that starts at the read
    index; [out] is the output buffer as a stack of elements, last written
    first.  An empty element and [.] are dropped; [..] removes the element
    written last when there is one to remove, is dropped at the root, and
    is kept at the front of a relative path; anything else is written. *)
Definition cleanElem (rooted : bool) (out : list string) (e : string)
  : list string :=
  if (e =? "") || (e =? ".") then out
  else if e =? ".." then
    match out with
    | top :: below => if top =? ".." then e :: out else below
    | [] => if rooted then [] else [e]
    end
  else e :: out.

Definition Clean (path : string) : string :=
  match path with
  | EmptyString => "."
  | String c _ =>
      let rooted := IsPathSeparator c in
      let out := fold_left (cleanElem rooted) (elements path) [] in
      if rooted then ("/" ++ String.concat "/" (rev out))%string
      else match out with
           | [] => "."
           | _ => String.concat "/" (rev out)
           end
  end.

(** [Join] ignores leading empty elements, joins the rest with the
    separator and cleans the result; no element at all gives [""]. *)
Fixpoint Join (elem : list string) : string :=
  match elem with
  | [] => ""
  | e :: rest => if e =? "" then Join rest else Clean (String.concat "/" elem)
  end.

(** [Base]: the last element of the path, trailing separators removed. *)
Definition Base (path : string) : string :=
  if path =? "" then "."
  else match filter (fun e => negb (e =? "")) (elements path) with
       | [] => "/"
       | e :: es => last es e
       end.

(** [path[:i+1]] for [i] the index of the last separator ([""] without one). *)
Fixpoint uptoLastSeparator (path : string) : string :=
  match path with
  | EmptyString => EmptyString
  | String c rest =>
      let rest' := uptoLastSeparator rest in
      if IsPathSeparator c then String c rest'
      else if rest' =? "" then EmptyString else String c rest'
  end.

Definition Dir (path : string) : string := Clean (uptoLastSeparator path).

End Filepath.

(** [s[1:]]: Go panics on the empty string, which is [None] here. *)
Definition sliceFrom1 (s : string) : option string :=
  match s with
  | EmptyString => None
  | String _ rest => Some rest
  end.

(** [strings.TrimSpace]: [TrimFunc(s, unicode.IsSpace)] on the UTF-8 bytes
    of the string.  The white space of Unicode is the six ASCII characters
    tab, line feed, vertical tab, form feed, carriage return and space,
    U+0085 and U+00A0, and U+1680, U+2000 to U+200A, U+2028, U+2029,
    U+202F, U+205F and U+3000; a byte sequence that is not the encoding of
    one of them is not white space. *)
Definition isSpace (c : ascii) : bool :=
  match c with
  | " "%char | "009"%char | "010"%char | "011"%char | "012"%char
  | "013"%char => true
  | _ => false
  end.

(** The encodings on two bytes: C2 85 and C2 A0. *)
Definition isSpace2 (c c1 : ascii) : bool :=
  (nat_of_ascii c =? 194)%nat
  && ((nat_of_ascii c1 =? 133)%nat || (nat_of_ascii c1 =? 160)%nat).

(** The encodings on three bytes: E1 9A 80; E2 80 80 to E2 80 8A, E2 80 A8,
    E2 80 A9, E2 80 AF; E2 81 9F; E3 80 80. *)
Definition isSpace3 (c c1 c2 : ascii) : bool :=
  let b := nat_of_ascii c in
  let b1 := nat_of_ascii c1 in
  let b2 := nat_of_ascii c2 in
  ((b =? 225) && (b1 =? 154) && (b2 =? 128))%nat
  || ((b =? 226) && (b1 =? 128)
      && (((128 <=? b2) && (b2 <=? 138)) || (b2 =? 168) || (b2 =? 169)
          || (b2 =? 175)))%nat
  || ((b =? 226) && (b1 =? 129) && (b2 =? 159))%nat
  || ((b =? 227) && (b1 =? 128) && (b2 =? 128))%nat.

(** [TrimLeftFunc]: the white-space characters at the front are removed. *)
Fixpoint trimLeft (s : string) : string :=
  match s with
  | EmptyString => EmptyString
  | String c rest =>
      if isSpace c then trimLeft rest
      else
        match rest with
        | EmptyString => s
        | String c1 rest1 =>
            if isSpace2 c c1 then trimLeft rest1
            else
              match rest1 with
              | EmptyString => s
              | String c2 rest2 =>
                  if isSpace3 c c1 c2 then trimLeft rest2 else s
              end
        end
  end.

(** The string is made of white-space characters only. *)
Fixpoint allSpace (s : string) : bool :=
  match s with
  | EmptyString => true
  | String c rest =>
      if isSpace c then allSpace rest
      else
        match rest with
        | EmptyString => false
        | String c1 rest1 =>
            if isSpace2 c c1 then allSpace rest1
            else
              match rest1 with
              | EmptyString => false
              | String c2 rest2 => isSpace3 c c1 c2 && allSpace rest2
              end
        end
  end.

(** [TrimRightFunc]: the longest end of the string that is made of
    white-space characters is removed. *)
Fixpoint trimRight (s : string) : string :=
  match s with
  | EmptyString => EmptyString
  | String c rest => if allSpace s then EmptyString else String c (trimRight rest)
  end.

Definition TrimSpace (s : string) : string := trimRight (trimLeft s).


(** ** Constants and data of the builder package *)

Definition ImagesDir : string := "/var/lib/solbuild/images".
Definition ImageSuffix : string := ".img".
Definition ImageCompressedSuffix : string := ".img.xz".
Definition ImageBaseURI : string := "https://solus-project.com/image_root".
Definition DefaultProfile : string := "main-x86_64".
Definition ImageRootsDir : string := "/var/lib/solbuild/roots".
Definition PackageCacheDirectory : string := "/var/lib/solbuild/packages".

Definition ValidProfiles : list string := ["main-x86_64"; "unstable-x86_64"].

(** A Go [error] value, by its message. *)
Definition error : Type := string.

Module Img.
Record BackingImage : Type := {
  Name : string;
  ImagePath : string;
  ImagePathXZ : string;
  ImageURI : string;
  RootDir : string
}.
End Img.
Definition BackingImage : Type := Img.BackingImage.

(** Modelled from the spec: the declaration of the package type is not in
    the files at hand; the descriptor has "two mutually exclusive formats",
    the legacy XML one and the modern ypkg one. *)
Inductive PackageType : Type := PackageTypeXML | PackageTypeYpkg.

Definition PackageType_eqb (a b : PackageType) : bool :=
  match a, b with
  | PackageTypeXML, PackageTypeXML | PackageTypeYpkg, PackageTypeYpkg => true
  | _, _ => false
  end.

(** Modelled from the spec: the declarations of [Source] and [Package] are
    not in the files at hand; these are the fields the builder reads. *)
Record Source : Type := {
  URI : string;
  File : string;
  SHA1Sum : string;
  SHA256Sum : string
}.

Record Package : Type := {
  Name : string;
  Version : string;
  Release : Z;
  Type_ : PackageType;
  Path : string;
  Sources : list Source
}.

(** Modelled from the spec: the declaration of [Overlay] is not in the files
    at hand: "owning BackingImage; owning Package; mount point; work/upper
    directories".  The builder reads [MountPoint] only. *)
Record Overlay : Type := {
  Back : BackingImage;
  OwnPackage : Package;
  MountPoint : string;
  WorkDir : string;
  UpperDir : string
}.

(** Modelled from the spec: the package-manager proxy of a sandbox, known
    here by the root it was made for ([NewEopkgManager(overlay.MountPoint)]). *)
Record EopkgManager : Type := NewEopkgManager { pmRoot : string }.

(** The value [GrimReaper(overlay, p, pman)] returns: a function without
    arguments that is bound to this overlay, package and package manager. *)
Inductive Closure : Type :=
| GrimReaper (o : Overlay) (p : Package) (pman : EopkgManager).

(** The calls that act on the world outside the process. *)
Inductive Call : Type :=
| SourceFetch (s : Source)
| MkdirAll (dir : string) (perm : Z)
| TouchFile (path : string)
| BindMount (src tgt : string)
| CopyAll (src dst : string)
| CleanExisting (o : Overlay)
| ActivateRoot (p : Package) (o : Overlay)
| PmanInit (m : EopkgManager)
| StartDBUS (m : EopkgManager)
| Upgrade (m : EopkgManager)
| InstallComponent (m : EopkgManager) (component : string)
| StopDBUS (m : EopkgManager)
| ChrootExec (root cmd : string)
| DropNetworking
| ConfigureNetworking (o : Overlay)
| HandleInterrupt (c : Closure)
| Invoke (c : Closure)
| ImageUpdate (b : BackingImage).

(** The calls that only read it. *)
Inductive Query : Type :=
| QIsFetched (s : Source) (expectedHash : string)
| QStat (path : string)
| QAbs (path : string)
| QFindLikelyArg
| QNewPackage (path : string)
| QGeteuid.

Inductive Level : Type := Debug | Info | Warning | Error.

Inductive Field : Type :=
| FStr (s : string)
| FInt (z : Z)
| FErr (e : error)
| FType (t : PackageType).

Inductive Event : Type :=
| EvCall (c : Call)
| EvQuery (q : Query)
| EvLog (l : Level) (msg : string) (fields : list (string * Field))
| EvStderr (text : string)
| EvDefer (c : Closure).

(** The collaborators, over a world [W] of their own. *)
Record Env (W : Type) : Type := {
  exec : Call -> W -> option error * W;
  isFetched : Source -> string -> W -> bool;
  getPath : Source -> string -> string;
  osStat : string -> W -> bool * option error;
  filepathAbs : string -> W -> string * option error;
  newOverlay : BackingImage -> Package -> Overlay;
  findLikelyArg : W -> string;
  newPackage : string -> W -> Package * option error;
  geteuid : W -> Z
}.

(** What a Go function call comes to: a value, or a run-time panic. *)
Inductive Res (A : Type) : Type :=
| Val (a : A)
| Panic (msg : string).
Arguments Panic {A} msg.

(** How a command function ends: it returns, or the process exits. *)
Inductive Finish : Type :=
| Returns (err : option error)
| OsExit (code : Z).

Definition nl : string := String "010"%char EmptyString.

(** ** Profiles and backing images *)

Fixpoint IsValidProfileIn (profiles : list string) (profile : string) : bool :=
  match profiles with
  | [] => false
  | p :: rest => if p =? profile then true else IsValidProfileIn rest profile
  end.

Definition IsValidProfile (profile : string) : bool :=
  IsValidProfileIn ValidProfiles profile.

Definition NewBackingImage (name : string) : BackingImage :=
  {| Img.Name := name;
     Img.ImagePath := Filepath.Join [ImagesDir; (name ++ ImageSuffix)%string];
     Img.ImagePathXZ := Filepath.Join [ImagesDir; (name ++ ImageCompressedSuffix)%string];
     Img.ImageURI := (ImageBaseURI ++ "/" ++ name ++ ImageCompressedSuffix)%string;
     Img.RootDir := Filepath.Join [ImageRootsDir; name] |}.

(** ** Computations: a world, a result and the trace of what was done *)

Section Builder.

Variable W : Type.
Variable env : Env W.

(** [BuildUser] and [BuildUserHome] are constants of the builder package
    that are declared outside the files at hand. *)
Variable BuildUser : string.
Variable BuildUserHome : string.

Definition M (A : Type) : Type := W -> Res A * W * list Event.

Definition ret {A : Type} (a : A) : M A := fun w => (Val a, w, []).

Definition bind {A B : Type} (m : M A) (k : A -> M B) : M B :=
  fun w =>
    match m w with
    | (Val a, w1, t1) => let '(r, w2, t2) := k a w1 in (r, w2, t1 ++ t2)
    | (Panic msg, w1, t1) => (Panic msg, w1, t1)
    end.

Notation "x <- c ;; k" := (bind c (fun x => k))
  (at level 61, c at next level, right associativity).
Notation "c ;; k" := (bind c (fun _ => k))
  (at level 61, right associativity).

Definition panic {A : Type} (msg : string) : M A := fun w => (Panic msg, w, []).

Definition emit (e : Event) : M unit := fun w => (Val tt, w, [e]).

Definition call (c : Call) : M (option error) :=
  fun w => let (r, w') := exec env c w in (Val r, w', [EvCall c]).

Definition logf (l : Level) (msg : string) (fields : list (string * Field))
  : M unit := emit (EvLog l msg fields).

Definition stderr (text : string) : M unit := emit (EvStderr text).

(** [if err := c; err != nil { h(err); return err }], followed by [k]. *)
Definition orReturn (c : M (option error)) (h : error -> M unit)
  (k : M (option error)) : M (option error) :=
  r <- c ;;
  match r with
  | Some err => h err ;; ret (Some err)
  | None => k
  end.

Notation "'try' c 'onerr' h ;; k" := (orReturn c h k)
  (at level 61, c at next level, h at next level, right associativity).

Definition quiet (_ : error) : M unit := ret tt.

(** [defer c()] followed by the rest of the function body: the closure is
    invoked when the body is left, by a return or by a panic alike. *)
Definition withDefer {A : Type} (c : Closure) (body : M A) : M A :=
  fun w =>
    let '(r, w1, t1) := (emit (EvDefer c) ;; body) w in
    let '(_, w2, t2) := call (Invoke c) w1 in
    (r, w2, t1 ++ t2).

(** A [for ... range] loop whose body goes on to the next element or
    returns from the function; [after] is the code behind the loop. *)
Inductive Flow : Type :=
| Continue
| Return (err : option error).

Fixpoint forRange {A : Type} (body : A -> M Flow) (l : list A)
  (after : M (option error)) : M (option error) :=
  match l with
  | [] => after
  | x :: rest =>
      f <- body x ;;
      match f with
      | Continue => forRange body rest after
      | Return err => ret err
      end
  end.

Definition fromSlice (s : option string) : M string :=
  match s with
  | Some t => ret t
  | None => panic "slice bounds out of range"
  end.

(** ** build.go *)

Definition PathExists (path : string) : M bool :=
  fun w =>
    let (st, err) := osStat env path w in
    (Val (match err with None => st | Some _ => false end), w,
     [EvQuery (QStat path)]).

Definition Source_IsFetched (s : Source) (expectedHash : string) : M bool :=
  fun w => (Val (isFetched env s expectedHash w), w,
            [EvQuery (QIsFetched s expectedHash)]).

Definition fetchSource (p : Package) (source : Source) : M Flow :=
  let expHash :=
    if PackageType_eqb (Type_ p) PackageTypeXML then SHA1Sum source
    else SHA256Sum source in
  fetched <- Source_IsFetched source expHash ;;
  if fetched then ret Continue
  else
    logf Info "Downloading source" [("uri", FStr (URI source))] ;;
    r <- call (SourceFetch source) ;;
    match r with
    | Some err =>
        logf Error "Failed to fetch source"
          [("error", FErr err); ("uri", FStr (URI source))] ;;
        ret Continue
    | None => ret Continue
    end.

Definition FetchSources (p : Package) (o : Overlay) : M (option error) :=
  forRange (fetchSource p) (Sources p) (ret None).

Definition GetWorkDirInternal (p : Package) : string :=
  if PackageType_eqb (Type_ p) PackageTypeXML then "/WORK"
  else Filepath.Join [BuildUserHome; "work"].

Definition GetWorkDir (p : Package) (o : Overlay) : option string :=
  match sliceFrom1 (GetWorkDirInternal p) with
  | Some t => Some (Filepath.Join [MountPoint o; t])
  | None => None
  end.

Definition GetSourceDirInternal (p : Package) : string :=
  if PackageType_eqb (Type_ p) PackageTypeXML then "/var/cache/eopkg/archives"
  else Filepath.Join [BuildUserHome; "YPKG"; "sources"].

Definition GetSourceDir (p : Package) (o : Overlay) : option string :=
  match sliceFrom1 (GetSourceDirInternal p) with
  | Some t => Some (Filepath.Join [MountPoint o; t])
  | None => None
  end.

Definition bindSource (p : Package) (o : Overlay) (source : Source) : M Flow :=
  let expHash :=
    if PackageType_eqb (Type_ p) PackageTypeXML then SHA1Sum source
    else SHA256Sum source in
  let localFile := getPath env source expHash in
  sourceDir <- fromSlice (GetSourceDir p o) ;;
  present <- PathExists sourceDir ;;
  r <- (if negb present then call (MkdirAll sourceDir 493) else ret None) ;;
  match r with
  | Some err =>
      logf Error "Failed to create source directory"
        [("dir", FStr sourceDir); ("error", FErr err)] ;;
      ret (Return (Some err))
  | None =>
      let tgtPath := Filepath.Join [sourceDir; File source] in
      logf Debug "Exposing source to container" [("target", FStr tgtPath)] ;;
      r <- call (TouchFile tgtPath) ;;
      match r with
      | Some err =>
          logf Error "Failed to create bind mount target"
            [("target", FStr tgtPath); ("error", FErr err)] ;;
          ret (Return None)
      | None =>
          r <- call (BindMount localFile tgtPath) ;;
          match r with
          | Some err =>
              logf Error "Failed to bind mount source"
                [("target", FStr tgtPath); ("error", FErr err)] ;;
              ret (Return (Some err))
          | None => ret Continue
          end
      end
  end.

Definition BindSources (p : Package) (o : Overlay) : M (option error) :=
  forRange (bindSource p o) (Sources p) (ret None).

Definition copyAsset (baseDir destdir : string) (name : string) : M Flow :=
  let fso := Filepath.Join [baseDir; name] in
  r <- call (CopyAll fso destdir) ;;
  match r with
  | Some err => ret (Return (Some err))
  | None => ret Continue
  end.

Definition CopyAssets (p : Package) (o : Overlay) : M (option error) :=
  let baseDir := Filepath.Dir (Path p) in
  a <- (fun w => (Val (filepathAbs env baseDir w), w, [EvQuery (QAbs baseDir)])) ;;
  match a with
  | (_, Some err) => ret (Some err)
  | (abs, None) =>
      let baseDir := abs in
      let copyPaths :=
        [Filepath.Base (Path p); "files"; "comar"; "component.xml"] in
      let copyPaths :=
        if PackageType_eqb (Type_ p) PackageTypeXML
        then copyPaths ++ ["actions.py"] else copyPaths in
      destdir <- fromSlice (GetWorkDir p o) ;;
      forRange (copyAsset baseDir destdir) copyPaths (ret None)
  end.

(** The steps of [Build] that only the modern format takes, and the one
    step the legacy format is left with. *)
Definition buildYpkg (p : Package) (overlay : Overlay) (pman : EopkgManager)
  (after : M (option error)) : M (option error) :=
  let wdir := GetWorkDirInternal p in
  let ymlFile := Filepath.Join [wdir; Filepath.Base (Path p)] in
  let cmd := ("ypkg-install-deps -f " ++ ymlFile)%string in
  logf Info "Installing build dependencies" [("buildFile", FStr ymlFile)] ;;
  try call (ChrootExec (MountPoint overlay) cmd)
  onerr (fun err => logf Error "Failed to install build dependencies"
                      [("buildFile", FStr ymlFile); ("error", FErr err)]) ;;
  logf Debug "Stopping D-BUS" [] ;;
  try call (StopDBUS pman)
  onerr (fun err => logf Error "Failed to stop d-bus" [("error", FErr err)]) ;;
  let cmd :=
    ("chown -R " ++ BuildUser ++ ":" ++ BuildUser ++ " " ++ BuildUserHome)%string in
  try call (ChrootExec (MountPoint overlay) cmd)
  onerr (fun err => logf Error "Failed to set home directory permissions"
                      [("error", FErr err)]) ;;
  try call DropNetworking onerr quiet ;;
  try call (ConfigureNetworking overlay) onerr quiet ;;
  try BindSources p overlay
  onerr (fun _ => logf Error "Cannot continue without sources" []) ;;
  let cmd :=
    ("/bin/su - " ++ BuildUser ++ " -- fakeroot ypkg-build -D " ++ wdir
       ++ " " ++ ymlFile)%string in
  logf Info "Now starting build of package" [("package", FStr (Name p))] ;;
  try call (ChrootExec (MountPoint overlay) cmd)
  onerr (fun err => logf Error "Failed to build package" [("error", FErr err)]) ;;
  after.

Definition buildLegacy (pman : EopkgManager) (after : M (option error))
  : M (option error) :=
  logf Warning "Full sandboxing is not possible with legacy format" [] ;;
  logf Debug "Stopping D-BUS" [] ;;
  try call (StopDBUS pman)
  onerr (fun err => logf Error "Failed to stop d-bus" [("error", FErr err)]) ;;
  after.

Definition Build (p : Package) (img : BackingImage) : M (option error) :=
  logf Info "Building package"
    [("profile", FStr (Img.Name img)); ("version", FStr (Version p));
     ("package", FStr (Name p)); ("type", FType (Type_ p));
     ("release", FInt (Release p))] ;;
  let overlay := newOverlay env img p in
  try call (CleanExisting overlay) onerr quiet ;;
  let pman := NewEopkgManager (MountPoint overlay) in
  let reaper := GrimReaper overlay p pman in
  withDefer reaper (
    call (HandleInterrupt reaper) ;;
    try call (ActivateRoot p overlay) onerr quiet ;;
    try CopyAssets p overlay
    onerr (fun err => logf Error "Failed to copy required source assets"
                        [("error", FErr err)]) ;;
    logf Info "Validating sources" [] ;;
    try FetchSources p overlay onerr quiet ;;
    try call (PmanInit pman) onerr quiet ;;
    logf Debug "Starting D-BUS" [] ;;
    try call (StartDBUS pman)
    onerr (fun err => logf Error "Failed to start d-bus" [("error", FErr err)]) ;;
    logf Info "Upgrading system base" [] ;;
    try call (Upgrade pman)
    onerr (fun err => logf Error "Failed to upgrade rootfs" [("error", FErr err)]) ;;
    logf Info "Asserting system.devel component installation" [] ;;
    try call (InstallComponent pman "system.devel")
    onerr (fun err => logf Error "Failed to assert system.devel"
                        [("error", FErr err)]) ;;
    let after := ret (Some ("Not yet implemented" : error)) in
    if PackageType_eqb (Type_ p) PackageTypeYpkg
    then buildYpkg p overlay pman after
    else buildLegacy pman after).

(** ** Profiles on the command line *)

Definition EmitProfileError (profile : string) : M unit :=
  stderr ("Error: '" ++ profile ++ "' is not a known profile" ++ nl)%string ;;
  stderr ("Valid profiles include:" ++ nl ++ nl)%string ;;
  (fix each (l : list string) : M unit :=
     match l with
     | [] => ret tt
     | p :: rest => stderr (" * " ++ p ++ nl)%string ;; each rest
     end) ValidProfiles ;;
  stderr (nl ++ "The default profile is: " ++ DefaultProfile ++ nl)%string.

Definition IsInstalled (b : BackingImage) : M bool := PathExists (Img.ImagePath b).

Definition IsFetched (b : BackingImage) : M bool := PathExists (Img.ImagePathXZ b).

(** ** cmd/build.go and cmd/update.go; [profile] is the value of the flag *)

Definition buildPackage (profile : string) (args : list string)
  : M (option error) :=
  pkgPath <- (match args with
              | [a] => ret a
              | _ => fun w => (Val (findLikelyArg env w), w, [EvQuery QFindLikelyArg])
              end) ;;
  if negb (IsValidProfile profile) then
    EmitProfileError profile ;; ret None
  else
    let pkgPath := TrimSpace pkgPath in
    if pkgPath =? "" then ret (Some ("Require a filename to build" : error))
    else
      let bk := NewBackingImage profile in
      installed <- IsInstalled bk ;;
      if negb installed then
        stderr ("Cannot find profile '" ++ profile
                  ++ "'. Did you forget to run init?" ++ nl)%string ;;
        ret None
      else
        r <- (fun w => (Val (newPackage env pkgPath w), w,
                        [EvQuery (QNewPackage pkgPath)])) ;;
        match r with
        | (_, Some err) =>
            stderr ("Failed to load package: " ++ err ++ nl)%string ;; ret None
        | (pkg, None) =>
            logf Info "Building package"
              [("profile", FStr profile); ("version", FStr (Version pkg));
               ("package", FStr (Name pkg)); ("type", FType (Type_ pkg));
               ("release", FInt (Release pkg))] ;;
            (if negb (PackageType_eqb (Type_ pkg) PackageTypeYpkg)
             then logf Warning
                    "Full sandboxing is not possible with legacy format" []
             else ret tt) ;;
            ret None
        end.

Definition updateProfile (profile : string) (args : list string) : M Finish :=
  let profile := match args with
                 | [a] => TrimSpace a
                 | _ => profile
                 end in
  if negb (IsValidProfile profile) then
    EmitProfileError profile ;; ret (Returns None)
  else
    let bk := NewBackingImage profile in
    installed <- IsInstalled bk ;;
    if negb installed then
      stderr ("Cannot find profile '" ++ profile
                ++ "'. Did you forget to run init?" ++ nl)%string ;;
      ret (OsExit 1)
    else
      euid <- (fun w => (Val (geteuid env w), w, [EvQuery QGeteuid])) ;;
      if negb (euid =? 0)%Z then
        stderr ("You must be root to run init profiles" ++ nl)%string ;;
        ret (OsExit 1)
      else
        r <- call (ImageUpdate bk) ;;
        match r with
        | Some _ => ret (OsExit 1)
        | None => ret (Returns None)
        end.

(** What came of a computation, and what it did on the way. *)
Definition result {A : Type} (x : Res A * W * list Event) : Res A := fst (fst x).
Definition world {A : Type} (x : Res A * W * list Event) : W := snd (fst x).
Definition trace {A : Type} (x : Res A * W * list Event) : list Event := snd x.

End Builder.

Arguments ret {W A} a _.
Arguments panic {W A} msg _.
Arguments emit {W} e _.
Arguments logf {W} l msg fields _.
Arguments stderr {W} text _.
Arguments quiet {W} _ _.
Arguments EmitProfileError {W} profile _.
Arguments fromSlice {W} s _.
Arguments result {W A} x.
Arguments world {W A} x.
Arguments trace {W A} x.

(** ** A small world to run the builder in

    Files are known by their path and the digest of their content. *)

Module Sim.

Definition World : Type := list (string * string).

Fixpoint lookup (path : string) (w : World) : option string :=
  match w with
  | [] => None
  | (q, d) :: rest => if q =? path then Some d else lookup path rest
  end.

(** Modelled from the spec: [Source.GetPath] is not in the files at hand;
    the cache is "name-addressed" here, under one directory. *)
Definition cachePath (s : Source) (hash : string) : string :=
  Filepath.Join ["/var/lib/solbuild/sources"; File s].

(** Modelled from the spec: [Source.IsFetched] is not in the files at hand;
    it "returns true iff a local file exists at the canonical path and its
    content hash equals expectedHash". *)
Definition cached (s : Source) (expectedHash : string) (w : World) : bool :=
  match lookup (cachePath s expectedHash) w with
  | Some d => d =? expectedHash
  | None => false
  end.

(** Modelled from the spec: the overlay of a build lives under a directory
    of its own, named after the profile and the package. *)
Definition overlayOf (img : BackingImage) (p : Package) : Overlay :=
  let base := Filepath.Join ["/var/cache/solbuild"; Img.Name img; Name p] in
  {| Back := img; OwnPackage := p;
     MountPoint := Filepath.Join [base; "union"];
     WorkDir := Filepath.Join [base; "work"];
     UpperDir := Filepath.Join [base; "tmp"] |}.

(** The collaborators: [fails] says which calls fail and with what,
    [served] is the digest of what the origin of a source serves, [likely]
    the descriptor found in the current directory, [load] the parser of
    descriptors and [uid] the effective user. *)
Definition env (fails : Call -> option error) (served : Source -> string)
  (likely : string) (load : string -> Package * option error) (uid : Z)
  : Env World :=
  {| exec := fun c w =>
       match fails c with
       | Some err => (Some err, w)
       | None =>
           (None,
            match c with
            | SourceFetch s => (cachePath s "", served s) :: w
            | MkdirAll dir _ => (dir, "") :: w
            | TouchFile path => (path, "") :: w
            | _ => w
            end)
       end;
     isFetched := cached;
     getPath := cachePath;
     osStat := fun path w =>
       match lookup path w with
       | Some _ => (true, None)
       | None => (false, Some "no such file or directory")
       end;
     filepathAbs := fun path _ => (Filepath.Join ["/home/dev/pkg"; path], None);
     newOverlay := overlayOf;
     findLikelyArg := fun _ => likely;
     newPackage := fun path _ => load path;
     geteuid := fun _ => uid |}.

Definition noFailure (c : Call) : option error := None.

Definition src1 : Source :=
  {| URI := "https://example.com/nano-2.7.1.tar.xz"; File := "nano-2.7.1.tar.xz";
     SHA1Sum := "aa11"; SHA256Sum := "bb22" |}.

Definition src2 : Source :=
  {| URI := "https://example.com/fix.patch"; File := "fix.patch";
     SHA1Sum := "cc33"; SHA256Sum := "dd44" |}.

Definition nano (t : PackageType) : Package :=
  {| Name := "nano"; Version := "2.7.1"; Release := 62; Type_ := t;
     Path := match t with
             | PackageTypeXML => "pspec.xml"
             | PackageTypeYpkg => "package.yml"
             end;
     Sources := [src1; src2] |}.

Definition served (s : Source) : string := SHA256Sum s.

Definition load (path : string) : Package * option error :=
  if path =? "package.yml" then (nano PackageTypeYpkg, None)
  else if path =? "pspec.xml" then (nano PackageTypeXML, None)
  else (nano PackageTypeXML, Some "unrecognized format").

Definition plain (fails : Call -> option error) : Env World :=
  env fails served "package.yml" load 0.

Definition failClean (c : Call) : option error :=
  match c with
  | CleanExisting _ => Some "device or resource busy"
  | _ => None
  end.

Definition failFetch (c : Call) : option error :=
  match c with
  | SourceFetch _ => Some "404 Not Found"
  | _ => None
  end.

Definition failTouch (c : Call) : option error :=
  match c with
  | TouchFile _ => Some "read-only file system"
  | _ => None
  end.

Definition failComar (c : Call) : option error :=
  match c with
  | CopyAll src _ =>
      if src =? "/home/dev/pkg/comar" then Some "no such file or directory"
      else None
  | _ => None
  end.

Definition failMkdir (c : Call) : option error :=
  match c with
  | MkdirAll _ _ => Some "permission denied"
  | _ => None
  end.

Definition failMount (c : Call) : option error :=
  match c with
  | BindMount _ _ => Some "operation not permitted"
  | _ => None
  end.

Definition failActivate (c : Call) : option error :=
  match c with
  | ActivateRoot _ _ => Some "mount failed"
  | _ => None
  end.

(** The collaborators of [plain], in a place whose working directory is
    gone, so that no path can be made absolute. *)
Definition lost : Env World :=
  {| exec := exec (plain noFailure);
     isFetched := cached;
     getPath := cachePath;
     osStat := osStat (plain noFailure);
     filepathAbs := fun path _ => ("", Some "getwd: no such file or directory");
     newOverlay := overlayOf;
     findLikelyArg := fun _ => "package.yml";
     newPackage := fun path _ => load path;
     geteuid := fun _ => 0%Z |}.

Definition mainImage : BackingImage := NewBackingImage "main-x86_64".

(** A world in which the image of the main profile is installed. *)
Definition installed : World := [("/var/lib/solbuild/images/main-x86_64.img", "")].

(** A cache that holds both sources of [nano] with their SHA-256 digests. *)
Definition hot : World :=
  [("/var/lib/solbuild/sources/nano-2.7.1.tar.xz", "bb22");
   ("/var/lib/solbuild/sources/fix.patch", "dd44")].

Definition overlay (t : PackageType) : Overlay := overlayOf mainImage (nano t).

(** A cache that holds the first source of [nano] with its SHA-256 digest. *)
Definition warm : World := [("/var/lib/solbuild/sources/nano-2.7.1.tar.xz", "bb22")].

End Sim.


(** ** Vocabulary of the specification *)

(** A computation that never panics, and one whose every event satisfies [P]. *)
Definition total {W A : Type} (m : M W A) : Prop :=
  forall w, exists a, result (m w) = Val a.

Definition emits {W A : Type} (P : Event -> Prop) (m : M W A) : Prop :=
  forall w, Forall P (trace (m w)).

(** A function that returns an error whatever happens. *)
Definition failing {W : Type} (m : M W (option error)) : Prop :=
  forall w, exists err, result (m w) = Val (Some err).

(** The checksum of a source under a format, in the words of the
    specification: "legacy -> weaker legacy digest; modern -> stronger
    digest". *)
Definition checksumFor (t : PackageType) (s : Source) : string :=
  match t with
  | PackageTypeXML => SHA1Sum s
  | PackageTypeYpkg => SHA256Sum s
  end.

(** What [BindSources] mounts for a source: the cached file that the
    checksum of the format names. *)
Definition mountsCached {W : Type} (env : Env W) (p : Package) (s : Source)
  (ev : Event) : Prop :=
  forall src tgt,
    ev = EvCall (BindMount src tgt) ->
    src = getPath env s (checksumFor (Type_ p) s).

(** What [PathExists] answers in a world. *)
Definition existsAt {W : Type} (env : Env W) (path : string) (w : W) : bool :=
  match osStat env path w with
  | (st, None) => st
  | (_, Some _) => false
  end.

(** What the stock answer to an unknown profile puts on standard error. *)
Definition profileError (profile : string) : list Event :=
  [EvStderr ("Error: '" ++ profile ++ "' is not a known profile" ++ nl);
   EvStderr ("Valid profiles include:" ++ nl ++ nl)]
    ++ map (fun p => EvStderr (" * " ++ p ++ nl)) ValidProfiles
    ++ [EvStderr (nl ++ "The default profile is: " ++ DefaultProfile ++ nl)].

(** A call into the world, as opposed to a look at it or a message. *)
Definition isCall (ev : Event) : bool :=
  match ev with
  | EvCall _ => true
  | _ => false
  end.

(** The bind mounts of a trace, in the order they were made. *)
Fixpoint mounts (t : list Event) : list (string * string) :=
  match t with
  | [] => []
  | EvCall (BindMount src tgt) :: rest => (src, tgt) :: mounts rest
  | _ :: rest => mounts rest
  end.

(** The copy of one asset into the work directory, as an event. *)
Definition copied (baseDir destdir name : string) : Event :=
  EvCall (CopyAll (Filepath.Join [baseDir; name]) destdir).

(** A computation that leaves the world as it was. *)
Definition inert {W A : Type} (m : M W A) : Prop :=
  forall w, world (m w) = w.

(** The calls of a run with their outcomes, in order. *)
Definition Journal : Type := list (Call * option error).

(** The collaborators of [env], with a journal of the calls kept in the
    world beside their own. *)
Definition recording {W : Type} (env : Env W) : Env (W * Journal) :=
  {| exec := fun c st =>
       let (r, w') := exec env c (fst st) in (r, (w', snd st ++ [(c, r)]));
     isFetched := fun s h st => isFetched env s h (fst st);
     getPath := getPath env;
     osStat := fun path st => osStat env path (fst st);
     filepathAbs := fun path st => filepathAbs env path (fst st);
     newOverlay := newOverlay env;
     findLikelyArg := fun st => findLikelyArg env (fst st);
     newPackage := fun path st => newPackage env path (fst st);
     geteuid := fun st => geteuid env (fst st) |}.

(** The calls whose failure the builder does not forgive: all but the
    fetch of a source and the creation of a bind-mount target, and the two
    calls about the reaper, whose outcome is not looked at. *)
Definition fatal (c : Call) : bool :=
  match c with
  | SourceFetch _ | TouchFile _ | HandleInterrupt _ | Invoke _ => false
  | _ => true
  end.

(** A computation in which a failed fatal call is the last call made, and
    whose result then carries the error of that call, as [isErr] reads it. *)
Definition failsFast {W A : Type} (isErr : A -> error -> Prop)
  (m : M (W * Journal) A) : Prop :=
  forall st, exists jm,
    snd (world (m st)) = snd st ++ jm /\
    forall j1 c err j2,
      jm = j1 ++ (c, Some err) :: j2 -> fatal c = true ->
      j2 = [] /\ exists a, result (m st) = Val a /\ isErr a err.

(** A computation that hands on the error [err] and does nothing else. *)
Definition handsOn {W A : Type} (isErr : A -> error -> Prop)
  (m : M (W * Journal) A) (err : error) : Prop :=
  forall st, world (m st) = st /\ exists a, result (m st) = Val a /\ isErr a err.

Definition noError {A : Type} (_ : A) (_ : error) : Prop := False.

Definition isError (r : option error) (err : error) : Prop := r = Some err.

Definition isReturn (f : Flow) (err : error) : Prop := f = Return (Some err).

(** Every call but the cleaning of the overlay, and a computation whose
    calls, as the journal has them, all satisfy [P]. *)
Definition notCleanExisting (c : Call) : bool :=
  match c with
  | CleanExisting _ => false
  | _ => true
  end.

Definition callsOnly {W A : Type} (P : Call -> bool) (m : M (W * Journal) A)
  : Prop :=
  forall st, exists jm,
    snd (world (m st)) = snd st ++ jm /\
    Forall (fun e => P (fst e) = true) jm.

(** A computation over the recording collaborators that does what [m]
    does over the plain ones, the journal apart. *)
Definition mirrors {W A : Type} (m : M W A) (m' : M (W * Journal) A) : Prop :=
  forall w j,
    result (m' (w, j)) = result (m w) /\
    fst (world (m' (w, j))) = world (m w) /\
    trace (m' (w, j)) = trace (m w).

(** The cache checks of a trace, in the order they were made. *)
Fixpoint cacheChecks (t : list Event) : list (Source * string) :=
  match t with
  | [] => []
  | EvQuery (QIsFetched s h) :: rest => (s, h) :: cacheChecks rest
  | _ :: rest => cacheChecks rest
  end.

(** How often a trace invokes a deferred closure, and the events that
    have to do with one. *)
Definition isInvoke (ev : Event) : bool :=
  match ev with
  | EvCall (Invoke _) => true
  | _ => false
  end.

Definition reaperRuns (t : list Event) : nat := length (filter isInvoke t).

(** Modelled from the spec: [HandleInterrupt] is not in the files at hand.
    "The orchestrator installs a signal-handling hook that invokes the same
    reaper before the process terminates", and "no operation is resumed
    after interruption".  The hooks of a trace are the closures handed to
    [HandleInterrupt] in it; a run that an interruption signal cuts short
    after its first [n] events goes on with the invocation of its hooks and
    nothing else: what was deferred is not run, for the process ends in
    the hook. *)
Fixpoint hooks (t : list Event) : list Closure :=
  match t with
  | [] => []
  | EvCall (HandleInterrupt c) :: rest => c :: hooks rest
  | _ :: rest => hooks rest
  end.

Definition interrupted (t : list Event) (n : nat) : list Event :=
  firstn n t ++ map (fun c => EvCall (Invoke c)) (hooks (firstn n t)).

Definition aboutReaper (ev : Event) : bool :=
  match ev with
  | EvCall (Invoke _) | EvCall (HandleInterrupt _) | EvDefer _ => true
  | _ => false
  end.

(** The calls of the dependency-installation and isolation steps: commands
    run in the sandbox, the two networking calls and what [BindSources]
    does to the file system. *)
Definition isIsolationCall (ev : Event) : bool :=
  match ev with
  | EvCall (ChrootExec _ _) | EvCall DropNetworking
  | EvCall (ConfigureNetworking _) | EvCall (MkdirAll _ _)
  | EvCall (TouchFile _) | EvCall (BindMount _ _) => true
  | _ => false
  end.

Definition isWarning (ev : Event) : bool :=
  match ev with
  | EvLog Warning _ _ => true
  | _ => false
  end.

(** What the bind step records for one source when nothing fails: a look
    at the source directory, which is made when it is missing, and then
    the target file created and the cached file, named by the checksum of
    the format, mounted on it. *)
Definition exposed {W : Type} (env : Env W) (p : Package) (dir : string)
  (s : Source) (t : list Event) : Prop :=
  let tgt := Filepath.Join [dir; File s] in
  exists mk,
    (mk = [] \/ mk = [EvCall (MkdirAll dir 493)]) /\
    t = [EvQuery (QStat dir)] ++ mk ++
        [EvLog Debug "Exposing source to container" [("target", FStr tgt)];
         EvCall (TouchFile tgt);
         EvCall (BindMount (getPath env s (checksumFor (Type_ p) s)) tgt)].

(** Every call into a collaborator succeeds. *)
Definition allSucceed {W : Type} (env : Env W) : Prop :=
  (forall c w, fst (exec env c w) = None) /\
  (forall path w, snd (filepathAbs env path w) = None).

(** The loop body went on to the next element for every element of [l];
    the world it ends in and the events on the way. *)
Fixpoint runsThrough {W A : Type} (body : A -> M W Flow) (l : list A) (w : W)
  : option (W * list Event) :=
  match l with
  | [] => Some (w, [])
  | x :: rest =>
      match body x w with
      | (Val Continue, w1, t1) =>
          match runsThrough body rest w1 with
          | Some (w2, t2) => Some (w2, t1 ++ t2)
          | None => None
          end
      | _ => None
      end
  end.

(** The run [r], after the events [t]. *)
Definition preceded {W A : Type} (t : list Event) (r : Res A * W * list Event)
  : Res A * W * list Event :=
  (result r, world r, t ++ trace r).

(** A path element that [Clean] keeps as it is. *)
Fixpoint hasSeparator (s : string) : bool :=
  match s with
  | EmptyString => false
  | String c rest => Filepath.IsPathSeparator c || hasSeparator rest
  end.

Definition plainElement (e : string) : bool :=
  negb (hasSeparator e) && negb (e =? "") && negb (e =? ".") && negb (e =? "..").

(** An absolute path in clean form, the root apart. *)
Definition cleanAbsolute (path : string) : Prop :=
  Filepath.Clean path = path /\ path <> "/" /\
  exists rest, path = String "/" rest.

(** ** Paths *)

Lemma append_nil_r (s : string) : (s ++ "")%string = s.
Proof. induction s; simpl; congruence. Qed.

Lemma append_assoc (a b c : string) :
  ((a ++ b) ++ c)%string = (a ++ (b ++ c))%string.
Proof. induction a; simpl; congruence. Qed.

Lemma append_length (a b : string) :
  String.length (a ++ b) = String.length a + String.length b.
Proof. induction a; simpl; congruence. Qed.

Lemma append_inv_head (l a b : string) :
  (l ++ a)%string = (l ++ b)%string -> a = b.
Proof. induction l; simpl; intros H; [assumption | injection H; auto]. Qed.

Lemma append_inv_tail (s a b : string) :
  (a ++ s)%string = (b ++ s)%string -> a = b.
Proof.
  revert b; induction a as [|c a IH]; intros [|d b] H; simpl in *.
  - reflexivity.
  - apply (f_equal String.length) in H; simpl in H.
    rewrite append_length in H; lia.
  - apply (f_equal String.length) in H; simpl in H.
    rewrite append_length in H; lia.
  - injection H as -> H; f_equal; auto.
Qed.

Lemma elements_nonempty (path : string) : Filepath.elements path <> [].
Proof.
  destruct path as [|c rest]; simpl; [discriminate|].
  destruct (Filepath.IsPathSeparator c); [discriminate|].
  destruct (Filepath.elements rest); discriminate.
Qed.

Lemma elements_plain (e : string) :
  hasSeparator e = false -> Filepath.elements e = [e].
Proof.
  induction e as [|c e IH]; simpl; intros H; [reflexivity|].
  apply orb_false_iff in H as [Hc He].
  rewrite Hc, (IH He); reflexivity.
Qed.

Lemma elements_app (a b : string) :
  Filepath.elements (a ++ "/" ++ b) = Filepath.elements a ++ Filepath.elements b.
Proof.
  induction a as [|c a IH]; simpl in *; [reflexivity|].
  destruct (Filepath.IsPathSeparator c); rewrite IH; [reflexivity|].
  destruct (Filepath.elements a) eqn:E; [|reflexivity].
  exfalso; exact (elements_nonempty a E).
Qed.

Lemma cleanElem_plain (rooted : bool) (out : list string) (e : string) :
  plainElement e = true -> Filepath.cleanElem rooted out e = e :: out.
Proof.
  unfold plainElement, Filepath.cleanElem; intros H.
  repeat (apply andb_true_iff in H as [H ?]).
  repeat match goal with
         | h : negb ?b = true |- _ => apply negb_true_iff in h; try rewrite h
         end.
  reflexivity.
Qed.

Lemma cleanElem_kept (rooted : bool) (out : list string) (e : string) :
  Forall (fun x => x <> "") out ->
  Forall (fun x => x <> "") (Filepath.cleanElem rooted out e).
Proof.
  intros H; unfold Filepath.cleanElem.
  destruct (e =? "") eqn:E0; simpl; [assumption|].
  destruct (e =? "."); simpl; [assumption|].
  assert (e <> "") by (apply String.eqb_neq; assumption).
  destruct (e =? "..").
  - destruct out as [|top below].
    + destruct rooted; auto.
    + destruct (top =? ".."); [auto | inversion H; assumption].
  - auto.
Qed.

Lemma cleaned_kept (rooted : bool) (es out : list string) :
  Forall (fun x => x <> "") out ->
  Forall (fun x => x <> "") (fold_left (Filepath.cleanElem rooted) es out).
Proof.
  revert out; induction es as [|e es IH]; simpl; intros out H; [assumption|].
  apply IH, cleanElem_kept, H.
Qed.

Lemma concat_snoc (l : list string) (e : string) :
  l <> [] ->
  String.concat "/" (l ++ [e]) = (String.concat "/" l ++ "/" ++ e)%string.
Proof.
  induction l as [|x l IH]; intros H; [congruence|].
  destruct l as [|y l].
  - reflexivity.
  - change (String.concat "/" ((x :: y :: l) ++ [e]))
      with (x ++ "/" ++ String.concat "/" ((y :: l) ++ [e]))%string.
    rewrite IH by discriminate.
    change (String.concat "/" (x :: y :: l))
      with (x ++ "/" ++ String.concat "/" (y :: l))%string.
    rewrite !append_assoc; reflexivity.
Qed.

Lemma concat_nonempty (l : list string) :
  l <> [] -> Forall (fun x => x <> "") l -> String.concat "/" l <> "".
Proof.
  destruct l as [|x [|y l]]; intros Hne H; [congruence| |].
  - simpl; inversion H; assumption.
  - inversion H as [|? ? Hx _]; subst.
    change (String.concat "/" (x :: y :: l))
      with (x ++ "/" ++ String.concat "/" (y :: l))%string.
    destruct x; [congruence | discriminate].
Qed.

Lemma Clean_nonempty (path : string) : Filepath.Clean path <> "".
Proof.
  destruct path as [|c rest]; [discriminate|].
  unfold Filepath.Clean.
  destruct (Filepath.IsPathSeparator c); [discriminate|].
  destruct (fold_left _ _ _) as [|e out] eqn:E; [discriminate|].
  apply concat_nonempty.
  - simpl; destruct (rev out); discriminate.
  - apply Forall_rev; rewrite <- E; apply cleaned_kept; constructor.
Qed.

Lemma Join_nonempty (elem : list string) :
  Exists (fun e => e <> "") elem -> Filepath.Join elem <> "".
Proof.
  induction elem as [|e rest IH]; intros H; [inversion H|].
  simpl; destruct (e =? "") eqn:E.
  - apply IH; inversion H as [? ? He|]; [|assumption].
    apply String.eqb_eq in E; contradiction.
  - apply Clean_nonempty.
Qed.

(** Appending a plain element to an absolute path appends it to the
    cleaned path, unless that is the root. *)
Lemma Clean_snoc (rest e : string) :
  plainElement e = true ->
  Filepath.Clean (String "/" rest) <> "/" ->
  Filepath.Clean (String "/" rest ++ "/" ++ e)
  = (Filepath.Clean (String "/" rest) ++ "/" ++ e)%string.
Proof.
  intros He Hroot.
  assert (Hel : Filepath.elements (String "/" rest ++ "/" ++ e)
                = Filepath.elements (String "/" rest) ++ [e]).
  { rewrite elements_app, (elements_plain e); [reflexivity|].
    unfold plainElement in He.
    repeat (apply andb_true_iff in He as [He ?]).
    apply negb_true_iff; assumption. }
  change (String "/" rest ++ "/" ++ e)%string
    with (String "/" (rest ++ "/" ++ e)) in *.
  unfold Filepath.Clean in *.
  change (Filepath.IsPathSeparator "/") with true in *; cbv iota in *.
  rewrite Hel, fold_left_app; cbn [fold_left].
  rewrite cleanElem_plain by assumption.
  cbn [rev].
  destruct (rev (fold_left _ (Filepath.elements (String "/" rest)) [])) eqn:E.
  - exfalso; apply Hroot; reflexivity.
  - rewrite concat_snoc by discriminate.
    rewrite append_assoc; reflexivity.
Qed.

Lemma Clean_snoc_not_root (rest e : string) :
  plainElement e = true ->
  Filepath.Clean (String "/" rest ++ "/" ++ e) <> "/".
Proof.
  intros He.
  assert (Hel : Filepath.elements (String "/" rest ++ "/" ++ e)
                = Filepath.elements (String "/" rest) ++ [e]).
  { rewrite elements_app, (elements_plain e); [reflexivity|].
    unfold plainElement in He.
    repeat (apply andb_true_iff in He as [He ?]).
    apply negb_true_iff; assumption. }
  change (String "/" rest ++ "/" ++ e)%string
    with (String "/" (rest ++ "/" ++ e)) in *.
  unfold Filepath.Clean.
  change (Filepath.IsPathSeparator "/") with true; cbv iota.
  rewrite Hel, fold_left_app; cbn [fold_left].
  rewrite cleanElem_plain by assumption.
  cbn [rev].
  intros H; injection H as H.
  revert H; apply concat_nonempty.
  - destruct (rev _); discriminate.
  - apply Forall_app; split.
    + apply Forall_rev, cleaned_kept; constructor.
    + constructor; [|constructor].
      unfold plainElement in He.
      repeat (apply andb_true_iff in He as [He ?]).
      intros ->; discriminate.
Qed.

Lemma Join_abs (rest e : string) :
  plainElement e = true ->
  Filepath.Clean (String "/" rest) <> "/" ->
  Filepath.Join [String "/" rest; e]
  = (Filepath.Clean (String "/" rest) ++ "/" ++ e)%string.
Proof.
  intros He Hroot.
  change (Filepath.Join [String "/" rest; e])
    with (Filepath.Clean (String "/" rest ++ "/" ++ e)).
  apply Clean_snoc; assumption.
Qed.

Lemma hasSeparator_app (a b : string) :
  hasSeparator (a ++ b) = hasSeparator a || hasSeparator b.
Proof.
  induction a as [|c a IH]; simpl; [reflexivity|].
  rewrite IH, orb_assoc; reflexivity.
Qed.

Lemma plainElement_long (e : string) :
  hasSeparator e = false -> 3 <= String.length e -> plainElement e = true.
Proof.
  intros Hs Hl; unfold plainElement; rewrite Hs.
  destruct e as [|a [|b [|c e]]]; simpl in Hl; try lia.
  cbn -[Ascii.eqb].
  destruct (a =? ".")%char, (b =? ".")%char; reflexivity.
Qed.

Lemma plainElement_suffixed (name suffix : string) :
  hasSeparator name = false -> hasSeparator suffix = false ->
  3 <= String.length suffix ->
  plainElement (name ++ suffix) = true.
Proof.
  intros Hn Hs Hl; apply plainElement_long.
  - rewrite hasSeparator_app, Hn, Hs; reflexivity.
  - rewrite append_length; lia.
Qed.

Lemma ImagePath_plain (name : string) :
  hasSeparator name = false ->
  Img.ImagePath (NewBackingImage name)
  = (ImagesDir ++ "/" ++ name ++ ImageSuffix)%string.
Proof.
  intros H; unfold NewBackingImage, Img.ImagePath.
  change ImagesDir with (String "/" "var/lib/solbuild/images").
  rewrite Join_abs; [reflexivity | | discriminate].
  apply plainElement_suffixed; [assumption | reflexivity | simpl; lia].
Qed.

Lemma ImagePathXZ_plain (name : string) :
  hasSeparator name = false ->
  Img.ImagePathXZ (NewBackingImage name)
  = (ImagesDir ++ "/" ++ name ++ ImageCompressedSuffix)%string.
Proof.
  intros H; unfold NewBackingImage, Img.ImagePathXZ.
  change ImagesDir with (String "/" "var/lib/solbuild/images").
  rewrite Join_abs; [reflexivity | | discriminate].
  apply plainElement_suffixed; [assumption | reflexivity | simpl; lia].
Qed.

Lemma RootDir_plain (name : string) :
  plainElement name = true ->
  Img.RootDir (NewBackingImage name) = (ImageRootsDir ++ "/" ++ name)%string.
Proof.
  intros H; unfold NewBackingImage, Img.RootDir.
  change ImageRootsDir with (String "/" "var/lib/solbuild/roots").
  rewrite Join_abs; [reflexivity | assumption | discriminate].
Qed.

Example Clean_examples :
  Filepath.Clean "/var/lib/solbuild/images/./a.img"
    = "/var/lib/solbuild/images/a.img" /\
  Filepath.Clean "a/../../b//c/." = "../b/c" /\
  Filepath.Clean "/../a/b/../" = "/a" /\
  Filepath.Clean "../../a/../.." = "../../.." /\
  Filepath.Clean "" = "." /\
  Filepath.Join [""; "a"; ""; "b"] = "a/b".
Proof. repeat split; reflexivity. Qed.

Example Dir_Base_examples :
  Filepath.Dir "/a/b/c.yml" = "/a/b" /\ Filepath.Dir "c.yml" = "." /\
  Filepath.Dir "/c" = "/" /\
  Filepath.Base "/a/b/c.yml" = "c.yml" /\ Filepath.Base "a/b//" = "b" /\
  Filepath.Base "//" = "/" /\ Filepath.Base "" = "." /\
  TrimSpace "  a b  " = "a b".
Proof. repeat split; reflexivity. Qed.

(** No-break space (C2 A0), ideographic space (E3 80 80) and line
    separator (E2 80 A8) are trimmed like the space; a lone C2 is not. *)
Example TrimSpace_examples :
  TrimSpace (String "194" (String "160" "")) = "" /\
  TrimSpace ("main-x86_64" ++ String "194" (String "160" "")) = "main-x86_64" /\
  TrimSpace (String "227" (String "128" (String "128" " a b"))
               ++ String "226" (String "128" (String "168" (String "009" ""))))
  = "a b" /\
  TrimSpace (String "194" " ") = String "194" "" /\
  TrimSpace (String "010" (String "013" "")) = "".
Proof. repeat split; reflexivity. Qed.

(** ** C8: the paths of a backing image *)

(** C8, as the code has it.  The fields of a backing image are functions of
    the profile name alone: the same name gives the same image.  For two
    different names the origin URI differs; the image path and the path of
    the compressed archive differ when neither name contains a path
    separator; the root directory differs when both names are plain path
    elements (no separator, and none of the empty name, [.] and [..]). *)
Theorem BackingImage_paths (n1 n2 : string) :
  (n1 = n2 -> NewBackingImage n1 = NewBackingImage n2) /\
  (n1 <> n2 ->
   Img.ImageURI (NewBackingImage n1) <> Img.ImageURI (NewBackingImage n2) /\
   (hasSeparator n1 = false -> hasSeparator n2 = false ->
    Img.ImagePath (NewBackingImage n1) <> Img.ImagePath (NewBackingImage n2) /\
    Img.ImagePathXZ (NewBackingImage n1)
      <> Img.ImagePathXZ (NewBackingImage n2)) /\
   (plainElement n1 = true -> plainElement n2 = true ->
    Img.RootDir (NewBackingImage n1) <> Img.RootDir (NewBackingImage n2))).
Proof.
  split; [intros ->; reflexivity|].
  intros Hne; repeat split.
  - unfold NewBackingImage, Img.ImageURI; intros H.
    apply append_inv_head in H; apply append_inv_head in H.
    apply append_inv_tail in H; contradiction.
  - rewrite !ImagePath_plain by assumption; intros E.
    apply append_inv_head in E; apply append_inv_head in E.
    apply append_inv_tail in E; contradiction.
  - rewrite !ImagePathXZ_plain by assumption; intros E.
    apply append_inv_head in E; apply append_inv_head in E.
    apply append_inv_tail in E; contradiction.
  - intros H1 H2; rewrite !RootDir_plain by assumption; intros E.
    apply append_inv_head in E; apply append_inv_head in E; contradiction.
Qed.

Lemma BackingImage_paths_witness :
  Img.ImageURI (NewBackingImage "main-x86_64")
    <> Img.ImageURI (NewBackingImage "unstable-x86_64") /\
  Img.ImagePath (NewBackingImage "main-x86_64")
    <> Img.ImagePath (NewBackingImage "unstable-x86_64") /\
  Img.ImagePathXZ (NewBackingImage "main-x86_64")
    <> Img.ImagePathXZ (NewBackingImage "unstable-x86_64") /\
  Img.RootDir (NewBackingImage "main-x86_64")
    <> Img.RootDir (NewBackingImage "unstable-x86_64").
Proof.
  destruct (BackingImage_paths "main-x86_64" "unstable-x86_64") as [_ H].
  destruct (H ltac:(discriminate)) as [Huri [Hpath Hroot]].
  destruct (Hpath eq_refl eq_refl) as [Himg Hxz].
  repeat split; [exact Huri | exact Himg | exact Hxz |].
  exact (Hroot eq_refl eq_refl).
Defined.

(** C8, as the claim has it, fails: [filepath.Join] cleans what it joins,
    so the two names [a] and [./a] share three of the four paths. *)
Lemma BackingImage_paths_shared :
  "a" <> "./a" /\
  Img.ImagePath (NewBackingImage "a") = Img.ImagePath (NewBackingImage "./a") /\
  Img.ImagePathXZ (NewBackingImage "a")
    = Img.ImagePathXZ (NewBackingImage "./a") /\
  Img.RootDir (NewBackingImage "a") = Img.RootDir (NewBackingImage "./a").
Proof. repeat split; [discriminate | reflexivity ..]. Qed.

(** ** C6: work and source directories *)

Lemma GetWorkDirInternal_nonempty (home : string) (p : Package) :
  exists c t, GetWorkDirInternal home p = String c t.
Proof.
  unfold GetWorkDirInternal.
  destruct (PackageType_eqb _ _); [eexists _, _; reflexivity|].
  destruct (Filepath.Join [home; "work"]) as [|c t] eqn:E; [|eauto].
  exfalso; revert E; apply Join_nonempty.
  apply Exists_cons_tl, Exists_cons_hd; discriminate.
Qed.

Lemma GetSourceDirInternal_nonempty (home : string) (p : Package) :
  exists c t, GetSourceDirInternal home p = String c t.
Proof.
  unfold GetSourceDirInternal.
  destruct (PackageType_eqb _ _); [eexists _, _; reflexivity|].
  destruct (Filepath.Join [home; "YPKG"; "sources"]) as [|c t] eqn:E; [|eauto].
  exfalso; revert E; apply Join_nonempty.
  apply Exists_cons_tl, Exists_cons_hd; discriminate.
Qed.

Lemma GetWorkDir_defined (home : string) (p : Package) (o : Overlay) :
  exists d, GetWorkDir home p o = Some d.
Proof.
  unfold GetWorkDir.
  destruct (GetWorkDirInternal_nonempty home p) as (c & t & ->); simpl; eauto.
Qed.

Lemma GetSourceDir_defined (home : string) (p : Package) (o : Overlay) :
  exists d, GetSourceDir home p o = Some d.
Proof.
  unfold GetSourceDir.
  destruct (GetSourceDirInternal_nonempty home p) as (c & t & ->); simpl; eauto.
Qed.

(** C6.  The internal work and source directories depend on the format
    alone and the external ones on the format and the mount point alone.
    Legacy: [/WORK] and [/var/cache/eopkg/archives].  Modern: [work] and
    [YPKG/sources] joined to the home of the build user, which are
    directories below that home when it is a clean absolute path.  An
    external path is the internal one, without its first character, joined
    to the mount point of the overlay; taking it never panics. *)
Theorem work_and_source_dirs (home : string) (p p' : Package) (o o' : Overlay) :
  (Type_ p = PackageTypeXML ->
   GetWorkDirInternal home p = "/WORK" /\
   GetSourceDirInternal home p = "/var/cache/eopkg/archives" /\
   GetWorkDir home p o = Some (Filepath.Join [MountPoint o; "WORK"]) /\
   GetSourceDir home p o
   = Some (Filepath.Join [MountPoint o; "var/cache/eopkg/archives"])) /\
  (Type_ p = PackageTypeYpkg ->
   GetWorkDirInternal home p = Filepath.Join [home; "work"] /\
   GetSourceDirInternal home p = Filepath.Join [home; "YPKG"; "sources"] /\
   (cleanAbsolute home ->
    GetWorkDirInternal home p = (home ++ "/work")%string /\
    GetSourceDirInternal home p = (home ++ "/YPKG/sources")%string)) /\
  (exists c t c' t',
     GetWorkDirInternal home p = String c t /\
     GetWorkDir home p o = Some (Filepath.Join [MountPoint o; t]) /\
     GetSourceDirInternal home p = String c' t' /\
     GetSourceDir home p o = Some (Filepath.Join [MountPoint o; t'])) /\
  (Type_ p' = Type_ p ->
   GetWorkDirInternal home p' = GetWorkDirInternal home p /\
   GetSourceDirInternal home p' = GetSourceDirInternal home p /\
   (MountPoint o' = MountPoint o ->
    GetWorkDir home p' o' = GetWorkDir home p o /\
    GetSourceDir home p' o' = GetSourceDir home p o)).
Proof.
  split; [|split; [|split]].
  - intros Ht; unfold GetWorkDir, GetSourceDir, GetWorkDirInternal,
      GetSourceDirInternal; rewrite Ht; simpl; auto.
  - intros Ht; unfold GetWorkDirInternal, GetSourceDirInternal; rewrite Ht.
    cbn [PackageType_eqb].
    split; [reflexivity | split; [reflexivity|]].
    intros (Hclean & Hroot & rest & ->); split.
    + rewrite Join_abs; [rewrite Hclean; reflexivity | reflexivity |].
      rewrite Hclean; assumption.
    + change (Filepath.Join [String "/" rest; "YPKG"; "sources"])
        with (Filepath.Clean
                (String "/" rest ++ ("/" ++ "YPKG") ++ "/" ++ "sources")).
      rewrite <- append_assoc.
      change (String "/" rest ++ "/" ++ "YPKG")%string
        with (String "/" (rest ++ "/" ++ "YPKG")).
      rewrite Clean_snoc; [| reflexivity |].
      * change (String "/" (rest ++ "/" ++ "YPKG"))
          with (String "/" rest ++ "/" ++ "YPKG")%string.
        rewrite Clean_snoc; [| reflexivity | rewrite Hclean; assumption].
        rewrite Hclean, !append_assoc; reflexivity.
      * change (String "/" (rest ++ "/" ++ "YPKG"))
          with (String "/" rest ++ "/" ++ "YPKG")%string.
        apply Clean_snoc_not_root; reflexivity.
  - destruct (GetWorkDirInternal_nonempty home p) as (c & t & Hw).
    destruct (GetSourceDirInternal_nonempty home p) as (c' & t' & Hs).
    exists c, t, c', t'; unfold GetWorkDir, GetSourceDir.
    rewrite Hw, Hs; simpl; auto.
  - intros Ht.
    assert (Hw : GetWorkDirInternal home p' = GetWorkDirInternal home p)
      by (unfold GetWorkDirInternal; rewrite Ht; reflexivity).
    assert (Hs : GetSourceDirInternal home p' = GetSourceDirInternal home p)
      by (unfold GetSourceDirInternal; rewrite Ht; reflexivity).
    split; [assumption | split; [assumption|]].
    intros Hm; unfold GetWorkDir, GetSourceDir; rewrite Hw, Hs, Hm; auto.
Qed.

Lemma work_and_source_dirs_witness :
  GetWorkDirInternal "/home/build" (Sim.nano PackageTypeXML) = "/WORK" /\
  GetWorkDir "/home/build" (Sim.nano PackageTypeXML)
    (Sim.overlayOf (NewBackingImage "main-x86_64") (Sim.nano PackageTypeXML))
  = Some "/var/cache/solbuild/main-x86_64/nano/union/WORK" /\
  GetWorkDirInternal "/home/build" (Sim.nano PackageTypeYpkg)
  = "/home/build/work" /\
  GetSourceDirInternal "/home/build" (Sim.nano PackageTypeYpkg)
  = "/home/build/YPKG/sources".
Proof.
  pose proof (work_and_source_dirs "/home/build" (Sim.nano PackageTypeXML)
                (Sim.nano PackageTypeXML)
                (Sim.overlayOf (NewBackingImage "main-x86_64")
                   (Sim.nano PackageTypeXML))
                (Sim.overlayOf (NewBackingImage "main-x86_64")
                   (Sim.nano PackageTypeXML))) as [Hx _].
  pose proof (work_and_source_dirs "/home/build" (Sim.nano PackageTypeYpkg)
                (Sim.nano PackageTypeYpkg)
                (Sim.overlayOf (NewBackingImage "main-x86_64")
                   (Sim.nano PackageTypeYpkg))
                (Sim.overlayOf (NewBackingImage "main-x86_64")
                   (Sim.nano PackageTypeYpkg))) as [_ [Hy _]].
  destruct (Hx eq_refl) as (H1 & _ & H2 & _).
  destruct (Hy eq_refl) as (_ & _ & H3).
  assert (Hc : cleanAbsolute "/home/build").
  { split; [reflexivity | split; [discriminate | eexists; reflexivity]]. }
  destruct (H3 Hc) as [H4 H5].
  split; [exact H1 | split; [exact H2 | split; [exact H4 | exact H5]]].
Defined.

(** ** Reasoning about computations *)

Section Reasoning.

Variable W : Type.
Variable env : Env W.

Lemma bind_val (A B : Type) (m : M W A) (k : A -> M W B) (w w1 : W)
  (a : A) (t1 : list Event) :
  m w = (Val a, w1, t1) ->
  bind m k w = (result (k a w1), world (k a w1), t1 ++ trace (k a w1)).
Proof.
  intros H; unfold bind; rewrite H.
  destruct (k a w1) as [[r w2] t2]; reflexivity.
Qed.

Lemma bind_panic (A B : Type) (m : M W A) (k : A -> M W B) (w w1 : W)
  (msg : string) (t1 : list Event) :
  m w = (Panic msg, w1, t1) -> bind m k w = (Panic msg, w1, t1).
Proof. intros H; unfold bind; rewrite H; reflexivity. Qed.

Lemma total_ret (A : Type) (a : A) : total (ret (W:=W) a).
Proof. intros w; exists a; reflexivity. Qed.

Lemma total_emit (e : Event) : total (emit (W:=W) e).
Proof. intros w; exists tt; reflexivity. Qed.

Lemma total_logf l msg fields : total (logf (W:=W) l msg fields).
Proof. apply total_emit. Qed.

Lemma total_stderr text : total (stderr (W:=W) text).
Proof. apply total_emit. Qed.

Lemma total_quiet (e : error) : total (quiet (W:=W) e).
Proof. apply total_ret. Qed.

Lemma total_call (c : Call) : total (call env c).
Proof.
  intros w; unfold call; destruct (exec env c w) as [r w'].
  exists r; reflexivity.
Qed.

Lemma total_PathExists (path : string) : total (PathExists env path).
Proof.
  intros w; unfold PathExists; destruct (osStat env path w) as [st err].
  eexists; reflexivity.
Qed.

Lemma total_Source_IsFetched (s : Source) (h : string) :
  total (Source_IsFetched env s h).
Proof. intros w; eexists; reflexivity. Qed.

Lemma total_bind (A B : Type) (m : M W A) (k : A -> M W B) :
  total m -> (forall a, total (k a)) -> total (bind m k).
Proof.
  intros Hm Hk w; destruct (Hm w) as [a Ha].
  destruct (m w) as [[r w1] t1] eqn:E; unfold result in Ha; simpl in Ha; subst r.
  rewrite (bind_val m k w E); apply Hk.
Qed.

Lemma total_orReturn (c : M W (option error)) (h : error -> M W unit)
  (k : M W (option error)) :
  total c -> (forall err, total (h err)) -> total k -> total (orReturn c h k).
Proof.
  intros Hc Hh Hk; apply total_bind; [assumption|].
  intros [err|]; [|assumption].
  apply total_bind; [apply Hh | intros _; apply total_ret].
Qed.

Lemma total_forRange (A : Type) (body : A -> M W Flow) (l : list A)
  (after : M W (option error)) :
  (forall x, total (body x)) -> total after -> total (forRange body l after).
Proof.
  intros Hb Ha; induction l as [|x l IH]; simpl; [assumption|].
  apply total_bind; [apply Hb|].
  intros [|err]; [assumption | apply total_ret].
Qed.

Lemma total_fromSlice (s : option string) :
  (exists d, s = Some d) -> total (fromSlice (W:=W) s).
Proof. intros [d ->]; apply total_ret. Qed.

Lemma total_withDefer (A : Type) (c : Closure) (body : M W A) :
  total body -> total (withDefer env c body).
Proof.
  intros Hb w; unfold withDefer.
  assert (H : total (bind (emit (EvDefer c)) (fun _ => body)))
    by (apply total_bind; [apply total_emit | intros _; exact Hb]).
  destruct (H w) as [a Ha].
  destruct (bind _ _ w) as [[r w1] t1]; unfold result in Ha; simpl in Ha; subst r.
  destruct (call env (Invoke c) w1) as [[r2 w2] t2].
  exists a; reflexivity.
Qed.

Lemma failing_ret (err : error) : failing (ret (W:=W) (Some err)).
Proof. intros w; exists err; reflexivity. Qed.

Lemma failing_bind (A : Type) (m : M W A) (k : A -> M W (option error)) :
  total m -> (forall a, failing (k a)) -> failing (bind m k).
Proof.
  intros Hm Hk w; destruct (Hm w) as [a Ha].
  destruct (m w) as [[r w1] t1] eqn:E; unfold result in Ha; simpl in Ha; subst r.
  rewrite (bind_val m k w E); apply Hk.
Qed.

Lemma failing_orReturn (c : M W (option error)) (h : error -> M W unit)
  (k : M W (option error)) :
  total c -> (forall err, total (h err)) -> failing k ->
  failing (orReturn c h k).
Proof.
  intros Hc Hh Hk; apply failing_bind; [assumption|].
  intros [err|]; [|assumption].
  apply failing_bind; [apply Hh | intros _; apply failing_ret].
Qed.

Lemma failing_withDefer (c : Closure) (body : M W (option error)) :
  failing body -> failing (withDefer env c body).
Proof.
  intros Hb w; unfold withDefer.
  assert (H : failing (bind (emit (EvDefer c)) (fun _ => body)))
    by (apply failing_bind; [apply total_emit | intros _; exact Hb]).
  destruct (H w) as [a Ha].
  destruct (bind _ _ w) as [[r w1] t1]; unfold result in Ha; simpl in Ha; subst r.
  destruct (call env (Invoke c) w1) as [[r2 w2] t2].
  exists a; reflexivity.
Qed.

(** The events of a computation, piece by piece. *)

Lemma emits_ret (A : Type) (P : Event -> Prop) (a : A) : emits P (ret (W:=W) a).
Proof. intros w; constructor. Qed.

Lemma emits_emit (P : Event -> Prop) (e : Event) :
  P e -> emits P (emit (W:=W) e).
Proof. intros H w; repeat constructor; assumption. Qed.

Lemma emits_call (P : Event -> Prop) (c : Call) :
  P (EvCall c) -> emits P (call env c).
Proof.
  intros H w; unfold call; destruct (exec env c w).
  repeat constructor; assumption.
Qed.

Lemma emits_PathExists (P : Event -> Prop) (path : string) :
  P (EvQuery (QStat path)) -> emits P (PathExists env path).
Proof.
  intros H w; unfold PathExists; destruct (osStat env path w).
  repeat constructor; assumption.
Qed.

Lemma emits_Source_IsFetched (P : Event -> Prop) (s : Source) (h : string) :
  P (EvQuery (QIsFetched s h)) -> emits P (Source_IsFetched env s h).
Proof. intros H w; repeat constructor; assumption. Qed.

Lemma emits_fromSlice (P : Event -> Prop) (s : option string) :
  emits P (fromSlice (W:=W) s).
Proof. intros w; destruct s; constructor. Qed.

Lemma emits_bind (A B : Type) (P : Event -> Prop) (m : M W A)
  (k : A -> M W B) :
  emits P m -> (forall a, emits P (k a)) -> emits P (bind m k).
Proof.
  intros Hm Hk w; specialize (Hm w).
  destruct (m w) as [[[a|msg] w1] t1] eqn:E; unfold trace in Hm; simpl in Hm.
  - rewrite (bind_val m k w E); unfold trace at 1; simpl.
    apply Forall_app; split; [assumption | apply Hk].
  - rewrite (bind_panic m k w E); assumption.
Qed.

Lemma emits_orReturn (P : Event -> Prop) (c : M W (option error))
  (h : error -> M W unit) (k : M W (option error)) :
  emits P c -> (forall err, emits P (h err)) -> emits P k ->
  emits P (orReturn c h k).
Proof.
  intros Hc Hh Hk; apply emits_bind; [assumption|].
  intros [err|]; [|assumption].
  apply emits_bind; [apply Hh | intros _; apply emits_ret].
Qed.

Lemma emits_forRange (A : Type) (P : Event -> Prop) (body : A -> M W Flow)
  (l : list A) (after : M W (option error)) :
  (forall x, In x l -> emits P (body x)) -> emits P after ->
  emits P (forRange body l after).
Proof.
  intros Hb Ha; induction l as [|x l IH]; simpl; [assumption|].
  apply emits_bind; [apply Hb; left; reflexivity|].
  intros [|err]; [|apply emits_ret].
  apply IH; intros y Hy; apply Hb; right; assumption.
Qed.

End Reasoning.

Create HintDb builder.
Create HintDb events.

#[local] Hint Resolve total_ret total_emit total_logf total_stderr total_quiet
  total_call total_PathExists total_Source_IsFetched total_bind
  total_orReturn total_forRange total_withDefer failing_ret failing_bind
  failing_orReturn failing_withDefer : builder.

#[local] Hint Resolve emits_ret emits_fromSlice emits_bind emits_orReturn
  : events.

(** One step of a proof that a computation does not panic, or that it
    returns an error. *)
Ltac run_step :=
  first
    [ apply total_ret | apply total_logf | apply total_stderr
    | apply total_emit | apply total_quiet | apply total_call
    | apply total_PathExists | apply total_Source_IsFetched
    | apply total_orReturn | apply total_bind | apply total_withDefer
    | apply failing_ret | apply failing_orReturn | apply failing_bind
    | apply failing_withDefer
    | intros [?|] | intros [|?] | intro ].

(** ** C9: what [Build] returns *)

Section BuildReturns.

Variable W : Type.
Variable env : Env W.
Variable BuildUser : string.
Variable BuildUserHome : string.

Lemma total_FetchSources (p : Package) (o : Overlay) :
  total (FetchSources env p o).
Proof.
  apply total_forRange; [|apply total_ret].
  intros source; unfold fetchSource.
  apply total_bind; [apply total_Source_IsFetched|].
  intros [|]; repeat run_step.
Qed.

Lemma total_BindSources (p : Package) (o : Overlay) :
  total (BindSources env BuildUserHome p o).
Proof.
  apply total_forRange; [|apply total_ret].
  intros source; unfold bindSource.
  apply total_bind; [apply total_fromSlice, GetSourceDir_defined|].
  intros sourceDir; apply total_bind; [apply total_PathExists|].
  intros present; apply total_bind.
  - destruct (negb present); repeat run_step.
  - repeat run_step.
Qed.

Lemma total_CopyAssets (p : Package) (o : Overlay) :
  total (CopyAssets env BuildUserHome p o).
Proof.
  unfold CopyAssets; apply total_bind; [intros w; eexists; reflexivity|].
  intros [abs [err|]]; [apply total_ret|].
  apply total_bind; [apply total_fromSlice, GetWorkDir_defined|].
  intros destdir; apply total_forRange; [|apply total_ret].
  intros name; unfold copyAsset; repeat run_step.
Qed.

Lemma failing_buildYpkg (p : Package) (o : Overlay) (pman : EopkgManager)
  (after : M W (option error)) :
  failing after -> failing (buildYpkg env BuildUser BuildUserHome p o pman after).
Proof.
  intros Ha; unfold buildYpkg.
  repeat first [ assumption | apply total_BindSources | run_step ].
Qed.

Lemma failing_buildLegacy (pman : EopkgManager) (after : M W (option error)) :
  failing after -> failing (buildLegacy env pman after).
Proof.
  intros Ha; unfold buildLegacy; repeat first [ assumption | run_step ].
Qed.

(** C9.  [Build] never returns success: whatever the collaborators do, it
    returns an error, at the latest the one that says that collecting the
    results is not implemented. *)
Theorem Build_never_succeeds (p : Package) (img : BackingImage) (w : W) :
  exists err,
    result (Build env BuildUser BuildUserHome p img w) = Val (Some err).
Proof.
  revert w; change (failing (Build env BuildUser BuildUserHome p img)).
  unfold Build.
  apply failing_bind; [apply total_logf | intros _].
  apply failing_orReturn; [apply total_call | apply total_quiet |].
  apply failing_withDefer.
  apply failing_bind; [apply total_call | intros _].
  apply failing_orReturn; [apply total_call | apply total_quiet |].
  apply failing_orReturn; [apply total_CopyAssets | intro; apply total_logf |].
  apply failing_bind; [apply total_logf | intros _].
  apply failing_orReturn; [apply total_FetchSources | apply total_quiet |].
  repeat first
    [ apply failing_orReturn; [apply total_call | intro; run_step |]
    | apply failing_bind; [apply total_logf | intros _] ].
  destruct (PackageType_eqb (Type_ p) PackageTypeYpkg);
    [apply failing_buildYpkg | apply failing_buildLegacy]; apply failing_ret.
Qed.

End BuildReturns.

(** ** Loops *)

Section Loops.

Variable W : Type.
Variable A : Type.
Variable body : A -> M W Flow.
Variable after : M W (option error).

Lemma forRange_continue (x : A) (l : list A) (w w1 : W) (t1 : list Event) :
  body x w = (Val Continue, w1, t1) ->
  forRange body (x :: l) after w = preceded t1 (forRange body l after w1).
Proof.
  intros H; simpl.
  rewrite (bind_val (body x) _ w H); reflexivity.
Qed.

Lemma forRange_return (x : A) (l : list A) (w w1 : W) (t1 : list Event)
  (err : option error) :
  body x w = (Val (Return err), w1, t1) ->
  forRange body (x :: l) after w = (Val err, w1, t1).
Proof.
  intros H; simpl.
  rewrite (bind_val (body x) _ w H); unfold ret, result, world, trace; simpl.
  rewrite app_nil_r; reflexivity.
Qed.

Lemma preceded_app (B : Type) (t1 t2 : list Event) (r : Res B * W * list Event) :
  preceded t1 (preceded t2 r) = preceded (t1 ++ t2) r.
Proof. unfold preceded, result, world, trace; simpl; rewrite app_assoc; reflexivity. Qed.

Lemma preceded_nil (B : Type) (r : Res B * W * list Event) : preceded [] r = r.
Proof. destruct r as [[a w] t]; reflexivity. Qed.

(** The loop gets through [pre] and then does what it does on the rest. *)
Lemma forRange_through (pre post : list A) (w w1 : W) (t1 : list Event) :
  runsThrough body pre w = Some (w1, t1) ->
  forRange body (pre ++ post) after w = preceded t1 (forRange body post after w1).
Proof.
  revert w t1; induction pre as [|x pre IH]; intros w t1 H; simpl in H.
  - injection H as <- <-; symmetry; apply preceded_nil.
  - destruct (body x w) as [[[[|err]|msg] wx] tx] eqn:E; try discriminate.
    destruct (runsThrough body pre wx) as [[w2 t2]|] eqn:R; [|discriminate].
    injection H as <- <-.
    change ((x :: pre) ++ post) with (x :: (pre ++ post)).
    rewrite (forRange_continue _ E), (IH _ _ R), preceded_app; reflexivity.
Qed.

Lemma runsThrough_all (l : list A) (w : W) :
  (forall x w', result (body x w') = Val Continue) ->
  exists w1 t1, runsThrough body l w = Some (w1, t1).
Proof.
  intros H; revert w; induction l as [|x l IH]; intros w; simpl; [eauto|].
  specialize (H x w); destruct (body x w) as [[r wx] tx].
  unfold result in H; simpl in H; subst r.
  destruct (IH wx) as (w1 & t1 & ->); eauto.
Qed.

End Loops.

(** ** C3, C4, C7: fetching and binding sources *)

Section Sources.

Variable W : Type.
Variable env : Env W.
Variable BuildUserHome : string.

(** One turn of the loop of [FetchSources], spelled out. *)
Lemma fetchSource_run (p : Package) (s : Source) (w : W) :
  fetchSource env p s w =
  let h := checksumFor (Type_ p) s in
  if isFetched env s h w then (Val Continue, w, [EvQuery (QIsFetched s h)])
  else
    match exec env (SourceFetch s) w with
    | (Some err, w') =>
        (Val Continue, w',
         [EvQuery (QIsFetched s h);
          EvLog Info "Downloading source" [("uri", FStr (URI s))];
          EvCall (SourceFetch s);
          EvLog Error "Failed to fetch source"
            [("error", FErr err); ("uri", FStr (URI s))]])
    | (None, w') =>
        (Val Continue, w',
         [EvQuery (QIsFetched s h);
          EvLog Info "Downloading source" [("uri", FStr (URI s))];
          EvCall (SourceFetch s)])
    end.
Proof.
  unfold fetchSource, bind, Source_IsFetched, logf, emit, call, ret.
  destruct (Type_ p); simpl;
    (destruct (isFetched env s _ w); [reflexivity|]);
    destruct (exec env (SourceFetch s) w) as [[err|] w']; reflexivity.
Qed.

Lemma fetchSource_continues (p : Package) (s : Source) (w : W) :
  result (fetchSource env p s w) = Val Continue.
Proof.
  rewrite fetchSource_run; cbv zeta.
  destruct (isFetched env s _ w); [reflexivity|].
  destruct (exec env (SourceFetch s) w) as [[err|] w']; reflexivity.
Qed.

Lemma fetch_through (p : Package) (l : list Source) (w : W) :
  exists w1 t1,
    runsThrough (fetchSource env p) l w = Some (w1, t1) /\
    forRange (fetchSource env p) l (ret None) w = (Val None, w1, t1).
Proof.
  destruct (runsThrough_all (fetchSource env p) l w
              (fetchSource_continues p)) as (w1 & t1 & H).
  exists w1, t1; split; [assumption|].
  rewrite <- (app_nil_r l), (@forRange_through _ _ _ (ret None) _ [] _ _ _ H).
  unfold preceded, result, world, trace; simpl; rewrite app_nil_r; reflexivity.
Qed.

Lemma runsThrough_checks (p : Package) (l : list Source) (w w1 : W)
  (t1 : list Event) :
  runsThrough (fetchSource env p) l w = Some (w1, t1) ->
  cacheChecks t1 = map (fun s => (s, checksumFor (Type_ p) s)) l.
Proof.
  revert w w1 t1; induction l as [|s l IH]; intros w w1 t1 H; simpl in H.
  - injection H as _ <-; reflexivity.
  - rewrite fetchSource_run in H; cbv zeta in H.
    destruct (isFetched env s _ w).
    + destruct (runsThrough _ l w) as [[w2 t2]|] eqn:R; [|discriminate].
      injection H as _ <-; simpl; rewrite (IH _ _ _ R); reflexivity.
    + destruct (exec env (SourceFetch s) w) as [[err|] w'];
        (destruct (runsThrough _ l w') as [[w2 t2]|] eqn:R; [|discriminate]);
        injection H as _ <-; simpl; rewrite (IH _ _ _ R); reflexivity.
Qed.

(** C3.  [FetchSources] returns nil whatever the fetches do.  When the
    fetch of a source fails, the failure is logged and the loop goes on
    with the sources behind it, from the world the failed fetch left: each
    of them is still checked against the cache. *)
Theorem FetchSources_goes_on (p : Package) (o : Overlay) (w : W) :
  result (FetchSources env p o w) = Val None /\
  forall pre s post w1 t1 w2 err,
    Sources p = pre ++ s :: post ->
    runsThrough (fetchSource env p) pre w = Some (w1, t1) ->
    isFetched env s (checksumFor (Type_ p) s) w1 = false ->
    exec env (SourceFetch s) w1 = (Some err, w2) ->
    exists w3 t2,
      runsThrough (fetchSource env p) post w2 = Some (w3, t2) /\
      cacheChecks t2 = map (fun s' => (s', checksumFor (Type_ p) s')) post /\
      FetchSources env p o w =
      (Val None, w3,
       t1 ++ [EvQuery (QIsFetched s (checksumFor (Type_ p) s));
              EvLog Info "Downloading source" [("uri", FStr (URI s))];
              EvCall (SourceFetch s);
              EvLog Error "Failed to fetch source"
                [("error", FErr err); ("uri", FStr (URI s))]] ++ t2).
Proof.
  split.
  - unfold FetchSources.
    destruct (fetch_through p (Sources p) w) as (w1 & t1 & _ & ->); reflexivity.
  - intros pre s post w1 t1 w2 err Hs Hpre Hmiss Hfetch.
    destruct (fetch_through p post w2) as (w3 & t2 & Hpost & Hrun).
    exists w3, t2; split; [assumption|].
    split; [exact (@runsThrough_checks _ _ _ _ _ Hpost)|].
    unfold FetchSources.
    rewrite Hs, (@forRange_through _ _ _ (ret None) _ (s :: post) _ _ _ Hpre).
    assert (Hbody : fetchSource env p s w1 =
                    (Val Continue, w2,
                     [EvQuery (QIsFetched s (checksumFor (Type_ p) s));
                      EvLog Info "Downloading source" [("uri", FStr (URI s))];
                      EvCall (SourceFetch s);
                      EvLog Error "Failed to fetch source"
                        [("error", FErr err); ("uri", FStr (URI s))]]))
      by (rewrite fetchSource_run; cbv zeta; rewrite Hmiss, Hfetch; reflexivity).
    rewrite (@forRange_continue _ _ _ (ret None) _ post _ _ _ Hbody), Hrun.
    reflexivity.
Qed.

Lemma fetched_on_miss (p : Package) (l : list Source) (w : W) (s : Source) :
  In (EvCall (SourceFetch s))
     (trace (forRange (fetchSource env p) l (ret None) w)) ->
  exists pre post w1 t1,
    l = pre ++ s :: post /\
    runsThrough (fetchSource env p) pre w = Some (w1, t1) /\
    isFetched env s (checksumFor (Type_ p) s) w1 = false.
Proof.
  revert w; induction l as [|x l IH]; intros w H; [contradiction|].
  pose proof (fetchSource_run p x w) as Hx; cbv zeta in Hx.
  assert (Hrest : forall wx tx,
             fetchSource env p x w = (Val Continue, wx, tx) ->
             In (EvCall (SourceFetch s))
                (trace (forRange (fetchSource env p) l (ret None) wx)) ->
             exists pre post w1 t1,
               x :: l = pre ++ s :: post /\
               runsThrough (fetchSource env p) pre w = Some (w1, t1) /\
               isFetched env s (checksumFor (Type_ p) s) w1 = false).
  { intros wx tx Ex Hin.
    destruct (IH wx Hin) as (pre & post & w1 & t1 & -> & Hpre & Hmiss).
    exists (x :: pre), post, w1, (tx ++ t1); split; [reflexivity|].
    split; [|assumption].
    simpl; rewrite Ex, Hpre; reflexivity. }
  assert (Hhere : isFetched env x (checksumFor (Type_ p) x) w = false ->
                  s = x ->
                  exists pre post w1 t1,
                    x :: l = pre ++ s :: post /\
                    runsThrough (fetchSource env p) pre w = Some (w1, t1) /\
                    isFetched env s (checksumFor (Type_ p) s) w1 = false).
  { intros Hmiss ->; exists [], l, w, []; auto. }
  destruct (isFetched env x (checksumFor (Type_ p) x) w) eqn:Hc.
  - rewrite (@forRange_continue _ _ _ (ret None) _ l _ _ _ Hx) in H.
    unfold preceded, trace in H; simpl in H.
    destruct H as [H|H]; [discriminate|].
    exact (Hrest _ _ Hx H).
  - destruct (exec env (SourceFetch x) w) as [[err|] w'];
      rewrite (@forRange_continue _ _ _ (ret None) _ l _ _ _ Hx) in H;
      unfold preceded, trace in H; simpl in H;
      destruct H as [H|[H|[H|H]]]; try discriminate;
      try (injection H as H; exact (Hhere eq_refl (eq_sym H)));
      try exact (Hrest _ _ Hx H).
    destruct H as [H|H]; [discriminate | exact (Hrest _ _ Hx H)].
Qed.

(** C7.  When the loop of [FetchSources] comes to a source whose cached
    file passes the check against the checksum of the format, it does
    nothing but that check for it: no fetch, and the world is left as it
    was, whatever the age of the file.  A source is fetched only when the
    check failed for it. *)
Theorem FetchSources_skips_cached (p : Package) (o : Overlay) (w : W) :
  (forall pre s post w1 t1,
     Sources p = pre ++ s :: post ->
     runsThrough (fetchSource env p) pre w = Some (w1, t1) ->
     isFetched env s (checksumFor (Type_ p) s) w1 = true ->
     fetchSource env p s w1
     = (Val Continue, w1, [EvQuery (QIsFetched s (checksumFor (Type_ p) s))]) /\
     exists w3 t2,
       runsThrough (fetchSource env p) post w1 = Some (w3, t2) /\
       FetchSources env p o w =
       (Val None, w3,
        t1 ++ [EvQuery (QIsFetched s (checksumFor (Type_ p) s))] ++ t2)) /\
  (forall s,
     In (EvCall (SourceFetch s)) (trace (FetchSources env p o w)) ->
     exists pre post w1 t1,
       Sources p = pre ++ s :: post /\
       runsThrough (fetchSource env p) pre w = Some (w1, t1) /\
       isFetched env s (checksumFor (Type_ p) s) w1 = false).
Proof.
  split.
  - intros pre s post w1 t1 Hs Hpre Hhit.
    assert (Hbody : fetchSource env p s w1 =
                    (Val Continue, w1,
                     [EvQuery (QIsFetched s (checksumFor (Type_ p) s))]))
      by (rewrite fetchSource_run; cbv zeta; rewrite Hhit; reflexivity).
    split; [assumption|].
    destruct (fetch_through p post w1) as (w3 & t2 & Hpost & Hrun).
    exists w3, t2; split; [assumption|].
    unfold FetchSources.
    rewrite Hs, (@forRange_through _ _ _ (ret None) _ (s :: post) _ _ _ Hpre).
    rewrite (@forRange_continue _ _ _ (ret None) _ post _ _ _ Hbody), Hrun.
    reflexivity.
  - intros s; apply fetched_on_miss.
Qed.

Lemma expHash_checksumFor (t : PackageType) (s : Source) :
  (if PackageType_eqb t PackageTypeXML then SHA1Sum s else SHA256Sum s)
  = checksumFor t s.
Proof. destruct t; reflexivity. Qed.

Lemma bindSource_mounts (p : Package) (o : Overlay) (s : Source) :
  emits (mountsCached env p s) (bindSource env BuildUserHome p o s).
Proof.
  unfold bindSource; rewrite expHash_checksumFor.
  apply emits_bind; [apply emits_fromSlice | intros sourceDir].
  apply emits_bind;
    [apply emits_PathExists; intros ? ? E; discriminate | intros present].
  apply emits_bind.
  { destruct (negb present);
      [apply emits_call; intros ? ? E; discriminate | apply emits_ret]. }
  assert (Hlog : forall l msg fields,
             emits (mountsCached env p s) (logf (W:=W) l msg fields))
    by (intros; apply emits_emit; intros ? ? E; discriminate).
  intros [err|].
  { apply emits_bind; [apply Hlog | intros; apply emits_ret]. }
  apply emits_bind; [apply Hlog | intros _].
  apply emits_bind; [apply emits_call; intros ? ? E; discriminate|].
  intros [err|].
  { apply emits_bind; [apply Hlog | intros; apply emits_ret]. }
  apply emits_bind.
  { apply emits_call; intros src tgt E; injection E as <- _; reflexivity. }
  intros [err|]; [|apply emits_ret].
  apply emits_bind; [apply Hlog | intros; apply emits_ret].
Qed.

(** C4.  The checksum that validates and locates the cached file of a
    source is the one of the format of the package, SHA-1 for the legacy
    format and SHA-256 for the modern one: [FetchSources] checks every
    source against it, in order, and whatever [BindSources] mounts is the
    cached file it names. *)
Theorem checksum_by_format (p : Package) (o : Overlay) (w : W) :
  cacheChecks (trace (FetchSources env p o w))
  = map (fun s => (s, match Type_ p with
                      | PackageTypeXML => SHA1Sum s
                      | PackageTypeYpkg => SHA256Sum s
                      end)) (Sources p) /\
  forall src tgt,
    In (EvCall (BindMount src tgt))
       (trace (BindSources env BuildUserHome p o w)) ->
    exists s,
      In s (Sources p) /\
      src = getPath env s (match Type_ p with
                           | PackageTypeXML => SHA1Sum s
                           | PackageTypeYpkg => SHA256Sum s
                           end).
Proof.
  split.
  - unfold FetchSources.
    destruct (fetch_through p (Sources p) w) as (w1 & t1 & Hthrough & ->).
    exact (@runsThrough_checks _ _ _ _ _ Hthrough).
  - intros src tgt Hin.
    assert (H : emits (fun ev => forall src tgt,
                           ev = EvCall (BindMount src tgt) ->
                           exists s, In s (Sources p) /\
                                     src = getPath env s (checksumFor (Type_ p) s))
                  (BindSources env BuildUserHome p o)).
    { apply emits_forRange; [|apply emits_ret].
      intros s Hs w'.
      eapply Forall_impl; [|apply bindSource_mounts].
      intros ev Hev src' tgt' E; exists s; split; [assumption|].
      exact (Hev _ _ E). }
    pose proof (proj1 (Forall_forall _ _) (H w) _ Hin _ _ eq_refl) as Hs.
    exact Hs.
Qed.

End Sources.

(** ** C10: a bind-mount target that cannot be created *)

Section BindSourcesTheory.

Variable W : Type.
Variable env : Env W.
Variable BuildUserHome : string.

Lemma PathExists_run (path : string) (w : W) :
  PathExists env path w = (Val (existsAt env path w), w, [EvQuery (QStat path)]).
Proof.
  unfold PathExists, existsAt; destruct (osStat env path w) as [st [err|]];
    reflexivity.
Qed.

(** C10.  When the loop of [BindSources] comes to a source, the source
    directory is there or has just been made, and creating the bind-mount
    target of the source fails, [BindSources] returns nil at once: the
    error is logged and that is the last event, so the source is not
    bind-mounted and nothing is done for the sources behind it. *)
Theorem BindSources_touch_failure (p : Package) (o : Overlay) (w : W)
  (pre post : list Source) (s : Source) (w1 w2 w3 : W)
  (t1 mk : list Event) (dir : string) (err : error) :
  Sources p = pre ++ s :: post ->
  runsThrough (bindSource env BuildUserHome p o) pre w = Some (w1, t1) ->
  GetSourceDir BuildUserHome p o = Some dir ->
  (existsAt env dir w1 = true /\ w2 = w1 /\ mk = []) \/
  (existsAt env dir w1 = false /\
   exec env (MkdirAll dir 493) w1 = (None, w2) /\
   mk = [EvCall (MkdirAll dir 493)]) ->
  exec env (TouchFile (Filepath.Join [dir; File s])) w2 = (Some err, w3) ->
  BindSources env BuildUserHome p o w =
  (Val None, w3,
   t1 ++ [EvQuery (QStat dir)] ++ mk ++
   [EvLog Debug "Exposing source to container"
      [("target", FStr (Filepath.Join [dir; File s]))];
    EvCall (TouchFile (Filepath.Join [dir; File s]));
    EvLog Error "Failed to create bind mount target"
      [("target", FStr (Filepath.Join [dir; File s])); ("error", FErr err)]]).
Proof.
  intros Hs Hpre Hdir Hmk Htouch.
  unfold BindSources.
  rewrite Hs, (@forRange_through _ _ _ (ret None) _ (s :: post) _ _ _ Hpre).
  assert (Hbody :
            bindSource env BuildUserHome p o s w1 =
            (Val (Return None), w3,
             [EvQuery (QStat dir)] ++ mk ++
             [EvLog Debug "Exposing source to container"
                [("target", FStr (Filepath.Join [dir; File s]))];
              EvCall (TouchFile (Filepath.Join [dir; File s]));
              EvLog Error "Failed to create bind mount target"
                [("target", FStr (Filepath.Join [dir; File s]));
                 ("error", FErr err)]])).
  { unfold bindSource; rewrite Hdir.
    unfold fromSlice, bind, ret, logf, emit, call.
    rewrite PathExists_run.
    destruct Hmk as [(Hex & -> & ->) | (Hex & Hmkdir & ->)]; rewrite Hex;
      cbn -[Filepath.Join].
    - rewrite Htouch; reflexivity.
    - rewrite Hmkdir, Htouch; reflexivity. }
  rewrite (@forRange_return _ _ _ (ret None) _ post _ _ _ _ Hbody).
  reflexivity.
Qed.

End BindSourcesTheory.

(** ** The events of the parts of [Build] *)

(** One step of a proof that every event of a computation satisfies a
    property that is decided by computation. *)
Ltac emits_step :=
  first
    [ apply emits_ret | apply emits_fromSlice
    | apply emits_PathExists | apply emits_Source_IsFetched
    | apply emits_call | apply emits_emit
    | apply emits_orReturn | apply emits_bind
    | match goal with
      | |- forall _ : option _, _ => intros [?|]
      | |- forall _, _ => intro
      end
    | reflexivity ].

Section Events.

Variable W : Type.
Variable env : Env W.
Variable BuildUser : string.
Variable BuildUserHome : string.
Variable P : Event -> Prop.

Hypothesis P_query : forall q, P (EvQuery q).
Hypothesis P_log : forall l msg fields, P (EvLog l msg fields).

Lemma emits_logf l msg fields : emits P (logf (W:=W) l msg fields).
Proof. apply emits_emit, P_log. Qed.

Lemma emits_withDefer (A : Type) (c : Closure) (body : M W A) :
  P (EvDefer c) -> P (EvCall (Invoke c)) -> emits P body ->
  emits P (withDefer env c body).
Proof.
  intros Hd Hi Hb w; unfold withDefer.
  assert (H : emits P (bind (emit (EvDefer c)) (fun _ => body)))
    by (apply emits_bind; [apply emits_emit, Hd | intros _; exact Hb]).
  specialize (H w); destruct (bind _ _ w) as [[r w1] t1].
  unfold call; destruct (exec env (Invoke c) w1) as [r2 w2].
  unfold trace in *; simpl in *.
  apply Forall_app; split; [assumption | repeat constructor; assumption].
Qed.

Lemma emits_FetchSources (p : Package) (o : Overlay) :
  (forall s, P (EvCall (SourceFetch s))) -> emits P (FetchSources env p o).
Proof.
  intros Hf; apply emits_forRange; [|apply emits_ret].
  intros s _; unfold fetchSource.
  apply emits_bind; [apply emits_Source_IsFetched, P_query | intros [|]].
  - apply emits_ret.
  - apply emits_bind; [apply emits_logf | intros _].
    apply emits_bind; [apply emits_call, Hf | intros [err|]].
    + apply emits_bind; [apply emits_logf | intros _; apply emits_ret].
    + apply emits_ret.
Qed.

Lemma emits_CopyAssets (p : Package) (o : Overlay) :
  (forall src dst, P (EvCall (CopyAll src dst))) ->
  emits P (CopyAssets env BuildUserHome p o).
Proof.
  intros Hc; unfold CopyAssets; apply emits_bind.
  { intros w; repeat constructor; apply P_query. }
  intros [abs [err|]]; [apply emits_ret|].
  apply emits_bind; [apply emits_fromSlice | intros destdir].
  apply emits_forRange; [|apply emits_ret].
  intros name _; unfold copyAsset.
  apply emits_bind; [apply emits_call, Hc | intros [err|]; apply emits_ret].
Qed.

Lemma emits_BindSources (p : Package) (o : Overlay) :
  (forall dir perm, P (EvCall (MkdirAll dir perm))) ->
  (forall path, P (EvCall (TouchFile path))) ->
  (forall src tgt, P (EvCall (BindMount src tgt))) ->
  emits P (BindSources env BuildUserHome p o).
Proof.
  intros Hm Ht Hb; apply emits_forRange; [|apply emits_ret].
  intros s _; unfold bindSource.
  apply emits_bind; [apply emits_fromSlice | intros sourceDir].
  apply emits_bind; [apply emits_PathExists, P_query | intros present].
  apply emits_bind.
  { destruct (negb present); [apply emits_call, Hm | apply emits_ret]. }
  intros [err|].
  { apply emits_bind; [apply emits_logf | intros; apply emits_ret]. }
  apply emits_bind; [apply emits_logf | intros _].
  apply emits_bind; [apply emits_call, Ht | intros [err|]].
  { apply emits_bind; [apply emits_logf | intros; apply emits_ret]. }
  apply emits_bind; [apply emits_call, Hb | intros [err|]].
  - apply emits_bind; [apply emits_logf | intros; apply emits_ret].
  - apply emits_ret.
Qed.

Lemma emits_buildLegacy (pman : EopkgManager) (after : M W (option error)) :
  P (EvCall (StopDBUS pman)) -> emits P after ->
  emits P (buildLegacy env pman after).
Proof.
  intros Hs Ha; unfold buildLegacy.
  apply emits_bind; [apply emits_logf | intros _].
  apply emits_bind; [apply emits_logf | intros _].
  apply emits_orReturn;
    [apply emits_call, Hs | intros; apply emits_logf | assumption].
Qed.

Lemma emits_buildYpkg (p : Package) (o : Overlay) (pman : EopkgManager)
  (after : M W (option error)) :
  (forall c, aboutReaper (EvCall c) = false -> P (EvCall c)) ->
  emits P after ->
  emits P (buildYpkg env BuildUser BuildUserHome p o pman after).
Proof.
  intros Hc Ha; unfold buildYpkg.
  repeat first
    [ assumption
    | apply emits_logf
    | apply emits_BindSources; intros; apply Hc; reflexivity
    | apply emits_call; apply Hc; reflexivity
    | apply emits_orReturn | apply emits_bind | apply emits_ret
    | match goal with |- forall _, _ => intro end ].
Qed.

End Events.

(** ** C1: the reaper *)

Section Reaper.

Variable W : Type.
Variable env : Env W.
Variable BuildUser : string.
Variable BuildUserHome : string.

Lemma withDefer_run (A : Type) (c : Closure) (body : M W A) (w : W) :
  withDefer env c body w =
  (result (body w), snd (exec env (Invoke c) (world (body w))),
   EvDefer c :: trace (body w) ++ [EvCall (Invoke c)]).
Proof.
  unfold withDefer, bind, emit, call.
  destruct (body w) as [[r w1] t1]; unfold result, world, trace; simpl.
  destruct r; destruct (exec env (Invoke c) w1); reflexivity.
Qed.

Lemma bind_call (B : Type) (c : Call) (k : option error -> M W B) (w : W) :
  bind (call env c) k w =
  preceded [EvCall c] (k (fst (exec env c w)) (snd (exec env c w))).
Proof.
  unfold bind, call; destruct (exec env c w) as [r w1]; simpl.
  destruct (k r w1) as [[r2 w2] t2]; reflexivity.
Qed.

Lemma bind_logf (B : Type) l msg fields (k : unit -> M W B) (w : W) :
  bind (logf l msg fields) k w = preceded [EvLog l msg fields] (k tt w).
Proof.
  unfold bind, logf, emit; destruct (k tt w) as [[r2 w2] t2]; reflexivity.
Qed.

Lemma orReturn_call (c : Call) (h : error -> M W unit)
  (k : M W (option error)) (w : W) :
  orReturn (call env c) h k w =
  preceded [EvCall c]
    (match fst (exec env c w) with
     | Some err => bind (h err) (fun _ => ret (Some err)) (snd (exec env c w))
     | None => k (snd (exec env c w))
     end).
Proof.
  unfold orReturn; rewrite bind_call.
  destruct (fst (exec env c w)); reflexivity.
Qed.

Lemma aboutReaper_rest (p : Package) (o : Overlay) (pman : EopkgManager) :
  emits (fun ev => aboutReaper ev = false)
    (orReturn (CopyAssets env BuildUserHome p o)
       (fun err => logf Error "Failed to copy required source assets"
                     [("error", FErr err)])
       (bind (logf Info "Validating sources" [])
          (fun _ =>
           orReturn (FetchSources env p o) quiet
             (orReturn (call env (PmanInit pman)) quiet
                (bind (logf Debug "Starting D-BUS" [])
                   (fun _ =>
                    orReturn (call env (StartDBUS pman))
                      (fun err => logf Error "Failed to start d-bus"
                                    [("error", FErr err)])
                      (bind (logf Info "Upgrading system base" [])
                         (fun _ =>
                          orReturn (call env (Upgrade pman))
                            (fun err => logf Error "Failed to upgrade rootfs"
                                          [("error", FErr err)])
                            (bind
                               (logf Info
                                  "Asserting system.devel component installation"
                                  [])
                               (fun _ =>
                                orReturn
                                  (call env (InstallComponent pman "system.devel"))
                                  (fun err =>
                                   logf Error "Failed to assert system.devel"
                                     [("error", FErr err)])
                                  (if PackageType_eqb (Type_ p) PackageTypeYpkg
                                   then buildYpkg env BuildUser BuildUserHome p
                                          o pman
                                          (ret (Some ("Not yet implemented" : error)))
                                   else buildLegacy env pman
                                          (ret (Some ("Not yet implemented" : error)))))))))))))).
Proof.
  apply emits_orReturn;
    [apply emits_CopyAssets; reflexivity | intro; apply emits_logf; reflexivity|].
  apply emits_bind; [apply emits_logf; reflexivity | intros _].
  apply emits_orReturn;
    [apply emits_FetchSources; reflexivity | intro; apply emits_ret|].
  repeat first
    [ apply emits_orReturn;
      [apply emits_call; reflexivity
      | intro; first [apply emits_ret | apply emits_logf; reflexivity] |]
    | apply emits_bind; [apply emits_logf; reflexivity | intros _] ].
  destruct (PackageType_eqb (Type_ p) PackageTypeYpkg).
  - apply emits_buildYpkg; try reflexivity; [auto | apply emits_ret].
  - apply emits_buildLegacy; try reflexivity; apply emits_ret.
Qed.

Lemma Forall_firstn_keeps (T : Type) (P : T -> Prop) (n : nat) (l : list T) :
  Forall P l -> Forall P (firstn n l).
Proof.
  intros H; revert n; induction H as [|x l Hx _ IH]; intros [|n]; simpl;
    constructor; auto.
Qed.

Lemma quiet_about_reaper (l : list Event) :
  Forall (fun ev => aboutReaper ev = false) l ->
  hooks l = [] /\ filter isInvoke l = [].
Proof.
  induction 1 as [|ev l Hev _ [IHh IHf]]; [split; reflexivity|].
  destruct ev as [[]| | | |]; simpl; try discriminate; auto.
Qed.

(** A run in which the hook is installed fourth and the deferred closure
    is invoked last, with nothing about the reaper in between, cut short
    anywhere between the two. *)
Lemma interrupted_between (a b c : Event) (r : Closure) (mid : list Event)
  (n : nat) :
  isInvoke a = false -> isInvoke b = false -> isInvoke c = false ->
  hooks [a; b; c] = [] ->
  Forall (fun ev => aboutReaper ev = false) mid ->
  4 <= n < length ([a; b; c; EvCall (HandleInterrupt r)] ++ mid
                     ++ [EvCall (Invoke r)]) ->
  filter isInvoke
    (interrupted ([a; b; c; EvCall (HandleInterrupt r)] ++ mid
                    ++ [EvCall (Invoke r)]) n)
  = [EvCall (Invoke r)].
Proof.
  intros Ha Hb Hc Hh Hmid [Hlo Hhi].
  destruct n as [|[|[|[|n]]]]; try lia.
  rewrite length_app, length_app in Hhi; simpl in Hhi.
  assert (Hfirst :
            firstn (S (S (S (S n))))
              ([a; b; c; EvCall (HandleInterrupt r)] ++ mid
                 ++ [EvCall (Invoke r)])
            = [a; b; c; EvCall (HandleInterrupt r)] ++ firstn n mid).
  { cbn [app firstn]; rewrite firstn_app.
    replace (n - length mid) with 0 by lia.
    cbn [firstn]; rewrite app_nil_r; reflexivity. }
  unfold interrupted; rewrite Hfirst.
  destruct (quiet_about_reaper (Forall_firstn_keeps n Hmid)) as [Hhooks Hfil].
  assert (Hk : hooks ([a; b; c; EvCall (HandleInterrupt r)] ++ firstn n mid)
               = [r]).
  { destruct a as [[]| | | |], b as [[]| | | |], c as [[]| | | |];
      simpl in Hh |- *; try discriminate; rewrite Hhooks; reflexivity. }
  rewrite Hk, !filter_app, Hfil.
  cbn [filter map isInvoke app]; rewrite Ha, Hb, Hc; reflexivity.
Qed.

(** C1, as the code has it.  [Build] makes the reaper for the overlay, the
    package and the package manager of this build and defers it after
    [CleanExisting] has succeeded and before the root is activated, and it
    hands the same reaper to [HandleInterrupt].  When [CleanExisting]
    fails, [Build] returns its error and no reaper is made or run.
    Otherwise the reaper is invoked exactly once, as the last thing
    [Build] does, whichever way the rest of the function is left; and when
    an interruption signal cuts the build short once the hook is installed
    and before the deferred reaper has run, the hook invokes the same
    reaper, and that is the one invocation of the run.  A signal that
    comes before the hook is installed, which is while the overlay is
    cleaned, runs no reaper. *)
Theorem Build_reaper (p : Package) (img : BackingImage) (w : W) :
  let o := newOverlay env img p in
  let reaper := GrimReaper o p (NewEopkgManager (MountPoint o)) in
  let start :=
    EvLog Info "Building package"
      [("profile", FStr (Img.Name img)); ("version", FStr (Version p));
       ("package", FStr (Name p)); ("type", FType (Type_ p));
       ("release", FInt (Release p))] in
  match exec env (CleanExisting o) w with
  | (Some err, w1) =>
      Build env BuildUser BuildUserHome p img w
      = (Val (Some err), w1, [start; EvCall (CleanExisting o)])
  | (None, w1) =>
      exists rest,
        trace (Build env BuildUser BuildUserHome p img w)
        = [start; EvCall (CleanExisting o); EvDefer reaper;
           EvCall (HandleInterrupt reaper); EvCall (ActivateRoot p o)]
            ++ rest ++ [EvCall (Invoke reaper)] /\
        Forall (fun ev => aboutReaper ev = false) rest /\
        reaperRuns (trace (Build env BuildUser BuildUserHome p img w)) = 1 /\
        (forall n,
           4 <= n < length (trace (Build env BuildUser BuildUserHome p img w)) ->
           filter isInvoke
             (interrupted (trace (Build env BuildUser BuildUserHome p img w)) n)
           = [EvCall (Invoke reaper)]) /\
        (forall n,
           n < 4 ->
           filter isInvoke
             (interrupted (trace (Build env BuildUser BuildUserHome p img w)) n)
           = [])
  end.
Proof.
  intros o reaper start.
  assert (Hcount : forall rest,
             Forall (fun ev => aboutReaper ev = false) rest ->
             reaperRuns (rest ++ [EvCall (Invoke reaper)]) = 1).
  { intros rest Hrest; unfold reaperRuns.
    rewrite filter_app; simpl.
    replace (filter isInvoke rest) with (@nil Event); [reflexivity|].
    symmetry; induction Hrest as [|ev rest Hev _ IH]; [reflexivity|].
    simpl; rewrite IH.
    destruct ev as [[]| | | |]; try reflexivity; discriminate. }
  assert (Hcut : forall mid n,
             Forall (fun ev => aboutReaper ev = false) mid ->
             4 <= n < length ([start; EvCall (CleanExisting o); EvDefer reaper;
                               EvCall (HandleInterrupt reaper)]
                                ++ mid ++ [EvCall (Invoke reaper)]) ->
             filter isInvoke
               (interrupted ([start; EvCall (CleanExisting o); EvDefer reaper;
                              EvCall (HandleInterrupt reaper)]
                               ++ mid ++ [EvCall (Invoke reaper)]) n)
             = [EvCall (Invoke reaper)])
    by (intros mid n Hmid Hn; apply interrupted_between;
        [reflexivity | reflexivity | reflexivity | reflexivity | exact Hmid
        | exact Hn]).
  unfold Build; rewrite bind_logf, orReturn_call.
  fold o; destruct (exec env (CleanExisting o) w) as [[err|] w1]; simpl fst;
    simpl snd; cbv iota.
  - reflexivity.
  - fold reaper.
    rewrite withDefer_run, bind_call, orReturn_call.
    set (w2 := snd (exec env (HandleInterrupt reaper) w1)).
    destruct (exec env (ActivateRoot p o) w2) as [[err|] w3]; simpl fst;
      simpl snd; cbv iota.
    + exists []; split; [reflexivity | split; [constructor|]].
      split; [reflexivity | split].
      * intros n Hn.
        apply (Hcut [EvCall (ActivateRoot p o)] n);
          [repeat constructor | exact Hn].
      * intros n Hn; destruct n as [|[|[|[|n]]]]; [reflexivity .. | lia].
    + match goal with
      | |- context [preceded [EvCall (ActivateRoot p o)] (?K w3)] =>
          pose proof (aboutReaper_rest p o (NewEopkgManager (MountPoint o)) w3)
            as Hrest;
          change (Forall (fun ev => aboutReaper ev = false) (trace (K w3)))
            in Hrest;
          set (r := K w3) in *
      end.
      exists (trace r); split; [reflexivity | split; [assumption|]].
      split.
      * unfold preceded, trace at 1; simpl.
        exact (Hcount _ Hrest).
      * split.
        -- intros n Hn.
           apply (Hcut (EvCall (ActivateRoot p o) :: trace r) n);
             [constructor; [reflexivity | assumption] | exact Hn].
        -- intros n Hn; destruct n as [|[|[|[|n]]]]; [reflexivity .. | lia].
Qed.

End Reaper.

(** ** C5: what the format decides *)

Section Dispatch.

Variable W : Type.
Variable env : Env W.
Variable BuildUser : string.
Variable BuildUserHome : string.

Hypothesis Hall : allSucceed env.

Lemma orReturn_call_ok (c : Call) (h : error -> M W unit)
  (k : M W (option error)) (w : W) :
  orReturn (call env c) h k w = preceded [EvCall c] (k (snd (exec env c w))).
Proof. rewrite orReturn_call, (proj1 Hall); reflexivity. Qed.

Lemma orReturn_ok (c : M W (option error)) (h : error -> M W unit)
  (k : M W (option error)) (w : W) :
  result (c w) = Val None ->
  orReturn c h k w = preceded (trace (c w)) (k (world (c w))).
Proof.
  intros H; unfold orReturn, bind.
  destruct (c w) as [[r w1] t1]; unfold result in H; simpl in H; subst r.
  unfold preceded, result, world, trace; simpl.
  destruct (k w1) as [[r2 w2] t2]; reflexivity.
Qed.

Lemma forRange_ok (A : Type) (body : A -> M W Flow) (l : list A) (w : W) :
  (forall x w', result (body x w') = Val Continue) ->
  result (forRange body l (ret None) w) = Val None.
Proof.
  intros H.
  destruct (runsThrough_all body l w H) as (w1 & t1 & Hr).
  rewrite <- (app_nil_r l), (@forRange_through _ _ _ (ret None) _ [] _ _ _ Hr).
  reflexivity.
Qed.

Lemma CopyAssets_ok (p : Package) (o : Overlay) (w : W) :
  result (CopyAssets env BuildUserHome p o w) = Val None.
Proof.
  unfold CopyAssets, bind.
  pose proof (proj2 Hall (Filepath.Dir (Path p)) w) as Habs.
  destruct (filepathAbs env (Filepath.Dir (Path p)) w) as [abs err].
  simpl in Habs; subst err.
  destruct (GetWorkDir_defined BuildUserHome p o) as [d ->]; simpl.
  match goal with
  | |- context [forRange ?b ?l ?a w] =>
      assert (H : result (forRange b l a w) = Val None)
  end.
  { apply forRange_ok; intros name w'; unfold copyAsset.
    rewrite bind_call, (proj1 Hall); reflexivity. }
  destruct (forRange _ _ _ w) as [[r w1] t1]; exact H.
Qed.

Lemma BindSources_ok (p : Package) (o : Overlay) (w : W) :
  result (BindSources env BuildUserHome p o w) = Val None.
Proof.
  apply forRange_ok; intros s w'; unfold bindSource.
  destruct (GetSourceDir_defined BuildUserHome p o) as [d ->].
  unfold fromSlice, bind, ret, logf, emit, call.
  rewrite PathExists_run.
  pose proof (proj1 Hall (MkdirAll d 493) w') as Hm.
  destruct (existsAt env d w'); cbn -[Filepath.Join].
  - pose proof (proj1 Hall (TouchFile (Filepath.Join [d; File s])) w') as Ht.
    destruct (exec env (TouchFile _) w') as [r1 w1]; simpl in Ht; subst r1.
    match goal with
    | |- context [exec env (BindMount ?a ?b) w1] =>
        pose proof (proj1 Hall (BindMount a b) w1) as Hb;
        destruct (exec env (BindMount a b) w1) as [r2 w2]
    end.
    simpl in Hb; subst r2; reflexivity.
  - destruct (exec env (MkdirAll d 493) w') as [r0 w0]; simpl in Hm; subst r0.
    pose proof (proj1 Hall (TouchFile (Filepath.Join [d; File s])) w0) as Ht.
    destruct (exec env (TouchFile _) w0) as [r1 w1]; simpl in Ht; subst r1.
    match goal with
    | |- context [exec env (BindMount ?a ?b) w1] =>
        pose proof (proj1 Hall (BindMount a b) w1) as Hb;
        destruct (exec env (BindMount a b) w1) as [r2 w2]
    end.
    simpl in Hb; subst r2; reflexivity.
Qed.

Lemma FetchSources_ok (p : Package) (o : Overlay) (w : W) :
  result (FetchSources env p o w) = Val None.
Proof.
  unfold FetchSources.
  destruct (fetch_through env p (Sources p) w) as (w1 & t1 & _ & ->).
  reflexivity.
Qed.

Lemma bindSource_exposes (p : Package) (o : Overlay) (s : Source) (w : W)
  (dir : string) :
  GetSourceDir BuildUserHome p o = Some dir ->
  exists w' t,
    bindSource env BuildUserHome p o s w = (Val Continue, w', t) /\
    exposed env p dir s t.
Proof.
  intros Hdir; unfold bindSource, exposed.
  rewrite expHash_checksumFor, Hdir.
  unfold fromSlice, bind, ret, logf, emit, call.
  rewrite PathExists_run.
  pose proof (proj1 Hall (MkdirAll dir 493) w) as Hm.
  destruct (existsAt env dir w); cbn -[Filepath.Join].
  - pose proof (proj1 Hall (TouchFile (Filepath.Join [dir; File s])) w) as Ht.
    destruct (exec env (TouchFile _) w) as [r1 w1]; simpl in Ht; subst r1.
    pose proof (proj1 Hall (BindMount (getPath env s (checksumFor (Type_ p) s))
                              (Filepath.Join [dir; File s])) w1) as Hb.
    destruct (exec env (BindMount _ _) w1) as [r2 w2]; simpl in Hb; subst r2.
    eexists _, _; split; [reflexivity|].
    exists []; split; [left; reflexivity | reflexivity].
  - destruct (exec env (MkdirAll dir 493) w) as [r0 w0]; simpl in Hm; subst r0.
    pose proof (proj1 Hall (TouchFile (Filepath.Join [dir; File s])) w0) as Ht.
    destruct (exec env (TouchFile _) w0) as [r1 w1]; simpl in Ht; subst r1.
    pose proof (proj1 Hall (BindMount (getPath env s (checksumFor (Type_ p) s))
                              (Filepath.Join [dir; File s])) w1) as Hb.
    destruct (exec env (BindMount _ _) w1) as [r2 w2]; simpl in Hb; subst r2.
    eexists _, _; split; [reflexivity|].
    exists [EvCall (MkdirAll dir 493)]; split; [right; reflexivity | reflexivity].
Qed.

Lemma BindSources_exposes (p : Package) (o : Overlay) (w : W) (dir : string) :
  GetSourceDir BuildUserHome p o = Some dir ->
  exists chunks,
    Forall2 (exposed env p dir) (Sources p) chunks /\
    trace (BindSources env BuildUserHome p o w) = List.concat chunks.
Proof.
  intros Hdir; unfold BindSources.
  generalize (Sources p) as l; intros l; revert w.
  induction l as [|s l IH]; intros w.
  - exists []; split; [constructor | reflexivity].
  - destruct (bindSource_exposes p o s w Hdir) as (w' & t & Hb & Hexp).
    rewrite (@forRange_continue _ _ _ (ret None) _ l _ _ _ Hb).
    destruct (IH w') as (chunks & Hall2 & Htr).
    exists (t :: chunks); split; [constructor; assumption|].
    unfold preceded, trace at 1; cbn [snd List.concat]; rewrite Htr.
    reflexivity.
Qed.

Lemma trace_preceded (A : Type) (t : list Event) (r : Res A * W * list Event) :
  trace (preceded t r) = t ++ trace r.
Proof. reflexivity. Qed.

End Dispatch.

Section FormatDispatch.

Variable W : Type.
Variable env : Env W.
Variable BuildUser : string.
Variable BuildUserHome : string.

Lemma notIsolation_Build_legacy (p : Package) (img : BackingImage) :
  Type_ p = PackageTypeXML ->
  emits (fun ev => isIsolationCall ev = false)
    (Build env BuildUser BuildUserHome p img).
Proof.
  intros Ht; unfold Build.
  replace (PackageType_eqb (Type_ p) PackageTypeYpkg) with false
    by (rewrite Ht; reflexivity).
  apply emits_bind; [apply emits_logf; reflexivity | intros _].
  apply emits_orReturn; [apply emits_call; reflexivity | intro; apply emits_ret|].
  apply emits_withDefer; try reflexivity.
  apply emits_bind; [apply emits_call; reflexivity | intros _].
  apply emits_orReturn; [apply emits_call; reflexivity | intro; apply emits_ret|].
  apply emits_orReturn;
    [apply emits_CopyAssets; reflexivity | intro; apply emits_logf; reflexivity|].
  apply emits_bind; [apply emits_logf; reflexivity | intros _].
  apply emits_orReturn;
    [apply emits_FetchSources; reflexivity | intro; apply emits_ret|].
  repeat first
    [ apply emits_orReturn;
      [apply emits_call; reflexivity
      | intro; first [apply emits_ret | apply emits_logf; reflexivity] |]
    | apply emits_bind; [apply emits_logf; reflexivity | intros _] ].
  try (apply emits_buildLegacy; try reflexivity); apply emits_ret.
Qed.

(** C5.  For a legacy descriptor [Build] makes none of the calls of the
    dependency-installation and isolation steps, whatever happens; and in
    every run in which the steps before the dispatch succeed, each in the
    world the one before has left, the next thing recorded is the
    warning, and all that follows is the stopping of the bus, its error
    when it has one, and the reaper.  For a modern descriptor, when every
    step succeeds, the steps come in this order, after everything else and
    before the reaper: install the build dependencies, stop the bus, fix
    the ownership, drop networking, configure networking, bind the
    sources, run the build as the build user; and the bind step is, for
    each source in the order of the descriptor, a look at the source
    directory, which is made when it is missing, the creation of the
    target and the mount of the cached file on it. *)
Theorem format_dispatch (p : Package) (img : BackingImage) (w : W) :
  let o := newOverlay env img p in
  let pman := NewEopkgManager (MountPoint o) in
  let reaper := GrimReaper o p pman in
  let wdir := GetWorkDirInternal BuildUserHome p in
  let ymlFile := Filepath.Join [wdir; Filepath.Base (Path p)] in
  let start :=
    EvLog Info "Building package"
      [("profile", FStr (Img.Name img)); ("version", FStr (Version p));
       ("package", FStr (Name p)); ("type", FType (Type_ p));
       ("release", FInt (Release p))] in
  (Type_ p = PackageTypeXML ->
   Forall (fun ev => isIsolationCall ev = false)
     (trace (Build env BuildUser BuildUserHome p img w)) /\
   forall (w1 w2 w3 w4 w5 w6 w7 w8 : W) (tCopy tFetch : list Event),
     exec env (CleanExisting o) w = (None, w1) ->
     exec env (ActivateRoot p o) (snd (exec env (HandleInterrupt reaper) w1))
     = (None, w2) ->
     CopyAssets env BuildUserHome p o w2 = (Val None, w3, tCopy) ->
     FetchSources env p o w3 = (Val None, w4, tFetch) ->
     exec env (PmanInit pman) w4 = (None, w5) ->
     exec env (StartDBUS pman) w5 = (None, w6) ->
     exec env (Upgrade pman) w6 = (None, w7) ->
     exec env (InstallComponent pman "system.devel") w7 = (None, w8) ->
     trace (Build env BuildUser BuildUserHome p img w)
     = [start; EvCall (CleanExisting o); EvDefer reaper;
        EvCall (HandleInterrupt reaper); EvCall (ActivateRoot p o)]
       ++ tCopy ++ [EvLog Info "Validating sources" []] ++ tFetch
       ++ [EvCall (PmanInit pman); EvLog Debug "Starting D-BUS" [];
           EvCall (StartDBUS pman); EvLog Info "Upgrading system base" [];
           EvCall (Upgrade pman);
           EvLog Info "Asserting system.devel component installation" [];
           EvCall (InstallComponent pman "system.devel")]
       ++ [EvLog Warning "Full sandboxing is not possible with legacy format" [];
           EvLog Debug "Stopping D-BUS" [];
           EvCall (StopDBUS pman)]
       ++ match fst (exec env (StopDBUS pman) w8) with
          | Some err => [EvLog Error "Failed to stop d-bus" [("error", FErr err)]]
          | None => []
          end
       ++ [EvCall (Invoke reaper)]) /\
  (Type_ p = PackageTypeYpkg ->
   allSucceed env ->
   exists pre dir chunks,
     Forall (fun ev => isIsolationCall ev = false) pre /\
     GetSourceDir BuildUserHome p o = Some dir /\
     Forall2 (exposed env p dir) (Sources p) chunks /\
     trace (Build env BuildUser BuildUserHome p img w)
     = pre ++
       [EvLog Info "Installing build dependencies" [("buildFile", FStr ymlFile)];
        EvCall (ChrootExec (MountPoint o) ("ypkg-install-deps -f " ++ ymlFile));
        EvLog Debug "Stopping D-BUS" [];
        EvCall (StopDBUS pman);
        EvCall (ChrootExec (MountPoint o)
                  ("chown -R " ++ BuildUser ++ ":" ++ BuildUser ++ " "
                     ++ BuildUserHome));
        EvCall DropNetworking;
        EvCall (ConfigureNetworking o)]
       ++ List.concat chunks
       ++ [EvLog Info "Now starting build of package"
             [("package", FStr (Name p))];
           EvCall (ChrootExec (MountPoint o)
                     ("/bin/su - " ++ BuildUser ++ " -- fakeroot ypkg-build -D "
                        ++ wdir ++ " " ++ ymlFile));
           EvCall (Invoke reaper)]).
Proof.
  intros o pman reaper wdir ymlFile start; split.
  - intros Ht; split; [apply notIsolation_Build_legacy; assumption|].
    intros w1 w2 w3 w4 w5 w6 w7 w8 tCopy tFetch
      Hclean Hroot Hcopy Hfetch Hinit Hbus Hup Hdevel.
    unfold Build.
    replace (PackageType_eqb (Type_ p) PackageTypeYpkg) with false
      by (rewrite Ht; reflexivity).
    fold o; fold pman; fold reaper; fold start.
    rewrite bind_logf, orReturn_call, Hclean; cbn [fst snd].
    rewrite withDefer_run, bind_call, orReturn_call, Hroot; cbn [fst snd].
    rewrite orReturn_ok by (rewrite Hcopy; reflexivity).
    rewrite Hcopy.
    change (trace (Val (@None error), w3, tCopy)) with tCopy.
    change (world (Val (@None error), w3, tCopy)) with w3.
    rewrite bind_logf.
    rewrite orReturn_ok by (rewrite Hfetch; reflexivity).
    rewrite Hfetch.
    change (trace (Val (@None error), w4, tFetch)) with tFetch.
    change (world (Val (@None error), w4, tFetch)) with w4.
    rewrite orReturn_call, Hinit; cbn [fst snd].
    rewrite bind_logf, orReturn_call, Hbus; cbn [fst snd].
    rewrite bind_logf, orReturn_call, Hup; cbn [fst snd].
    rewrite bind_logf, orReturn_call, Hdevel; cbn [fst snd].
    unfold buildLegacy.
    rewrite bind_logf, bind_logf, orReturn_call.
    destruct (fst (exec env (StopDBUS pman) w8)) as [err|];
      [rewrite bind_logf|];
      cbn [preceded trace result world fst snd app ret];
      repeat (progress (cbn [app]; rewrite <- ?app_assoc)); reflexivity.
  - intros Ht Hall; unfold Build.
    replace (PackageType_eqb (Type_ p) PackageTypeYpkg) with true
      by (rewrite Ht; reflexivity).
    rewrite bind_logf, orReturn_call_ok, withDefer_run, bind_call by assumption.
    rewrite orReturn_call_ok by assumption.
    rewrite orReturn_ok by (apply CopyAssets_ok; assumption).
    rewrite bind_logf.
    rewrite orReturn_ok by apply FetchSources_ok.
    rewrite orReturn_call_ok, bind_logf, orReturn_call_ok, bind_logf,
      orReturn_call_ok, bind_logf, orReturn_call_ok by assumption.
    unfold buildYpkg.
    rewrite bind_logf, orReturn_call_ok, bind_logf, orReturn_call_ok,
      orReturn_call_ok, orReturn_call_ok, orReturn_call_ok by assumption.
    rewrite orReturn_ok by (apply BindSources_ok; assumption).
    rewrite bind_logf, orReturn_call_ok by assumption.
    fold o; fold pman; fold reaper; fold wdir; fold ymlFile.
    cbn [preceded trace result world fst snd app ret].
    match goal with
    | |- context [trace (CopyAssets env BuildUserHome p o ?w1)] =>
        pose proof (emits_CopyAssets env BuildUserHome
                      (fun ev => isIsolationCall ev = false)
                      (fun _ => eq_refl) p o (fun _ _ => eq_refl) w1) as HCopy;
        set (tCopy := trace (CopyAssets env BuildUserHome p o w1)) in *
    end.
    match goal with
    | |- context [trace (FetchSources env p o ?w1)] =>
        pose proof (emits_FetchSources env
                      (fun ev => isIsolationCall ev = false)
                      (fun _ => eq_refl) (fun _ _ _ => eq_refl) p o
                      (fun _ => eq_refl) w1) as HFetch;
        set (tFetch := trace (FetchSources env p o w1)) in *
    end.
    destruct (GetSourceDir_defined BuildUserHome p o) as [dir Hdir].
    match goal with
    | |- context [trace (BindSources env BuildUserHome p o ?w1)] =>
        destruct (@BindSources_exposes _ env BuildUserHome Hall p o w1 dir Hdir)
          as (chunks & Hchunks & ->)
    end.
    clearbody tCopy tFetch.
    exists ([EvLog Info "Building package"
               [("profile", FStr (Img.Name img)); ("version", FStr (Version p));
                ("package", FStr (Name p)); ("type", FType (Type_ p));
                ("release", FInt (Release p))];
             EvCall (CleanExisting o); EvDefer reaper;
             EvCall (HandleInterrupt reaper); EvCall (ActivateRoot p o)]
              ++ tCopy ++ [EvLog Info "Validating sources" []] ++ tFetch
              ++ [EvCall (PmanInit pman); EvLog Debug "Starting D-BUS" [];
                  EvCall (StartDBUS pman);
                  EvLog Info "Upgrading system base" [];
                  EvCall (Upgrade pman);
                  EvLog Info "Asserting system.devel component installation" [];
                  EvCall (InstallComponent pman "system.devel")]), dir, chunks.
    split; [|split; [exact Hdir | split; [exact Hchunks|]]].
    + repeat first
        [ apply Forall_app; split
        | assumption
        | apply Forall_cons; [reflexivity|]
        | apply Forall_nil ].
    + repeat (progress (cbn [app]; rewrite <- ?app_assoc)); reflexivity.
Qed.

End FormatDispatch.

(** ** C2: an unknown profile on the command line *)

Section Commands.

Variable W : Type.
Variable env : Env W.

Lemma IsValidProfileIn_spec (profiles : list string) (profile : string) :
  IsValidProfileIn profiles profile = true <-> In profile profiles.
Proof.
  induction profiles as [|q rest IH]; simpl; [split; [discriminate | tauto]|].
  destruct (q =? profile) eqn:E.
  - apply String.eqb_eq in E; tauto.
  - apply String.eqb_neq in E; rewrite IH; split; [tauto|].
    intros [H|H]; [contradiction | assumption].
Qed.

Lemma IsValidProfile_unknown (profile : string) :
  ~ In profile ValidProfiles -> IsValidProfile profile = false.
Proof.
  intros H; unfold IsValidProfile.
  destruct (IsValidProfileIn ValidProfiles profile) eqn:E; [|reflexivity].
  apply IsValidProfileIn_spec in E; contradiction.
Qed.

Lemma EmitProfileError_run (profile : string) (w : W) :
  EmitProfileError profile w = (Val tt, w, profileError profile).
Proof. reflexivity. Qed.

(** C2, as the code has it.  For a profile outside the known set the
    validation answers false, and both commands put the stock error on
    standard error (the profile asked for, the known profiles, the default
    one) and do nothing else: no call into the world is made, [build] has
    at most looked for a package file before.  But neither command reports
    a failure: [buildPackage] returns nil and [updateProfile] returns
    without exiting. *)
Theorem unknown_profile (profile flag : string) (args : list string) (w : W) :
  ~ In profile ValidProfiles ->
  IsValidProfile profile = false /\
  buildPackage env profile args w
  = (Val None, w,
     match args with
     | [_] => []
     | _ => [EvQuery QFindLikelyArg]
     end ++ profileError profile) /\
  (match args with
   | [a] => TrimSpace a
   | _ => flag
   end = profile ->
   updateProfile env flag args w = (Val (Returns None), w, profileError profile)).
Proof.
  intros Hin; pose proof (IsValidProfile_unknown Hin) as Hv.
  split; [assumption | split].
  - unfold buildPackage, bind.
    destruct args as [|a [|b rest]]; unfold ret; rewrite Hv; reflexivity.
  - intros <-; unfold updateProfile.
    destruct args as [|a [|b rest]]; rewrite Hv; reflexivity.
Qed.

End Commands.

(** ** The theorems at work in the small world *)

Lemma Sim_allSucceed : allSucceed (Sim.plain Sim.noFailure).
Proof. split; intros; reflexivity. Qed.

Lemma FetchSources_goes_on_witness :
  exists w3 t2,
    runsThrough (fetchSource (Sim.plain Sim.failFetch) (Sim.nano PackageTypeYpkg))
      [Sim.src2] [] = Some (w3, t2) /\
    cacheChecks t2 = [(Sim.src2, "dd44")] /\
    FetchSources (Sim.plain Sim.failFetch) (Sim.nano PackageTypeYpkg)
      (Sim.overlay PackageTypeYpkg) []
    = (Val None, w3,
       [] ++ [EvQuery (QIsFetched Sim.src1 "bb22");
              EvLog Info "Downloading source"
                [("uri", FStr "https://example.com/nano-2.7.1.tar.xz")];
              EvCall (SourceFetch Sim.src1);
              EvLog Error "Failed to fetch source"
                [("error", FErr "404 Not Found");
                 ("uri", FStr "https://example.com/nano-2.7.1.tar.xz")]] ++ t2).
Proof.
  exact (proj2 (FetchSources_goes_on (Sim.plain Sim.failFetch)
                  (Sim.nano PackageTypeYpkg) (Sim.overlay PackageTypeYpkg) [])
           [] Sim.src1 [Sim.src2] [] [] [] "404 Not Found"
           eq_refl eq_refl eq_refl eq_refl).
Defined.

Lemma FetchSources_skips_cached_witness :
  fetchSource (Sim.plain Sim.noFailure) (Sim.nano PackageTypeYpkg) Sim.src1
    Sim.warm
  = (Val Continue, Sim.warm, [EvQuery (QIsFetched Sim.src1 "bb22")]) /\
  exists pre post w1 t1,
    [Sim.src1; Sim.src2] = pre ++ Sim.src2 :: post /\
    runsThrough (fetchSource (Sim.plain Sim.noFailure) (Sim.nano PackageTypeYpkg))
      pre Sim.warm = Some (w1, t1) /\
    Sim.cached Sim.src2 "dd44" w1 = false.
Proof.
  pose proof (FetchSources_skips_cached (Sim.plain Sim.noFailure)
                (Sim.nano PackageTypeYpkg) (Sim.overlay PackageTypeYpkg)
                Sim.warm) as [Hskip Hmiss].
  split.
  - exact (proj1 (Hskip [] Sim.src1 [Sim.src2] Sim.warm [] eq_refl eq_refl
                    eq_refl)).
  - apply (Hmiss Sim.src2).
    vm_compute; repeat (first [left; reflexivity | right]).
Defined.

Lemma checksum_by_format_witness :
  exists s,
    In s [Sim.src1; Sim.src2] /\
    "/var/lib/solbuild/sources/fix.patch" = Sim.cachePath s (SHA256Sum s).
Proof.
  apply (proj2 (checksum_by_format (Sim.plain Sim.noFailure) "/home/build"
                  (Sim.nano PackageTypeYpkg) (Sim.overlay PackageTypeYpkg) [])
           "/var/lib/solbuild/sources/fix.patch"
           "/var/cache/solbuild/main-x86_64/nano/union/home/build/YPKG/sources/fix.patch").
  vm_compute; repeat (first [left; reflexivity | right]).
Defined.

Lemma format_dispatch_witness :
  (exists tCopy tFetch,
     trace (Build (Sim.plain Sim.noFailure) "build" "/home/build"
              (Sim.nano PackageTypeXML) Sim.mainImage [])
     = [EvLog Info "Building package"
          [("profile", FStr "main-x86_64"); ("version", FStr "2.7.1");
           ("package", FStr "nano"); ("type", FType PackageTypeXML);
           ("release", FInt 62)];
        EvCall (CleanExisting (Sim.overlay PackageTypeXML));
        EvDefer (GrimReaper (Sim.overlay PackageTypeXML)
                   (Sim.nano PackageTypeXML)
                   (NewEopkgManager (MountPoint (Sim.overlay PackageTypeXML))));
        EvCall (HandleInterrupt
                  (GrimReaper (Sim.overlay PackageTypeXML)
                     (Sim.nano PackageTypeXML)
                     (NewEopkgManager
                        (MountPoint (Sim.overlay PackageTypeXML)))));
        EvCall (ActivateRoot (Sim.nano PackageTypeXML)
                  (Sim.overlay PackageTypeXML))]
       ++ tCopy ++ [EvLog Info "Validating sources" []] ++ tFetch
       ++ [EvCall (PmanInit (NewEopkgManager
                               (MountPoint (Sim.overlay PackageTypeXML))));
           EvLog Debug "Starting D-BUS" [];
           EvCall (StartDBUS (NewEopkgManager
                                (MountPoint (Sim.overlay PackageTypeXML))));
           EvLog Info "Upgrading system base" [];
           EvCall (Upgrade (NewEopkgManager
                              (MountPoint (Sim.overlay PackageTypeXML))));
           EvLog Info "Asserting system.devel component installation" [];
           EvCall (InstallComponent
                     (NewEopkgManager (MountPoint (Sim.overlay PackageTypeXML)))
                     "system.devel")]
       ++ [EvLog Warning "Full sandboxing is not possible with legacy format" [];
           EvLog Debug "Stopping D-BUS" [];
           EvCall (StopDBUS (NewEopkgManager
                               (MountPoint (Sim.overlay PackageTypeXML))))]
       ++ []
       ++ [EvCall (Invoke (GrimReaper (Sim.overlay PackageTypeXML)
                             (Sim.nano PackageTypeXML)
                             (NewEopkgManager
                                (MountPoint (Sim.overlay PackageTypeXML)))))]) /\
  (exists pre dir chunks,
     Forall (fun ev => isIsolationCall ev = false) pre /\
     GetSourceDir "/home/build" (Sim.nano PackageTypeYpkg)
       (Sim.overlay PackageTypeYpkg) = Some dir /\
     Forall2 (exposed (Sim.plain Sim.noFailure) (Sim.nano PackageTypeYpkg) dir)
       [Sim.src1; Sim.src2] chunks /\
     trace (Build (Sim.plain Sim.noFailure) "build" "/home/build"
              (Sim.nano PackageTypeYpkg) Sim.mainImage [])
     = pre ++
       [EvLog Info "Installing build dependencies"
          [("buildFile", FStr "/home/build/work/package.yml")];
        EvCall (ChrootExec "/var/cache/solbuild/main-x86_64/nano/union"
                  "ypkg-install-deps -f /home/build/work/package.yml");
        EvLog Debug "Stopping D-BUS" [];
        EvCall (StopDBUS (NewEopkgManager (MountPoint (Sim.overlay PackageTypeYpkg))));
        EvCall (ChrootExec "/var/cache/solbuild/main-x86_64/nano/union"
                  "chown -R build:build /home/build");
        EvCall DropNetworking;
        EvCall (ConfigureNetworking (Sim.overlay PackageTypeYpkg))]
       ++ List.concat chunks
       ++ [EvLog Info "Now starting build of package" [("package", FStr "nano")];
           EvCall (ChrootExec "/var/cache/solbuild/main-x86_64/nano/union"
                     "/bin/su - build -- fakeroot ypkg-build -D /home/build/work /home/build/work/package.yml");
           EvCall (Invoke (GrimReaper (Sim.overlay PackageTypeYpkg)
                             (Sim.nano PackageTypeYpkg)
                             (NewEopkgManager
                                (MountPoint (Sim.overlay PackageTypeYpkg)))))]).
Proof.
  split.
  - eexists _, _.
    eapply (proj2 (proj1 (@format_dispatch _ (Sim.plain Sim.noFailure) "build"
                            "/home/build" (Sim.nano PackageTypeXML)
                            Sim.mainImage []) eq_refl));
      reflexivity.
  - exact (proj2 (@format_dispatch _ (Sim.plain Sim.noFailure) "build"
                    "/home/build" (Sim.nano PackageTypeYpkg) Sim.mainImage [])
             eq_refl Sim_allSucceed).
Defined.

Lemma BindSources_touch_failure_witness :
  BindSources (Sim.plain Sim.failTouch) "/home/build" (Sim.nano PackageTypeYpkg)
    (Sim.overlay PackageTypeYpkg) []
  = (Val None,
     [("/var/cache/solbuild/main-x86_64/nano/union/home/build/YPKG/sources", "")],
     [] ++
     [EvQuery
        (QStat "/var/cache/solbuild/main-x86_64/nano/union/home/build/YPKG/sources")]
     ++ [EvCall
           (MkdirAll
              "/var/cache/solbuild/main-x86_64/nano/union/home/build/YPKG/sources"
              493)] ++
     [EvLog Debug "Exposing source to container"
        [("target",
          FStr
            (Filepath.Join
               ["/var/cache/solbuild/main-x86_64/nano/union/home/build/YPKG/sources";
                "nano-2.7.1.tar.xz"]))];
      EvCall
        (TouchFile
           (Filepath.Join
              ["/var/cache/solbuild/main-x86_64/nano/union/home/build/YPKG/sources";
               "nano-2.7.1.tar.xz"]));
      EvLog Error "Failed to create bind mount target"
        [("target",
          FStr
            (Filepath.Join
               ["/var/cache/solbuild/main-x86_64/nano/union/home/build/YPKG/sources";
                "nano-2.7.1.tar.xz"]));
         ("error", FErr "read-only file system")]]).
Proof.
  apply (BindSources_touch_failure (Sim.plain Sim.failTouch) "/home/build"
           (Sim.nano PackageTypeYpkg) (Sim.overlay PackageTypeYpkg) []
           [] [Sim.src2] Sim.src1 (w1:=[])
           (w2:=[("/var/cache/solbuild/main-x86_64/nano/union/home/build/YPKG/sources", "")])
           (t1:=[])).
  - reflexivity.
  - reflexivity.
  - reflexivity.
  - right; split; [reflexivity | split; reflexivity].
  - reflexivity.
Defined.

Lemma unknown_profile_witness :
  IsValidProfile "bogus" = false /\
  buildPackage (Sim.plain Sim.noFailure) "bogus" ["package.yml"] []
  = (Val None, [], [] ++ profileError "bogus") /\
  updateProfile (Sim.plain Sim.noFailure) "bogus" [] []
  = (Val (Returns None), [], profileError "bogus") /\
  updateProfile (Sim.plain Sim.noFailure) "main-x86_64"
    [(" bogus" ++ String "194" (String "160" ""))%string] []
  = (Val (Returns None), [], profileError "bogus").
Proof.
  assert (Hin : ~ In "bogus" ValidProfiles)
    by (intros [H|[H|[]]]; discriminate).
  destruct (unknown_profile (Sim.plain Sim.noFailure) "bogus" ["package.yml"]
              [] Hin) as (Hv & Hb & _).
  destruct (unknown_profile (Sim.plain Sim.noFailure) "bogus" [] [] Hin)
    as (_ & _ & Hu).
  destruct (unknown_profile (Sim.plain Sim.noFailure) "main-x86_64"
              [(" bogus" ++ String "194" (String "160" ""))%string] [] Hin)
    as (_ & _ & Hu').
  split; [exact Hv | split; [exact Hb | split; [exact (Hu eq_refl)|]]].
  exact (Hu' eq_refl).
Defined.

(** A build in which nothing fails, cut short by an interruption signal
    after its first nine events, which is while the assets are copied:
    the one invocation of the run is that of the reaper of this build, by
    the hook. *)
Lemma Build_reaper_witness :
  filter isInvoke
    (interrupted
       (trace (Build (Sim.plain Sim.noFailure) "build" "/home/build"
                 (Sim.nano PackageTypeYpkg) Sim.mainImage [])) 9)
  = [EvCall (Invoke (GrimReaper (Sim.overlay PackageTypeYpkg)
                       (Sim.nano PackageTypeYpkg)
                       (NewEopkgManager
                          (MountPoint (Sim.overlay PackageTypeYpkg)))))].
Proof.
  pose proof (@Build_reaper _ (Sim.plain Sim.noFailure) "build" "/home/build"
                (Sim.nano PackageTypeYpkg) Sim.mainImage []) as H.
  hnf in H; destruct H as (rest & _ & _ & _ & Hcut & _).
  apply (Hcut 9); vm_compute; lia.
Defined.

(** C1, as the claim has it, fails.  When [CleanExisting] fails, [Build]
    returns by an early error return on which no reaper runs; and an
    interruption signal that arrives while the overlay is cleaned, after
    the first two events of a build in which nothing fails, finds no hook
    installed, for [HandleInterrupt] has not been called yet, so that no
    reaper runs then either. *)
Lemma Build_reaper_skipped :
  (result (Build (Sim.plain Sim.failClean) "build" "/home/build"
             (Sim.nano PackageTypeYpkg) Sim.mainImage [])
   = Val (Some "device or resource busy") /\
   reaperRuns (trace (Build (Sim.plain Sim.failClean) "build" "/home/build"
                        (Sim.nano PackageTypeYpkg) Sim.mainImage [])) = 0) /\
  (firstn 2 (trace (Build (Sim.plain Sim.noFailure) "build" "/home/build"
                      (Sim.nano PackageTypeYpkg) Sim.mainImage []))
   = [EvLog Info "Building package"
        [("profile", FStr "main-x86_64"); ("version", FStr "2.7.1");
         ("package", FStr "nano"); ("type", FType PackageTypeYpkg);
         ("release", FInt 62)];
      EvCall (CleanExisting (Sim.overlay PackageTypeYpkg))] /\
   reaperRuns
     (interrupted
        (trace (Build (Sim.plain Sim.noFailure) "build" "/home/build"
                  (Sim.nano PackageTypeYpkg) Sim.mainImage [])) 2) = 0).
Proof. repeat split; reflexivity. Qed.

(** ** Further properties: [CopyAssets] *)

Section CopyAssetsTheory.

Variable W : Type.
Variable env : Env W.
Variable BuildUserHome : string.

Lemma CopyAssets_run (p : Package) (o : Overlay) (w : W) :
  exists destdir,
    GetWorkDir BuildUserHome p o = Some destdir /\
    CopyAssets env BuildUserHome p o w =
    match filepathAbs env (Filepath.Dir (Path p)) w with
    | (_, Some err) =>
        (Val (Some err), w, [EvQuery (QAbs (Filepath.Dir (Path p)))])
    | (abs, None) =>
        preceded [EvQuery (QAbs (Filepath.Dir (Path p)))]
          (forRange (copyAsset env abs destdir)
             (Filepath.Base (Path p) :: "files" :: "comar" :: "component.xml"
                :: match Type_ p with
                   | PackageTypeXML => ["actions.py"]
                   | PackageTypeYpkg => []
                   end)
             (ret None) w)
    end.
Proof.
  destruct (GetWorkDir_defined BuildUserHome p o) as [destdir Hd].
  exists destdir; split; [assumption|].
  unfold CopyAssets, bind; rewrite Hd.
  destruct (filepathAbs env (Filepath.Dir (Path p)) w) as [abs [err|]];
    [reflexivity|].
  unfold fromSlice, ret at 1.
  destruct (Type_ p); cbn [PackageType_eqb app];
    match goal with
    | |- context [forRange ?b ?l ?a w] => destruct (forRange b l a w) as [[r w1] t1]
    end; reflexivity.
Qed.

(** X1.  When the directory of the descriptor cannot be made absolute,
    [CopyAssets] returns that error and copies nothing. *)
Theorem CopyAssets_abs_failure (p : Package) (o : Overlay) (w : W)
  (abs : string) (err : error) :
  filepathAbs env (Filepath.Dir (Path p)) w = (abs, Some err) ->
  CopyAssets env BuildUserHome p o w
  = (Val (Some err), w, [EvQuery (QAbs (Filepath.Dir (Path p)))]).
Proof.
  intros H; destruct (CopyAssets_run p o w) as (destdir & _ & ->).
  rewrite H; reflexivity.
Qed.

Lemma copies_through (abs destdir : string) (names : list string) (w w1 : W)
  (t1 : list Event) :
  runsThrough (copyAsset env abs destdir) names w = Some (w1, t1) ->
  t1 = map (copied abs destdir) names.
Proof.
  revert w w1 t1; induction names as [|n names IH]; intros w w1 t1 H;
    simpl in H.
  - injection H as _ <-; reflexivity.
  - unfold copyAsset at 1 in H; rewrite bind_call in H.
    destruct (fst (exec env (CopyAll (Filepath.Join [abs; n]) destdir) w));
      [discriminate|].
    unfold preceded, ret, result, world, trace in H; cbn [fst snd app] in H.
    destruct (runsThrough _ names _) as [[w2 t2]|] eqn:R; [|discriminate].
    injection H as _ <-; rewrite (IH _ _ _ R); reflexivity.
Qed.

(** X2.  [CopyAssets] stops at the first asset that cannot be copied: it
    returns the error of that copy, the assets before it have been copied
    and none of the assets behind it is touched. *)
Theorem CopyAssets_fail_fast (p : Package) (o : Overlay) (w w1 w2 : W)
  (abs destdir name : string) (pre post : list string) (t1 : list Event)
  (err : error) :
  filepathAbs env (Filepath.Dir (Path p)) w = (abs, None) ->
  GetWorkDir BuildUserHome p o = Some destdir ->
  Filepath.Base (Path p) :: "files" :: "comar" :: "component.xml"
    :: match Type_ p with
       | PackageTypeXML => ["actions.py"]
       | PackageTypeYpkg => []
       end = pre ++ name :: post ->
  runsThrough (copyAsset env abs destdir) pre w = Some (w1, t1) ->
  exec env (CopyAll (Filepath.Join [abs; name]) destdir) w1 = (Some err, w2) ->
  CopyAssets env BuildUserHome p o w
  = (Val (Some err), w2,
     [EvQuery (QAbs (Filepath.Dir (Path p)))]
       ++ map (copied abs destdir) pre ++ [copied abs destdir name]).
Proof.
  intros Habs Hd Hl Hpre Hfail.
  destruct (CopyAssets_run p o w) as (destdir' & Hd' & ->).
  rewrite Hd in Hd'; injection Hd' as <-.
  rewrite Habs, Hl.
  rewrite (@forRange_through _ _ _ (ret None) _ (name :: post) _ _ _ Hpre).
  assert (Hbody : copyAsset env abs destdir name w1
                  = (Val (Return (Some err)), w2, [copied abs destdir name]))
    by (unfold copyAsset; rewrite bind_call, Hfail; reflexivity).
  rewrite (@forRange_return _ _ _ (ret None) _ post _ _ _ _ Hbody).
  rewrite (copies_through _ _ _ _ Hpre); reflexivity.
Qed.

(** X3.  When every copy succeeds, [CopyAssets] returns nil after copying, in
    this order and into the work directory of the format: the descriptor,
    [files], [comar], [component.xml] and, for the legacy format only,
    [actions.py]. *)
Theorem CopyAssets_copies (p : Package) (o : Overlay) (w : W)
  (abs destdir : string) :
  filepathAbs env (Filepath.Dir (Path p)) w = (abs, None) ->
  GetWorkDir BuildUserHome p o = Some destdir ->
  (forall src dst w', fst (exec env (CopyAll src dst) w') = None) ->
  result (CopyAssets env BuildUserHome p o w) = Val None /\
  trace (CopyAssets env BuildUserHome p o w)
  = [EvQuery (QAbs (Filepath.Dir (Path p)))]
      ++ map (copied abs destdir)
           (Filepath.Base (Path p) :: "files" :: "comar" :: "component.xml"
              :: match Type_ p with
                 | PackageTypeXML => ["actions.py"]
                 | PackageTypeYpkg => []
                 end).
Proof.
  intros Habs Hd Hok.
  destruct (CopyAssets_run p o w) as (destdir' & Hd' & ->).
  rewrite Hd in Hd'; injection Hd' as <-.
  rewrite Habs.
  set (names := Filepath.Base (Path p) :: _).
  assert (Hcont : forall x w', result (copyAsset env abs destdir x w')
                               = Val Continue).
  { intros x w'; unfold copyAsset; rewrite bind_call, Hok; reflexivity. }
  destruct (runsThrough_all (copyAsset env abs destdir) names w Hcont)
    as (w1 & t1 & Hr).
  rewrite <- (app_nil_r names) at 1 2.
  rewrite (@forRange_through _ _ _ (ret None) _ [] _ _ _ Hr).
  rewrite (copies_through _ _ _ _ Hr).
  unfold preceded, result, world, trace; cbn [fst snd forRange ret].
  rewrite app_nil_r; split; reflexivity.
Qed.

End CopyAssetsTheory.

(** ** Further properties: [BindSources] and [FetchSources] *)

Section MoreSources.

Variable W : Type.
Variable env : Env W.
Variable BuildUserHome : string.

(** X4.  When the source directory is missing and cannot be made, [BindSources]
    logs the error and returns it: no target is created, nothing is
    mounted and the sources behind are not visited. *)
Theorem BindSources_mkdir_failure (p : Package) (o : Overlay) (w : W)
  (pre post : list Source) (s : Source) (w1 w2 : W) (t1 : list Event)
  (dir : string) (err : error) :
  Sources p = pre ++ s :: post ->
  runsThrough (bindSource env BuildUserHome p o) pre w = Some (w1, t1) ->
  GetSourceDir BuildUserHome p o = Some dir ->
  existsAt env dir w1 = false ->
  exec env (MkdirAll dir 493) w1 = (Some err, w2) ->
  BindSources env BuildUserHome p o w =
  (Val (Some err), w2,
   t1 ++ [EvQuery (QStat dir); EvCall (MkdirAll dir 493);
          EvLog Error "Failed to create source directory"
            [("dir", FStr dir); ("error", FErr err)]]).
Proof.
  intros Hs Hpre Hdir Hex Hmk.
  unfold BindSources.
  rewrite Hs, (@forRange_through _ _ _ (ret None) _ (s :: post) _ _ _ Hpre).
  assert (Hbody :
            bindSource env BuildUserHome p o s w1 =
            (Val (Return (Some err)), w2,
             [EvQuery (QStat dir); EvCall (MkdirAll dir 493);
              EvLog Error "Failed to create source directory"
                [("dir", FStr dir); ("error", FErr err)]])).
  { unfold bindSource; rewrite Hdir.
    unfold fromSlice, bind, ret, logf, emit, call.
    rewrite PathExists_run, Hex; cbn -[Filepath.Join].
    rewrite Hmk; reflexivity. }
  rewrite (@forRange_return _ _ _ (ret None) _ post _ _ _ _ Hbody).
  reflexivity.
Qed.

(** X5.  When the target was created and the bind mount fails, [BindSources]
    logs the error and returns it, unlike for a target that cannot be
    created; the sources behind are not visited. *)
Theorem BindSources_mount_failure (p : Package) (o : Overlay) (w : W)
  (pre post : list Source) (s : Source) (w1 w2 w3 w4 : W)
  (t1 mk : list Event) (dir : string) (err : error) :
  Sources p = pre ++ s :: post ->
  runsThrough (bindSource env BuildUserHome p o) pre w = Some (w1, t1) ->
  GetSourceDir BuildUserHome p o = Some dir ->
  (existsAt env dir w1 = true /\ w2 = w1 /\ mk = []) \/
  (existsAt env dir w1 = false /\
   exec env (MkdirAll dir 493) w1 = (None, w2) /\
   mk = [EvCall (MkdirAll dir 493)]) ->
  exec env (TouchFile (Filepath.Join [dir; File s])) w2 = (None, w3) ->
  exec env (BindMount (getPath env s (checksumFor (Type_ p) s))
              (Filepath.Join [dir; File s])) w3 = (Some err, w4) ->
  BindSources env BuildUserHome p o w =
  (Val (Some err), w4,
   t1 ++ [EvQuery (QStat dir)] ++ mk ++
   [EvLog Debug "Exposing source to container"
      [("target", FStr (Filepath.Join [dir; File s]))];
    EvCall (TouchFile (Filepath.Join [dir; File s]));
    EvCall (BindMount (getPath env s (checksumFor (Type_ p) s))
              (Filepath.Join [dir; File s]));
    EvLog Error "Failed to bind mount source"
      [("target", FStr (Filepath.Join [dir; File s])); ("error", FErr err)]]).
Proof.
  intros Hs Hpre Hdir Hmk Htouch Hbind.
  unfold BindSources.
  rewrite Hs, (@forRange_through _ _ _ (ret None) _ (s :: post) _ _ _ Hpre).
  assert (Hbody :
            bindSource env BuildUserHome p o s w1 =
            (Val (Return (Some err)), w4,
             [EvQuery (QStat dir)] ++ mk ++
             [EvLog Debug "Exposing source to container"
                [("target", FStr (Filepath.Join [dir; File s]))];
              EvCall (TouchFile (Filepath.Join [dir; File s]));
              EvCall (BindMount (getPath env s (checksumFor (Type_ p) s))
                        (Filepath.Join [dir; File s]));
              EvLog Error "Failed to bind mount source"
                [("target", FStr (Filepath.Join [dir; File s]));
                 ("error", FErr err)]])).
  { unfold bindSource; rewrite expHash_checksumFor, Hdir.
    unfold fromSlice, bind, ret, logf, emit, call.
    rewrite PathExists_run.
    destruct Hmk as [(Hex & -> & ->) | (Hex & Hmkdir & ->)]; rewrite Hex;
      cbn -[Filepath.Join].
    - rewrite Htouch, Hbind; reflexivity.
    - rewrite Hmkdir, Htouch, Hbind; reflexivity. }
  rewrite (@forRange_return _ _ _ (ret None) _ post _ _ _ _ Hbody).
  reflexivity.
Qed.

Lemma mounts_app (t1 t2 : list Event) : mounts (t1 ++ t2) = mounts t1 ++ mounts t2.
Proof.
  induction t1 as [|ev t1 IH]; [reflexivity|].
  destruct ev as [[]| | | |]; simpl; rewrite ?IH; reflexivity.
Qed.

(** X6.  When making directories, creating targets and mounting all succeed,
    [BindSources] returns nil and has bind-mounted every source, in the
    order of the descriptor: the cached file of the source, named by the
    checksum of the format, onto the file of its name in the source
    directory of the sandbox. *)
Theorem BindSources_mounts_all (p : Package) (o : Overlay) (w : W)
  (dir : string) :
  GetSourceDir BuildUserHome p o = Some dir ->
  (forall d perm w', fst (exec env (MkdirAll d perm) w') = None) ->
  (forall path w', fst (exec env (TouchFile path) w') = None) ->
  (forall src tgt w', fst (exec env (BindMount src tgt) w') = None) ->
  result (BindSources env BuildUserHome p o w) = Val None /\
  mounts (trace (BindSources env BuildUserHome p o w))
  = map (fun s => (getPath env s (checksumFor (Type_ p) s),
                   Filepath.Join [dir; File s])) (Sources p).
Proof.
  intros Hdir Hmk Htouch Hbind.
  assert (Hbody : forall s w',
             exists w'' t,
               bindSource env BuildUserHome p o s w' = (Val Continue, w'', t) /\
               mounts t = [(getPath env s (checksumFor (Type_ p) s),
                            Filepath.Join [dir; File s])]).
  { intros s w'; unfold bindSource; rewrite expHash_checksumFor, Hdir.
    unfold fromSlice, bind, ret, logf, emit, call.
    rewrite PathExists_run.
    destruct (existsAt env dir w'); cbn -[Filepath.Join].
    - pose proof (Htouch (Filepath.Join [dir; File s]) w') as Ht.
      destruct (exec env (TouchFile _) w') as [r1 w1]; simpl in Ht; subst r1.
      pose proof (Hbind (getPath env s (checksumFor (Type_ p) s))
                    (Filepath.Join [dir; File s]) w1) as Hb.
      destruct (exec env (BindMount _ _) w1) as [r2 w2]; simpl in Hb; subst r2.
      eexists _, _; split; reflexivity.
    - pose proof (Hmk dir 493%Z w') as Hm.
      destruct (exec env (MkdirAll dir 493) w') as [r0 w0]; simpl in Hm;
        subst r0.
      pose proof (Htouch (Filepath.Join [dir; File s]) w0) as Ht.
      destruct (exec env (TouchFile _) w0) as [r1 w1]; simpl in Ht; subst r1.
      pose proof (Hbind (getPath env s (checksumFor (Type_ p) s))
                    (Filepath.Join [dir; File s]) w1) as Hb.
      destruct (exec env (BindMount _ _) w1) as [r2 w2]; simpl in Hb; subst r2.
      eexists _, _; split; reflexivity. }
  unfold BindSources; generalize (Sources p) as l; intros l; revert w.
  induction l as [|s l IH]; intros w; [split; reflexivity|].
  destruct (Hbody s w) as (w'' & t & Hb & Hm).
  rewrite (@forRange_continue _ _ _ (ret None) _ l _ _ _ Hb).
  destruct (IH w'') as [IHr IHm].
  unfold preceded; split; [exact IHr|].
  unfold trace at 1; cbn [snd].
  rewrite mounts_app, Hm, IHm; reflexivity.
Qed.

(** X7.  When every source passes the check against the cache, [FetchSources]
    makes these checks and nothing else: nothing is fetched or logged and
    the world is as it was. *)
Theorem FetchSources_all_cached (p : Package) (o : Overlay) (w : W) :
  (forall s, In s (Sources p) ->
             isFetched env s (checksumFor (Type_ p) s) w = true) ->
  FetchSources env p o w
  = (Val None, w,
     map (fun s => EvQuery (QIsFetched s (checksumFor (Type_ p) s)))
       (Sources p)).
Proof.
  unfold FetchSources; generalize (Sources p) as l; intros l.
  induction l as [|s l IH]; intros H; [reflexivity|].
  assert (Hb : fetchSource env p s w
               = (Val Continue, w,
                  [EvQuery (QIsFetched s (checksumFor (Type_ p) s))]))
    by (rewrite fetchSource_run; cbv zeta; rewrite (H s (or_introl eq_refl));
        reflexivity).
  rewrite (@forRange_continue _ _ _ (ret None) _ l _ _ _ Hb), IH;
    [reflexivity|].
  intros s' Hs'; apply H; right; assumption.
Qed.

End MoreSources.

(** ** Further properties: the two commands *)

Section MoreCommands.

Variable W : Type.
Variable env : Env W.

Lemma inert_ret (A : Type) (a : A) : inert (ret (W:=W) a).
Proof. intros w; reflexivity. Qed.

Lemma inert_emit (e : Event) : inert (emit (W:=W) e).
Proof. intros w; reflexivity. Qed.

Lemma inert_PathExists (path : string) : inert (PathExists env path).
Proof. intros w; rewrite PathExists_run; reflexivity. Qed.

Lemma inert_bind (A B : Type) (m : M W A) (k : A -> M W B) :
  inert m -> (forall a, inert (k a)) -> inert (bind m k).
Proof.
  intros Hm Hk w; specialize (Hm w).
  destruct (m w) as [[[a|msg] w1] t1] eqn:E; unfold world in Hm; simpl in Hm;
    subst w1.
  - rewrite (bind_val m k w E); apply Hk.
  - rewrite (bind_panic m k w E); reflexivity.
Qed.

Lemma inert_EmitProfileError (profile : string) :
  inert (EmitProfileError (W:=W) profile).
Proof. intros w; reflexivity. Qed.

Lemma emits_EmitProfileError (P : Event -> Prop) (profile : string) :
  (forall text, P (EvStderr text)) -> emits P (EmitProfileError (W:=W) profile).
Proof. intros H w; repeat constructor; apply H. Qed.

(** X8.  [buildPackage] only looks and reports: whatever the profile and the
    arguments, it makes no call that acts on the world, so it never starts
    a build, and the world is as it was. *)
Theorem buildPackage_never_builds (profile : string) (args : list string)
  (w : W) :
  Forall (fun ev => isCall ev = false)
    (trace (buildPackage env profile args w)) /\
  world (buildPackage env profile args w) = w.
Proof.
  cut (emits (fun ev => isCall ev = false) (buildPackage env profile args)
       /\ inert (buildPackage env profile args));
    [intros [He Hi]; split; [apply He | apply Hi]|].
  unfold buildPackage, IsInstalled.
  set (bk := NewBackingImage profile).
  split.
  - apply emits_bind.
    { destruct args as [|a [|b rest]];
        first [apply emits_ret | intros w'; simpl; repeat constructor]. }
    intros pkgPath; destruct (negb (IsValidProfile profile)).
    { apply emits_bind;
        [apply emits_EmitProfileError; reflexivity | intros; apply emits_ret]. }
    destruct (TrimSpace pkgPath =? ""); [apply emits_ret|].
    apply emits_bind; [apply emits_PathExists; reflexivity | intros installed].
    destruct (negb installed).
    { apply emits_bind; [apply emits_emit; reflexivity | intros; apply emits_ret]. }
    apply emits_bind; [intros w'; simpl; repeat constructor|].
    intros [pkg [err|]].
    { apply emits_bind; [apply emits_emit; reflexivity | intros; apply emits_ret]. }
    apply emits_bind; [apply emits_emit; reflexivity | intros _].
    apply emits_bind; [|intros; apply emits_ret].
    destruct (negb _); [apply emits_emit; reflexivity | apply emits_ret].
  - apply inert_bind.
    { destruct args as [|a [|b rest]];
        first [apply inert_ret | intros w'; reflexivity]. }
    intros pkgPath; destruct (negb (IsValidProfile profile)).
    { apply inert_bind;
        [apply inert_EmitProfileError | intros; apply inert_ret]. }
    destruct (TrimSpace pkgPath =? ""); [apply inert_ret|].
    apply inert_bind; [apply inert_PathExists | intros installed].
    destruct (negb installed).
    { apply inert_bind; [apply inert_emit | intros; apply inert_ret]. }
    apply inert_bind; [intros w'; reflexivity|].
    intros [pkg [err|]].
    { apply inert_bind; [apply inert_emit | intros; apply inert_ret]. }
    apply inert_bind; [apply inert_emit | intros _].
    apply inert_bind; [|intros; apply inert_ret].
    destruct (negb _); [apply inert_emit | apply inert_ret].
Qed.

(** X9.  [buildPackage] returns an error in one case only: the profile is a
    known one and the file name, given or found, is empty once the white
    space around it is removed.  A missing image and a descriptor that
    cannot be loaded are reported on standard error and answered with nil. *)
Theorem buildPackage_error (profile : string) (args : list string) (w : W) :
  result (buildPackage env profile args w)
  = Val (if IsValidProfile profile
            && (TrimSpace match args with
                          | [a] => a
                          | _ => findLikelyArg env w
                          end =? "")
         then Some ("Require a filename to build" : error)
         else None).
Proof.
  unfold buildPackage, IsInstalled.
  set (bk := NewBackingImage profile).
  destruct args as [|a [|b rest]]; unfold bind at 1, ret at 1;
    (destruct (IsValidProfile profile); cbn [negb andb]; [|reflexivity]);
    (destruct (TrimSpace _ =? ""); [reflexivity|]);
    unfold bind at 1; rewrite PathExists_run;
    (destruct (existsAt env (Img.ImagePath bk) w); cbn [negb]; [|reflexivity]);
    unfold bind at 1;
    (destruct (newPackage env _ w) as [pkg [err|]]; [reflexivity|]);
    destruct (negb (PackageType_eqb (Type_ pkg) PackageTypeYpkg)); reflexivity.
Qed.

Lemma updateProfile_run (flag : string) (args : list string) (w : W) :
  let profile := match args with
                 | [a] => TrimSpace a
                 | _ => flag
                 end in
  let bk := NewBackingImage profile in
  updateProfile env flag args w =
  if IsValidProfile profile
  then
    if existsAt env (Img.ImagePath bk) w
    then
      if (geteuid env w =? 0)%Z
      then
        (Val match fst (exec env (ImageUpdate bk) w) with
             | Some _ => OsExit 1
             | None => Returns None
             end,
         snd (exec env (ImageUpdate bk) w),
         [EvQuery (QStat (Img.ImagePath bk)); EvQuery QGeteuid;
          EvCall (ImageUpdate bk)])
      else
        (Val (OsExit 1), w,
         [EvQuery (QStat (Img.ImagePath bk)); EvQuery QGeteuid;
          EvStderr ("You must be root to run init profiles" ++ nl)])
    else
      (Val (OsExit 1), w,
       [EvQuery (QStat (Img.ImagePath bk));
        EvStderr ("Cannot find profile '" ++ profile
                    ++ "'. Did you forget to run init?" ++ nl)])
  else (Val (Returns None), w, profileError profile).
Proof.
  intros profile bk; unfold updateProfile, IsInstalled; fold profile; fold bk.
  destruct (IsValidProfile profile); cbn [negb]; [|reflexivity].
  unfold bind at 1; rewrite PathExists_run.
  destruct (existsAt env (Img.ImagePath bk) w); cbn [negb]; [|reflexivity].
  unfold bind at 1; cbn [fst snd].
  destruct (geteuid env w =? 0)%Z; cbn [negb]; [|reflexivity].
  rewrite bind_call.
  destruct (fst (exec env (ImageUpdate bk) w)); reflexivity.
Qed.

(** X10.  [updateProfile] calls [Update] only on the backing image of the
    profile in force (the trimmed argument when exactly one is given, the
    flag otherwise), and only when that profile is known, its image is
    installed and the effective user is root.  It makes no other call. *)
Theorem updateProfile_guards (flag : string) (args : list string) (w : W)
  (c : Call) :
  let profile := match args with
                 | [a] => TrimSpace a
                 | _ => flag
                 end in
  In (EvCall c) (trace (updateProfile env flag args w)) ->
  c = ImageUpdate (NewBackingImage profile) /\
  IsValidProfile profile = true /\
  existsAt env (Img.ImagePath (NewBackingImage profile)) w = true /\
  geteuid env w = 0%Z.
Proof.
  intros profile; rewrite updateProfile_run; fold profile.
  set (bk := NewBackingImage profile).
  destruct (IsValidProfile profile).
  - destruct (existsAt env (Img.ImagePath bk) w).
    + destruct (geteuid env w =? 0)%Z eqn:E.
      * apply Z.eqb_eq in E.
        intros [H|[H|[H|[]]]]; try discriminate.
        injection H as <-; auto.
      * intros [H|[H|[H|[]]]]; discriminate.
    + intros [H|[H|[]]]; discriminate.
  - intros H; repeat (destruct H as [H|H]; [discriminate|]); contradiction.
Qed.

(** X11.  [updateProfile] ends the process with status 1 exactly when the
    profile in force is known and its image is missing, or the user is not
    root, or the update fails; in every other case, an unknown profile
    included, it returns normally, with nothing to report: the outcome is
    never anything but one of these two. *)
Theorem updateProfile_exit (flag : string) (args : list string) (w : W) :
  let profile := match args with
                 | [a] => TrimSpace a
                 | _ => flag
                 end in
  let stops :=
    IsValidProfile profile = true /\
    (existsAt env (Img.ImagePath (NewBackingImage profile)) w = false \/
     geteuid env w <> 0%Z \/
     fst (exec env (ImageUpdate (NewBackingImage profile)) w) <> None) in
  (result (updateProfile env flag args w) = Val (OsExit 1) <-> stops) /\
  (result (updateProfile env flag args w) = Val (Returns None) <-> ~ stops).
Proof.
  intros profile stops; subst stops; rewrite updateProfile_run; fold profile.
  set (bk := NewBackingImage profile).
  destruct (IsValidProfile profile).
  - destruct (existsAt env (Img.ImagePath bk) w).
    + destruct (geteuid env w =? 0)%Z eqn:E.
      * apply Z.eqb_eq in E.
        destruct (fst (exec env (ImageUpdate bk) w)); unfold result; simpl.
        -- split; split; try discriminate; try reflexivity.
           ++ intros _; split; [reflexivity|]; right; right; discriminate.
           ++ intros H; exfalso; apply H; split; [reflexivity|].
              right; right; discriminate.
        -- split; split; try discriminate; try reflexivity.
           ++ intros [_ [H|[H|H]]]; [discriminate | contradiction | contradiction].
           ++ intros _ [_ [H|[H|H]]];
                [discriminate | contradiction | contradiction].
      * apply Z.eqb_neq in E; unfold result; simpl.
        split; split; try discriminate; try reflexivity.
        -- intros _; auto.
        -- intros H; exfalso; apply H; auto.
    + unfold result; simpl; split; split; try discriminate; try reflexivity.
      * intros _; auto.
      * intros H; exfalso; apply H; auto.
  - unfold result; simpl; split; split; try discriminate; try reflexivity.
    + intros [H _]; discriminate.
    + intros _ [H _]; discriminate.
Qed.

End MoreCommands.

(** ** Further properties: [Build] stops at the first fatal failure *)

Section FailFast.

Variable W : Type.
Variable env : Env W.
Variable BuildUser : string.
Variable BuildUserHome : string.

Lemma ff_bind (A B : Type) (isErrA : A -> error -> Prop)
  (isErrB : B -> error -> Prop) (m : M (W * Journal) A) (k : A -> M (W * Journal) B) :
  failsFast isErrA m ->
  (forall a, failsFast isErrB (k a)) ->
  (forall a err, isErrA a err -> handsOn isErrB (k a) err) ->
  failsFast isErrB (bind m k).
Proof.
  intros Hm Hk Hpass st.
  destruct (Hm st) as (jm & Hj & Hf).
  destruct (m st) as [[[a|msg] st1] t1] eqn:E.
  - rewrite (bind_val m k st E).
    destruct (Hk a st1) as (jk & Hjk & Hfk).
    unfold world in Hj; simpl in Hj.
    exists (jm ++ jk); split.
    { unfold world at 1; cbn [fst snd]; rewrite Hjk, Hj, app_assoc; reflexivity. }
    intros j1 c err j2 Heq Hfatal.
    unfold result at 1; cbn [fst].
    apply app_eq_app in Heq as [l [[H1 H2]|[H1 H2]]].
    + destruct l as [|e l].
      * rewrite app_nil_r in H1; subst j1.
        apply (Hfk [] c err j2); [symmetry; exact H2 | assumption].
      * injection H2 as <- H2.
        destruct (Hf j1 c err l H1 Hfatal) as (Hl & a' & Ha' & Herr).
        unfold result in Ha'; simpl in Ha'; injection Ha' as <-.
        destruct (Hpass a err Herr st1) as (Hw & b & Hb & Hberr).
        rewrite Hw in Hjk.
        assert (jk = []) by (apply (app_inv_head (snd st1)); rewrite app_nil_r;
                             symmetry; exact Hjk).
        subst l jk; split; [assumption | eauto].
    + apply (Hfk l c err j2); assumption.
  - rewrite (bind_panic m k st E); exists jm; split; [assumption|].
    intros j1 c err j2 Heq Hfatal.
    destruct (Hf j1 c err j2 Heq Hfatal) as (_ & a & Ha & _); discriminate.
Qed.

Lemma ff_inert (A : Type) (isErr : A -> error -> Prop) (m : M (W * Journal) A) :
  inert m -> failsFast isErr m.
Proof.
  intros H st; exists []; rewrite H, app_nil_r; split; [reflexivity|].
  intros [|? ?] ? ? ? Heq; discriminate.
Qed.

Lemma ff_weaken (A : Type) (isErr : A -> error -> Prop) (m : M (W * Journal) A) :
  failsFast noError m -> failsFast isErr m.
Proof.
  intros H st; destruct (H st) as (jm & Hj & Hf); exists jm; split;
    [assumption|].
  intros j1 c err j2 Heq Hfatal.
  destruct (Hf j1 c err j2 Heq Hfatal) as (_ & a & _ & []).
Qed.

Lemma call_recording (c : Call) (st : W * Journal) :
  call (recording env) c st
  = (Val (fst (exec env c (fst st))),
     (snd (exec env c (fst st)), snd st ++ [(c, fst (exec env c (fst st)))]),
     [EvCall c]).
Proof.
  destruct st as [w j]; unfold call, recording; simpl.
  destruct (exec env c w); reflexivity.
Qed.

Lemma ff_call (c : Call) : failsFast isError (call (recording env) c).
Proof.
  intros st; rewrite call_recording.
  exists [(c, fst (exec env c (fst st)))]; split; [reflexivity|].
  intros [|e j1] c' err j2 Heq Hfatal; simpl in Heq.
  - injection Heq as _ Hr <-.
    split; [reflexivity|]; eexists; split; [reflexivity | exact Hr].
  - injection Heq as _ Heq; destruct j1; discriminate.
Qed.

Lemma ff_call_forgiven (isErr : option error -> error -> Prop)
  (c : Call) :
  fatal c = false -> failsFast isErr (call (recording env) c).
Proof.
  intros Hc st; rewrite call_recording.
  exists [(c, fst (exec env c (fst st)))]; split; [reflexivity|].
  intros [|e j1] c' err j2 Heq Hfatal; simpl in Heq.
  - injection Heq as <- _ _; congruence.
  - injection Heq as _ Heq; destruct j1; discriminate.
Qed.

Lemma handsOn_ret (A : Type) (isErr : A -> error -> Prop) (a : A) (err : error) :
  isErr a err -> handsOn isErr (ret (W:=W * Journal) a) err.
Proof.
  intros H st; split; [reflexivity | exists a; split; [reflexivity | exact H]].
Qed.

Lemma handsOn_log (A : Type) (isErr : A -> error -> Prop) (a : A) (err : error)
  l msg fields :
  isErr a err ->
  handsOn isErr (bind (logf (W:=W * Journal) l msg fields) (fun _ => ret a)) err.
Proof. intros H st; split; [reflexivity | exists a; split; [reflexivity | exact H]]. Qed.

Lemma ff_ret (A : Type) (isErr : A -> error -> Prop) (a : A) :
  failsFast isErr (ret (W:=W * Journal) a).
Proof. apply ff_inert, inert_ret. Qed.

Lemma ff_logf (A : Type) (isErr : A -> error -> Prop) l msg fields
  (k : M (W * Journal) A) :
  failsFast isErr k -> failsFast isErr (bind (logf l msg fields) (fun _ => k)).
Proof.
  intros Hk; apply (ff_bind (isErrA:=noError));
    [apply ff_inert, inert_emit | intros _; exact Hk | intros ? ? []].
Qed.

(** [if err := c; err != nil { log; return err }] keeps the property when
    the handler only logs. *)
Lemma ff_orReturn (c : M (W * Journal) (option error)) (h : error -> M (W * Journal) unit)
  (k : M (W * Journal) (option error)) :
  failsFast isError c ->
  (forall err, inert (h err) /\ total (h err)) ->
  failsFast isError k ->
  failsFast isError (orReturn c h k).
Proof.
  intros Hc Hh Hk; unfold orReturn.
  apply (ff_bind (isErrA:=isError)); [assumption | |].
  - intros [err|]; [|assumption].
    apply ff_inert, inert_bind; [apply Hh | intros; apply inert_ret].
  - intros r err Hr; unfold isError in Hr; subst r; intros st.
    destruct (Hh err) as [Hi Ht].
    split; [apply inert_bind; [assumption | intros; apply inert_ret]|].
    destruct (Ht st) as [u Hu].
    destruct (h err st) as [[r st1] t1] eqn:E; unfold result in Hu;
      simpl in Hu; subst r.
    rewrite (bind_val (h err) _ st E).
    exists (Some err); split; reflexivity.
Qed.

Lemma ff_forRange (A : Type) (body : A -> M (W * Journal) Flow) (l : list A)
  (after : M (W * Journal) (option error)) :
  (forall x, failsFast isReturn (body x)) ->
  failsFast isError after ->
  failsFast isError (forRange body l after).
Proof.
  intros Hb Ha; induction l as [|x l IH]; simpl; [assumption|].
  apply (ff_bind (isErrA:=isReturn)); [apply Hb | |].
  - intros [|r]; [assumption | apply ff_ret].
  - intros f err Hf; unfold isReturn in Hf; subst f; apply handsOn_ret; reflexivity.
Qed.

Lemma inert_fromSlice (s : option string) : inert (fromSlice (W:=W * Journal) s).
Proof. intros st; destruct s; reflexivity. Qed.

Lemma logs_only l msg fields :
  inert (logf (W:=W * Journal) l msg fields) /\
  total (logf (W:=W * Journal) l msg fields).
Proof. split; [apply inert_emit | apply total_logf]. Qed.

Lemma quiet_only (err : error) :
  inert (quiet (W:=W * Journal) err) /\ total (quiet (W:=W * Journal) err).
Proof. split; [apply inert_ret | apply total_ret]. Qed.

Lemma ff_FetchSources (p : Package) (o : Overlay) :
  failsFast isError (FetchSources (recording env) p o).
Proof.
  apply ff_forRange; [|apply ff_ret].
  intros s; unfold fetchSource.
  apply (ff_bind (isErrA:=noError));
    [apply ff_inert; intros st; reflexivity | | intros ? ? []].
  intros [|]; [apply ff_ret|].
  apply ff_logf.
  apply (ff_bind (isErrA:=noError));
    [apply ff_call_forgiven; reflexivity | | intros ? ? []].
  intros [err|]; [apply ff_logf|]; apply ff_ret.
Qed.

Lemma ff_CopyAssets (p : Package) (o : Overlay) :
  failsFast isError (CopyAssets (recording env) BuildUserHome p o).
Proof.
  unfold CopyAssets.
  apply (ff_bind (isErrA:=noError));
    [apply ff_inert; intros st; reflexivity | | intros ? ? []].
  intros [abs [err|]]; [apply ff_ret|].
  apply (ff_bind (isErrA:=noError));
    [apply ff_inert, inert_fromSlice | | intros ? ? []].
  intros destdir; apply ff_forRange; [|apply ff_ret].
  intros name; unfold copyAsset.
  apply (ff_bind (isErrA:=isError)); [apply ff_call | |].
  - intros [err|]; apply ff_ret.
  - intros r err Hr; unfold isError in Hr; subst r; apply handsOn_ret; reflexivity.
Qed.

Lemma ff_BindSources (p : Package) (o : Overlay) :
  failsFast isError (BindSources (recording env) BuildUserHome p o).
Proof.
  apply ff_forRange; [|apply ff_ret].
  intros s; unfold bindSource.
  apply (ff_bind (isErrA:=noError));
    [apply ff_inert, inert_fromSlice | | intros ? ? []].
  intros sourceDir.
  apply (ff_bind (isErrA:=noError));
    [apply ff_inert, inert_PathExists | | intros ? ? []].
  intros present.
  apply (ff_bind (isErrA:=isError)).
  - destruct (negb present); [apply ff_call | apply ff_ret].
  - intros [err|]; [apply ff_logf, ff_ret|].
    apply ff_logf.
    apply (ff_bind (isErrA:=noError));
      [apply ff_call_forgiven; reflexivity | | intros ? ? []].
    intros [err|]; [apply ff_logf, ff_ret|].
    apply (ff_bind (isErrA:=isError)); [apply ff_call | |].
    + intros [err|]; [apply ff_logf|]; apply ff_ret.
    + intros r err Hr; unfold isError in Hr; subst r; apply handsOn_log; reflexivity.
  - intros r err Hr; unfold isError in Hr; subst r; apply handsOn_log; reflexivity.
Qed.

(** One step of a proof that a sequence of guarded calls fails fast. *)
Ltac ff_step :=
  first
    [ apply ff_logf
    | apply ff_orReturn;
      [ first [apply ff_call | apply ff_CopyAssets | apply ff_FetchSources
              | apply ff_BindSources]
      | intro; first [apply logs_only | apply quiet_only]
      | ]
    | apply ff_ret ].

Lemma co_bind (A B : Type) (P : Call -> bool) (m : M (W * Journal) A)
  (k : A -> M (W * Journal) B) :
  callsOnly P m -> (forall a, callsOnly P (k a)) -> callsOnly P (bind m k).
Proof.
  intros Hm Hk st; destruct (Hm st) as (jm & Hj & Hf).
  destruct (m st) as [[[a|msg] st1] t1] eqn:E.
  - rewrite (bind_val m k st E).
    destruct (Hk a st1) as (jk & Hjk & Hfk).
    unfold world in Hj; simpl in Hj.
    exists (jm ++ jk); split; [|apply Forall_app; split; assumption].
    unfold world at 1; cbn [fst snd]; rewrite Hjk, Hj, app_assoc; reflexivity.
  - rewrite (bind_panic m k st E); exists jm; split; assumption.
Qed.

Lemma co_inert (A : Type) (P : Call -> bool) (m : M (W * Journal) A) :
  inert m -> callsOnly P m.
Proof.
  intros H st; exists []; rewrite H, app_nil_r; split; [reflexivity | constructor].
Qed.

Lemma co_call (P : Call -> bool) (c : Call) :
  P c = true -> callsOnly P (call (recording env) c).
Proof.
  intros Hc st; rewrite call_recording.
  exists [(c, fst (exec env c (fst st)))]; split; [reflexivity|].
  repeat constructor; exact Hc.
Qed.

Lemma co_forRange (A : Type) (P : Call -> bool)
  (body : A -> M (W * Journal) Flow) (l : list A)
  (after : M (W * Journal) (option error)) :
  (forall x, callsOnly P (body x)) -> callsOnly P after ->
  callsOnly P (forRange body l after).
Proof.
  intros Hb Ha; induction l as [|x l IH]; simpl; [assumption|].
  apply co_bind; [apply Hb|].
  intros [|r]; [assumption | apply co_inert, inert_ret].
Qed.

(** One step of a proof that a function of the builder never cleans the
    overlay. *)
Ltac co_step :=
  first
    [ apply co_inert;
      first [apply inert_ret | apply inert_emit | apply inert_fromSlice
            | apply inert_PathExists | intros ?; reflexivity]
    | apply co_call; reflexivity
    | apply co_forRange
    | apply co_bind
    | match goal with
      | |- callsOnly _ (if ?b then _ else _) => destruct b
      | |- callsOnly _ (match ?x with Some _ => _ | None => _ end) => destruct x
      | |- callsOnly _ (match ?x with (_, _) => _ end) => destruct x
      | |- forall _, _ => intro
      end ].

Lemma co_FetchSources (p : Package) (o : Overlay) :
  callsOnly notCleanExisting (FetchSources (recording env) p o).
Proof. unfold FetchSources, fetchSource, logf; repeat co_step. Qed.

Lemma co_CopyAssets (p : Package) (o : Overlay) :
  callsOnly notCleanExisting (CopyAssets (recording env) BuildUserHome p o).
Proof. unfold CopyAssets, copyAsset; repeat co_step. Qed.

Lemma co_BindSources (p : Package) (o : Overlay) :
  callsOnly notCleanExisting (BindSources (recording env) BuildUserHome p o).
Proof. unfold BindSources, bindSource, logf; repeat co_step. Qed.

Lemma exec_recording (c : Call) (w : W) (j : Journal) :
  exec (recording env) c (w, j)
  = (fst (exec env c w), (snd (exec env c w), j ++ [(c, fst (exec env c w))])).
Proof. simpl; destruct (exec env c w); reflexivity. Qed.

Lemma withDefer_recording (A : Type) (c : Closure)
  (body : M (W * Journal) A) (st : W * Journal) :
  result (withDefer (recording env) c body st) = result (body st) /\
  snd (world (withDefer (recording env) c body st))
  = snd (world (body st))
      ++ [(Invoke c, fst (exec env (Invoke c) (fst (world (body st)))))].
Proof.
  rewrite withDefer_run.
  destruct (world (body st)) as [wb jb]; rewrite exec_recording.
  split; reflexivity.
Qed.

Lemma between_entries (T : Type) (a z e : T) (jm j1 j2 : list T) :
  ([a] ++ jm) ++ [z] = j1 ++ e :: j2 -> e <> a -> e <> z ->
  exists j1' j2', jm = j1' ++ e :: j2' /\ j2 = j2' ++ [z].
Proof.
  intros H Ha Hz; destruct j1 as [|x j1]; simpl in H; injection H as Hx H.
  - congruence.
  - apply app_eq_app in H as [l [[H1 H2]|[H1 H2]]].
    + destruct l as [|y l]; simpl in H2; injection H2 as He H2.
      * congruence.
      * subst y; eauto.
    + destruct l as [|y l]; simpl in H2; injection H2 as He H2.
      * congruence.
      * destruct l; discriminate.
Qed.

Lemma Build_fail_fast_recorded (p : Package) (img : BackingImage) (w : W)
  (j1 j2 : Journal) (c : Call) (err : error) :
  let r := Build (recording env) BuildUser BuildUserHome p img (w, []) in
  let o := newOverlay env img p in
  let reaper := GrimReaper o p (NewEopkgManager (MountPoint o)) in
  snd (world r) = j1 ++ (c, Some err) :: j2 ->
  fatal c = true ->
  result r = Val (Some err) /\
  if notCleanExisting c
  then j1 <> [] /\ exists x, j2 = [(Invoke reaper, x)]
  else c = CleanExisting o /\ j1 = [] /\ j2 = [].
Proof.
  intros r o reaper; subst r; unfold Build.
  rewrite bind_logf, orReturn_call.
  change (newOverlay (recording env) img p) with o; fold reaper.
  rewrite exec_recording; cbn [fst snd app].
  destruct (fst (exec env (CleanExisting o) w)) as [e|] eqn:Hclean.
  - unfold preceded, result, world, trace, bind, quiet, ret; cbn [fst snd].
    intros Hj Hfatal.
    destruct j1 as [|x j1]; simpl in Hj.
    + injection Hj as <- <- <-; simpl; auto.
    + injection Hj as _ Hj; destruct j1; discriminate.
  - set (st1 := (snd (exec env (CleanExisting o) w),
                 [(CleanExisting o, @None error)])).
    match goal with
    | |- context [withDefer _ _ ?B] =>
        assert (HB : failsFast isError B);
        [ apply (ff_bind (isErrA:=noError));
          [apply ff_call_forgiven; reflexivity | intros _ | intros ? ? []];
          do 11 ff_step;
          destruct (PackageType_eqb (Type_ p) PackageTypeYpkg);
          [unfold buildYpkg | unfold buildLegacy]; repeat ff_step
        | assert (HC : callsOnly notCleanExisting B);
          [ unfold buildYpkg, buildLegacy, orReturn, logf, quiet;
            repeat first [ apply co_FetchSources | apply co_CopyAssets
                         | apply co_BindSources | co_step ]
          | destruct (HB st1) as (jm & Hjm & Hff);
            destruct (HC st1) as (jc & Hjc & Hall);
            destruct (withDefer_recording reaper B st1) as [Hres Hjournal];
            set (R := withDefer (recording env) reaper B st1) in *;
            set (rb := B st1) in * ] ]
    end.
    assert (jc = jm) by
      (apply (app_inv_head (snd st1)); transitivity (snd (world rb));
       [symmetry; exact Hjc | exact Hjm]).
    subst jc.
    change (snd (world R) = j1 ++ (c, Some err) :: j2 -> fatal c = true ->
            result R = Val (Some err) /\
            if notCleanExisting c
            then j1 <> [] /\ exists x, j2 = [(Invoke reaper, x)]
            else c = CleanExisting o /\ j1 = [] /\ j2 = []).
    rewrite Hres, Hjournal, Hjm; intros Hj Hfatal.
    assert (Hfirst : j1 <> []).
    { intros ->; unfold st1 in Hj; simpl in Hj; injection Hj as _ Hc _.
      discriminate. }
    apply between_entries in Hj as (j1' & j2' & Hmid & ->).
    + destruct (Hff _ _ _ _ Hmid Hfatal) as (-> & a & Ha & Herr).
      unfold isError in Herr; subst a.
      rewrite Hmid in Hall; apply Forall_app in Hall as [_ Hall].
      apply Forall_inv in Hall; cbn [fst] in Hall; rewrite Hall.
      split; [exact Ha | split; [exact Hfirst | eexists; reflexivity]].
    + discriminate.
    + intros H; injection H as -> _; discriminate Hfatal.
Qed.

End FailFast.

(** ** The journal does not change what the builder does *)

Section Mirror.

Variable W : Type.
Variable env : Env W.
Variable BuildUser : string.
Variable BuildUserHome : string.

Lemma mirrors_ret (A : Type) (a : A) : mirrors (ret (W:=W) a) (ret a).
Proof. intros w j; repeat split. Qed.

Lemma mirrors_emit (e : Event) : mirrors (emit (W:=W) e) (emit e).
Proof. intros w j; repeat split. Qed.

Lemma mirrors_fromSlice (s : option string) :
  mirrors (fromSlice (W:=W) s) (fromSlice s).
Proof. intros w j; destruct s; repeat split. Qed.

Lemma mirrors_call (c : Call) : mirrors (call env c) (call (recording env) c).
Proof.
  intros w j; rewrite call_recording; unfold call, result, world, trace.
  simpl; destruct (exec env c w); repeat split.
Qed.

Lemma mirrors_PathExists (path : string) :
  mirrors (PathExists env path) (PathExists (recording env) path).
Proof. intros w j; rewrite !PathExists_run; repeat split. Qed.

Lemma mirrors_Source_IsFetched (s : Source) (h : string) :
  mirrors (Source_IsFetched env s h) (Source_IsFetched (recording env) s h).
Proof. intros w j; repeat split. Qed.

Lemma mirrors_bind (A B : Type) (m : M W A) (m' : M (W * Journal) A)
  (k : A -> M W B) (k' : A -> M (W * Journal) B) :
  mirrors m m' -> (forall a, mirrors (k a) (k' a)) ->
  mirrors (bind m k) (bind m' k').
Proof.
  intros Hm Hk w j; destruct (Hm w j) as (Hr & Hw & Ht); unfold bind.
  destruct (m w) as [[r w1] t1], (m' (w, j)) as [[r' [w1' j1]] t1'].
  unfold result, world, trace in *; simpl in *; subst r' w1' t1'.
  destruct r as [a|msg]; [|repeat split].
  destruct (Hk a w1 j1) as (Hr2 & Hw2 & Ht2).
  destruct (k a w1) as [[r2 w2] t2], (k' a (w1, j1)) as [[r2' [w2' j2]] t2'].
  unfold result, world, trace in *; simpl in *; subst; repeat split.
Qed.

Lemma mirrors_orReturn (c : M W (option error)) (c' : M (W * Journal) (option error))
  (h : error -> M W unit) (h' : error -> M (W * Journal) unit)
  (k : M W (option error)) (k' : M (W * Journal) (option error)) :
  mirrors c c' -> (forall err, mirrors (h err) (h' err)) -> mirrors k k' ->
  mirrors (orReturn c h k) (orReturn c' h' k').
Proof.
  intros Hc Hh Hk; apply mirrors_bind; [assumption|].
  intros [err|]; [|assumption].
  apply mirrors_bind; [apply Hh | intros; apply mirrors_ret].
Qed.

Lemma mirrors_forRange (A : Type) (body : A -> M W Flow)
  (body' : A -> M (W * Journal) Flow) (l : list A)
  (after : M W (option error)) (after' : M (W * Journal) (option error)) :
  (forall x, mirrors (body x) (body' x)) -> mirrors after after' ->
  mirrors (forRange body l after) (forRange body' l after').
Proof.
  intros Hb Ha; induction l as [|x l IH]; simpl; [assumption|].
  apply mirrors_bind; [apply Hb|].
  intros [|err]; [assumption | apply mirrors_ret].
Qed.

Lemma mirrors_withDefer (A : Type) (c : Closure) (body : M W A)
  (body' : M (W * Journal) A) :
  mirrors body body' ->
  mirrors (withDefer env c body) (withDefer (recording env) c body').
Proof.
  intros Hb w j; rewrite !withDefer_run.
  destruct (Hb w j) as (Hr & Hw & Ht).
  destruct (world (body' (w, j))) as [wb jb] eqn:E; simpl in Hw; subst wb.
  rewrite exec_recording; unfold result at 1 3, world at 1 3, trace at 1 4.
  cbn [fst snd]; rewrite Hr, Ht; repeat split.
Qed.

(** One step of a proof that a function of the builder does over the
    recording collaborators what it does over the plain ones. *)
Ltac mirror_step :=
  first
    [ apply mirrors_ret | apply mirrors_emit | apply mirrors_fromSlice
    | apply mirrors_call | apply mirrors_PathExists
    | apply mirrors_Source_IsFetched
    | apply mirrors_orReturn | apply mirrors_bind
    | match goal with
      | |- mirrors (if ?b then _ else _) _ => destruct b
      | |- mirrors (match ?x with Some _ => _ | None => _ end) _ => destruct x
      | |- forall _, _ => intro
      end ].

Lemma mirrors_FetchSources (p : Package) (o : Overlay) :
  mirrors (FetchSources env p o) (FetchSources (recording env) p o).
Proof.
  apply mirrors_forRange; [|apply mirrors_ret].
  intros s; unfold fetchSource, logf; repeat mirror_step.
Qed.

Lemma mirrors_BindSources (p : Package) (o : Overlay) :
  mirrors (BindSources env BuildUserHome p o)
    (BindSources (recording env) BuildUserHome p o).
Proof.
  apply mirrors_forRange; [|apply mirrors_ret].
  intros s; unfold bindSource, logf.
  change (getPath (recording env)) with (getPath env).
  repeat mirror_step.
Qed.

Lemma mirrors_CopyAssets (p : Package) (o : Overlay) :
  mirrors (CopyAssets env BuildUserHome p o)
    (CopyAssets (recording env) BuildUserHome p o).
Proof.
  unfold CopyAssets; apply mirrors_bind; [intros w j; repeat split|].
  intros [abs [err|]]; [apply mirrors_ret|].
  apply mirrors_bind; [apply mirrors_fromSlice | intros destdir].
  apply mirrors_forRange; [|apply mirrors_ret].
  intros name; unfold copyAsset; repeat mirror_step.
Qed.

Lemma mirrors_Build (p : Package) (img : BackingImage) :
  mirrors (Build env BuildUser BuildUserHome p img)
    (Build (recording env) BuildUser BuildUserHome p img).
Proof.
  unfold Build, logf, quiet.
  change (newOverlay (recording env)) with (newOverlay env).
  apply mirrors_bind; [apply mirrors_emit | intros _].
  apply mirrors_orReturn; [apply mirrors_call | intro; apply mirrors_ret|].
  apply mirrors_withDefer.
  apply mirrors_bind; [apply mirrors_call | intros _].
  apply mirrors_orReturn; [apply mirrors_call | intro; apply mirrors_ret|].
  apply mirrors_orReturn;
    [apply mirrors_CopyAssets | intro; apply mirrors_emit|].
  apply mirrors_bind; [apply mirrors_emit | intros _].
  apply mirrors_orReturn;
    [apply mirrors_FetchSources | intro; apply mirrors_ret|].
  do 7 first
    [ apply mirrors_orReturn;
      [apply mirrors_call
      | intro; first [apply mirrors_ret | apply mirrors_emit] |]
    | apply mirrors_bind; [apply mirrors_emit | intros _] ].
  destruct (PackageType_eqb (Type_ p) PackageTypeYpkg).
  - unfold buildYpkg, logf, quiet.
    repeat first
      [ apply mirrors_BindSources
      | apply mirrors_orReturn;
        [ first [apply mirrors_call | apply mirrors_BindSources]
        | intro; first [apply mirrors_ret | apply mirrors_emit] |]
      | apply mirrors_bind; [apply mirrors_emit | intros _]
      | apply mirrors_ret ].
  - unfold buildLegacy, logf.
    repeat first
      [ apply mirrors_orReturn;
        [apply mirrors_call | intro; apply mirrors_emit |]
      | apply mirrors_bind; [apply mirrors_emit | intros _]
      | apply mirrors_ret ].
Qed.

(** X12.  Whatever the collaborators do, a failure of a call of [Build], other
    than the fetch of a source and the creation of a bind-mount target, is
    the end of the build: [Build] returns the error of that call.  When the
    failing call is the cleaning of the overlay, which is the first call of
    the build, no call at all follows it; every other failing call comes
    after it and is followed by one call and no more, the deferred reaper.
    The calls and their outcomes are read off the journal of the same run
    over the recording collaborators. *)
Theorem Build_fail_fast (p : Package) (img : BackingImage) (w : W)
  (j1 j2 : Journal) (c : Call) (err : error) :
  let r := Build (recording env) BuildUser BuildUserHome p img (w, []) in
  let o := newOverlay env img p in
  let reaper := GrimReaper o p (NewEopkgManager (MountPoint o)) in
  snd (world r) = j1 ++ (c, Some err) :: j2 ->
  fatal c = true ->
  result (Build env BuildUser BuildUserHome p img w) = Val (Some err) /\
  trace (Build env BuildUser BuildUserHome p img w) = trace r /\
  if notCleanExisting c
  then j1 <> [] /\ exists x, j2 = [(Invoke reaper, x)]
  else c = CleanExisting o /\ j1 = [] /\ j2 = [].
Proof.
  intros r o reaper Hj Hfatal.
  destruct (mirrors_Build p img w []) as (Hr & _ & Ht).
  destruct (@Build_fail_fast_recorded _ env BuildUser BuildUserHome p img w
              j1 j2 c err Hj Hfatal) as [Hres Hlast].
  split; [rewrite <- Hr; exact Hres | split; [symmetry; exact Ht | exact Hlast]].
Qed.

End Mirror.

(** ** Further properties: a build without its sources *)

Section WithoutSources.

Variable W : Type.
Variable env : Env W.
Variable BuildUser : string.
Variable BuildUserHome : string.

Hypothesis Habs : forall path w, snd (filepathAbs env path w) = None.
Hypothesis Hok :
  forall c w, (forall path, c <> TouchFile path) -> fst (exec env c w) = None.
Hypothesis Htouch : forall path w, fst (exec env (TouchFile path) w) <> None.

Lemma orReturn_call_fine (c : Call) (h : error -> M W unit)
  (k : M W (option error)) (w : W) :
  (forall path, c <> TouchFile path) ->
  orReturn (call env c) h k w = preceded [EvCall c] (k (snd (exec env c w))).
Proof. intros Hc; rewrite orReturn_call, Hok by assumption; reflexivity. Qed.

Lemma CopyAssets_fine (p : Package) (o : Overlay) (w : W) :
  result (CopyAssets env BuildUserHome p o w) = Val None.
Proof.
  destruct (GetWorkDir_defined BuildUserHome p o) as [destdir Hd].
  destruct (filepathAbs env (Filepath.Dir (Path p)) w) as [abs err] eqn:E.
  pose proof (Habs (Filepath.Dir (Path p)) w) as Ha; rewrite E in Ha;
    simpl in Ha; subst err.
  destruct (CopyAssets_run env BuildUserHome p o w) as (destdir' & Hd' & ->).
  rewrite E.
  assert (Hcont : forall x w', result (copyAsset env abs destdir' x w')
                               = Val Continue).
  { intros x w'; unfold copyAsset; rewrite bind_call, Hok;
      [reflexivity | discriminate]. }
  match goal with
  | |- context [forRange _ ?l _ w] =>
      destruct (runsThrough_all (copyAsset env abs destdir') l w Hcont)
        as (w1 & t1 & Hr);
      rewrite <- (app_nil_r l),
        (@forRange_through _ _ _ (ret None) _ [] _ _ _ Hr)
  end.
  reflexivity.
Qed.

Lemma BindSources_untouchable (p : Package) (o : Overlay) (w : W) :
  result (BindSources env BuildUserHome p o w) = Val None /\
  mounts (trace (BindSources env BuildUserHome p o w)) = [].
Proof.
  unfold BindSources; destruct (Sources p) as [|s l]; [split; reflexivity|].
  destruct (GetSourceDir_defined BuildUserHome p o) as [dir Hdir].
  assert (Hbody : exists w' t,
             bindSource env BuildUserHome p o s w = (Val (Return None), w', t)
             /\ mounts t = []).
  { unfold bindSource; rewrite Hdir.
    unfold fromSlice, bind, ret, logf, emit, call.
    rewrite PathExists_run.
    destruct (existsAt env dir w); cbn -[Filepath.Join].
    - pose proof (Htouch (Filepath.Join [dir; File s]) w) as Ht.
      destruct (exec env (TouchFile _) w) as [[e|] w1]; simpl in Ht;
        [|congruence].
      eexists _, _; split; reflexivity.
    - assert (Hm : fst (exec env (MkdirAll dir 493) w) = None)
        by (apply Hok; discriminate).
      destruct (exec env (MkdirAll dir 493) w) as [r0 w0]; simpl in Hm;
        subst r0.
      pose proof (Htouch (Filepath.Join [dir; File s]) w0) as Ht.
      destruct (exec env (TouchFile _) w0) as [[e|] w1]; simpl in Ht;
        [|congruence].
      eexists _, _; split; reflexivity. }
  destruct Hbody as (w' & t & Hb & Hm).
  rewrite (@forRange_return _ _ _ (ret None) _ l _ _ _ _ Hb).
  split; [reflexivity | exact Hm].
Qed.

Lemma mounts_none (t : list Event) :
  Forall (fun ev => isIsolationCall ev = false) t -> mounts t = [].
Proof.
  induction 1 as [|ev t Hev _ IH]; [reflexivity|].
  destruct ev as [[]| | | |]; simpl; try assumption; discriminate.
Qed.

(** X13.  When the bind-mount targets cannot be created and everything else
    succeeds, [Build] for a modern descriptor does not stop: no source is
    mounted into the sandbox, and yet the build command is run, as the
    last step before the reaper. *)
Theorem Build_without_sources (p : Package) (img : BackingImage) (w : W) :
  let o := newOverlay env img p in
  let pman := NewEopkgManager (MountPoint o) in
  let reaper := GrimReaper o p pman in
  let wdir := GetWorkDirInternal BuildUserHome p in
  let ymlFile := Filepath.Join [wdir; Filepath.Base (Path p)] in
  Type_ p = PackageTypeYpkg ->
  result (Build env BuildUser BuildUserHome p img w)
  = Val (Some "Not yet implemented") /\
  mounts (trace (Build env BuildUser BuildUserHome p img w)) = [] /\
  exists pre,
    trace (Build env BuildUser BuildUserHome p img w)
    = pre ++
      [EvLog Info "Now starting build of package" [("package", FStr (Name p))];
       EvCall (ChrootExec (MountPoint o)
                 ("/bin/su - " ++ BuildUser ++ " -- fakeroot ypkg-build -D "
                    ++ wdir ++ " " ++ ymlFile));
       EvCall (Invoke reaper)].
Proof.
  intros o pman reaper wdir ymlFile Ht; unfold Build.
  replace (PackageType_eqb (Type_ p) PackageTypeYpkg) with true
    by (rewrite Ht; reflexivity).
  rewrite bind_logf, orReturn_call_fine, withDefer_run, bind_call
    by discriminate.
  rewrite orReturn_call_fine by discriminate.
  rewrite orReturn_ok by apply CopyAssets_fine.
  rewrite bind_logf.
  rewrite orReturn_ok by apply FetchSources_ok.
  rewrite orReturn_call_fine, bind_logf, orReturn_call_fine, bind_logf,
    orReturn_call_fine, bind_logf, orReturn_call_fine by discriminate.
  unfold buildYpkg.
  rewrite bind_logf, orReturn_call_fine, bind_logf, orReturn_call_fine,
    orReturn_call_fine, orReturn_call_fine, orReturn_call_fine by discriminate.
  rewrite orReturn_ok by apply BindSources_untouchable.
  rewrite bind_logf, orReturn_call_fine by discriminate.
  fold o; fold pman; fold reaper; fold wdir; fold ymlFile.
  cbn [preceded trace result world fst snd app ret].
  match goal with
  | |- context [trace (CopyAssets env BuildUserHome p o ?w1)] =>
      pose proof (emits_CopyAssets env BuildUserHome
                    (fun ev => isIsolationCall ev = false)
                    (fun _ => eq_refl) p o (fun _ _ => eq_refl) w1) as HCopy;
      set (tCopy := trace (CopyAssets env BuildUserHome p o w1)) in *
  end.
  match goal with
  | |- context [trace (FetchSources env p o ?w1)] =>
      pose proof (emits_FetchSources env
                    (fun ev => isIsolationCall ev = false)
                    (fun _ => eq_refl) (fun _ _ _ => eq_refl) p o
                    (fun _ => eq_refl) w1) as HFetch;
      set (tFetch := trace (FetchSources env p o w1)) in *
  end.
  match goal with
  | |- context [trace (BindSources env BuildUserHome p o ?w1)] =>
      pose proof (proj2 (BindSources_untouchable p o w1)) as HBind;
      set (tBind := trace (BindSources env BuildUserHome p o w1)) in *
  end.
  clearbody tCopy tFetch tBind.
  split; [reflexivity | split].
  - apply mounts_none in HCopy, HFetch.
    cbn [mounts]; rewrite !mounts_app; cbn [mounts].
    rewrite !mounts_app; cbn [mounts].
    rewrite ?mounts_app, HCopy, HFetch; cbn [mounts app].
    rewrite ?mounts_app, HBind; reflexivity.
  - eexists
      ([_; _; _; _; _] ++ tCopy ++ [_] ++ tFetch
         ++ [_; _; _; _; _; _; _; _; _; _; _; _; _; _] ++ tBind).
    repeat (progress (cbn [app]; rewrite <- ?app_assoc)); reflexivity.
Qed.

End WithoutSources.

(** ** Further properties: external directories under a clean mount point *)

Lemma elements_sepfree (s : string) :
  Forall (fun e => hasSeparator e = false) (Filepath.elements s).
Proof.
  induction s as [|c s IH]; simpl; [repeat constructor|].
  destruct (Filepath.IsPathSeparator c) eqn:E; [constructor; [reflexivity | assumption]|].
  destruct (Filepath.elements s) as [|e es]; [repeat constructor; simpl; rewrite E; reflexivity|].
  inversion IH as [|? ? He Hes]; subst.
  constructor; [simpl; rewrite E, He; reflexivity | assumption].
Qed.

Lemma cleanElem_rooted_plain (out : list string) (e : string) :
  hasSeparator e = false ->
  Forall (fun x => plainElement x = true) out ->
  Forall (fun x => plainElement x = true) (Filepath.cleanElem true out e).
Proof.
  intros He H; unfold Filepath.cleanElem.
  destruct (e =? "") eqn:E0; simpl; [assumption|].
  destruct (e =? ".") eqn:E1; simpl; [assumption|].
  destruct (e =? "..") eqn:E2.
  - destruct out as [|top below]; [constructor|].
    inversion H as [|? ? Htop Hbelow]; subst.
    unfold plainElement in Htop.
    apply andb_true_iff in Htop as [_ Htop].
    apply negb_true_iff in Htop; rewrite Htop; assumption.
  - constructor; [|assumption].
    unfold plainElement; rewrite He, E0, E1, E2; reflexivity.
Qed.

Lemma cleaned_rooted_plain (es out : list string) :
  Forall (fun e => hasSeparator e = false) es ->
  Forall (fun x => plainElement x = true) out ->
  Forall (fun x => plainElement x = true)
    (fold_left (Filepath.cleanElem true) es out).
Proof.
  revert out; induction es as [|e es IH]; simpl; intros out Hes H; [assumption|].
  inversion Hes; subst; apply IH; [assumption|].
  apply cleanElem_rooted_plain; assumption.
Qed.

Lemma fold_plain (rooted : bool) (l out : list string) :
  Forall (fun x => plainElement x = true) l ->
  fold_left (Filepath.cleanElem rooted) l out = rev l ++ out.
Proof.
  revert out; induction l as [|e l IH]; simpl; intros out H; [reflexivity|].
  inversion H; subst.
  rewrite cleanElem_plain, IH, <- app_assoc by assumption; reflexivity.
Qed.

Lemma plainElement_sepfree (e : string) :
  plainElement e = true -> hasSeparator e = false.
Proof.
  unfold plainElement; intros H.
  repeat (apply andb_true_iff in H as [H ?]).
  apply negb_true_iff; assumption.
Qed.

Lemma elements_concat (l : list string) :
  l <> [] -> Forall (fun x => plainElement x = true) l ->
  Filepath.elements (String.concat "/" l) = l.
Proof.
  induction l as [|x l IH]; intros Hne H; [congruence|].
  inversion H as [|? ? Hx Hl]; subst.
  destruct l as [|y l].
  - simpl; apply elements_plain, plainElement_sepfree; assumption.
  - change (String.concat "/" (x :: y :: l))
      with (x ++ "/" ++ String.concat "/" (y :: l))%string.
    rewrite elements_app, IH, elements_plain;
      [reflexivity | apply plainElement_sepfree; assumption | discriminate
      | assumption].
Qed.

Lemma concat_app (l1 l2 : list string) :
  l1 <> [] -> l2 <> [] ->
  String.concat "/" (l1 ++ l2)
  = (String.concat "/" l1 ++ "/" ++ String.concat "/" l2)%string.
Proof.
  induction l1 as [|x l1 IH]; intros H1 H2; [congruence|].
  destruct l1 as [|y l1].
  - destruct l2; [congruence | reflexivity].
  - change (String.concat "/" ((x :: y :: l1) ++ l2))
      with (x ++ "/" ++ String.concat "/" ((y :: l1) ++ l2))%string.
    rewrite IH by (assumption || discriminate).
    change (String.concat "/" (x :: y :: l1))
      with (x ++ "/" ++ String.concat "/" (y :: l1))%string.
    rewrite !append_assoc; reflexivity.
Qed.

(** A clean absolute path behind another one: nothing is left to clean. *)
Lemma Clean_append (a b : string) :
  cleanAbsolute a -> cleanAbsolute b ->
  Filepath.Clean (a ++ b) = (a ++ b)%string.
Proof.
  intros (Ha & Hra & ra & ->) (Hb & Hrb & rb & ->).
  set (outA := fold_left (Filepath.cleanElem true)
                 (Filepath.elements (String "/" ra)) []).
  set (outB := fold_left (Filepath.cleanElem true)
                 (Filepath.elements (String "/" rb)) []).
  assert (HA : String "/" ra = String "/" (String.concat "/" (rev outA)))
    by (rewrite <- Ha at 1; reflexivity).
  assert (HB : String "/" rb = String "/" (String.concat "/" (rev outB)))
    by (rewrite <- Hb at 1; reflexivity).
  assert (PA : Forall (fun x => plainElement x = true) outA)
    by (apply cleaned_rooted_plain; [apply elements_sepfree | constructor]).
  assert (PB : Forall (fun x => plainElement x = true) outB)
    by (apply cleaned_rooted_plain; [apply elements_sepfree | constructor]).
  assert (NA : rev outA <> []).
  { intros E; rewrite E in HA; apply Hra; exact HA. }
  assert (NB : rev outB <> []).
  { intros E; rewrite E in HB; apply Hrb; exact HB. }
  assert (HB' : rb = String.concat "/" (rev outB)) by congruence.
  assert (HA' : ra = String.concat "/" (rev outA)) by congruence.
  assert (Hel : Filepath.elements (String "/" ra ++ String "/" rb)
                = Filepath.elements (String "/" ra) ++ rev outB).
  { change (String "/" ra ++ String "/" rb)%string
      with (String "/" ra ++ "/" ++ rb)%string.
    rewrite elements_app; f_equal.
    rewrite HB' at 1; apply elements_concat; [assumption | apply Forall_rev, PB]. }
  change (String "/" ra ++ String "/" rb)%string
    with (String "/" (ra ++ String "/" rb)) in *.
  unfold Filepath.Clean.
  change (Filepath.IsPathSeparator "/") with true; cbv iota.
  rewrite Hel, fold_left_app; fold outA.
  rewrite fold_plain by (apply Forall_rev, PB).
  rewrite rev_involutive, rev_app_distr, concat_app by assumption.
  rewrite <- HB', <- HA'; reflexivity.
Qed.

Lemma append_not_root (rest : string) (c : ascii) (s : string) :
  (String "/" rest ++ String c s)%string <> "/".
Proof. simpl; intros H; injection H as H; destruct rest; discriminate. Qed.

Section ExternalDirs.

Variable BuildUserHome : string.

Lemma GetWorkDirInternal_clean (p : Package) :
  cleanAbsolute BuildUserHome -> cleanAbsolute (GetWorkDirInternal BuildUserHome p).
Proof.
  intros Hh; unfold GetWorkDirInternal.
  destruct (PackageType_eqb _ _).
  { split; [reflexivity | split; [discriminate | eexists; reflexivity]]. }
  destruct Hh as (Hclean & Hroot & rest & ->).
  rewrite Join_abs; [| reflexivity | rewrite Hclean; assumption].
  rewrite Hclean.
  split; [|split; [apply append_not_root | eexists; reflexivity]].
  rewrite Clean_snoc; [rewrite Hclean; reflexivity | reflexivity |].
  rewrite Hclean; assumption.
Qed.

Lemma GetSourceDirInternal_clean (p : Package) :
  cleanAbsolute BuildUserHome ->
  cleanAbsolute (GetSourceDirInternal BuildUserHome p).
Proof.
  intros Hh; unfold GetSourceDirInternal.
  destruct (PackageType_eqb _ _).
  { split; [reflexivity | split; [discriminate | eexists; reflexivity]]. }
  assert (Hy : cleanAbsolute "/YPKG/sources")
    by (split; [reflexivity | split; [discriminate | eexists; reflexivity]]).
  pose proof (Clean_append Hh Hy) as Hc.
  destruct Hh as (Hclean & Hroot & rest & ->).
  change (Filepath.Join [String "/" rest; "YPKG"; "sources"])
    with (Filepath.Clean (String "/" rest ++ "/YPKG/sources")).
  rewrite Hc.
  split; [rewrite Hc; reflexivity
        | split; [apply append_not_root | eexists; reflexivity]].
Qed.

(** X14.  When the mount point of the overlay and the home of the build user
    are clean absolute paths, the externally visible work and source
    directories are the internal ones written behind the mount point. *)
Theorem external_dirs (p : Package) (o : Overlay) :
  cleanAbsolute BuildUserHome -> cleanAbsolute (MountPoint o) ->
  GetWorkDir BuildUserHome p o
  = Some (MountPoint o ++ GetWorkDirInternal BuildUserHome p)%string /\
  GetSourceDir BuildUserHome p o
  = Some (MountPoint o ++ GetSourceDirInternal BuildUserHome p)%string.
Proof.
  intros Hh Hm.
  assert (Hjoin : forall b, cleanAbsolute b ->
             match sliceFrom1 b with
             | Some t => Some (Filepath.Join [MountPoint o; t])
             | None => None
             end = Some (MountPoint o ++ b)%string).
  { intros b Hb; pose proof (Clean_append Hm Hb) as Hc.
    destruct Hb as (_ & _ & rb & ->).
    destruct Hm as (_ & _ & rm & Em); rewrite Em in *.
    cbn [sliceFrom1]; f_equal; exact Hc. }
  split; [unfold GetWorkDir | unfold GetSourceDir]; apply Hjoin;
    [apply GetWorkDirInternal_clean | apply GetSourceDirInternal_clean];
    assumption.
Qed.

End ExternalDirs.

(** ** Further properties: the known profiles *)

(** X15.  [IsValidProfile] answers true exactly for the profiles of the known
    set, compared as they are written. *)
Theorem IsValidProfile_membership (profile : string) :
  IsValidProfile profile = true <-> In profile ValidProfiles.
Proof. apply IsValidProfileIn_spec. Qed.

Lemma IsValidProfile_membership_witness :
  IsValidProfile "unstable-x86_64" = true /\ ~ In "main-x86_64 " ValidProfiles.
Proof.
  split.
  - apply (proj2 (IsValidProfile_membership "unstable-x86_64")).
    right; left; reflexivity.
  - intros H; apply (proj2 (IsValidProfile_membership "main-x86_64 ")) in H.
    discriminate H.
Defined.

(** ** The further theorems at work in the small world *)

Lemma CopyAssets_abs_failure_witness :
  CopyAssets Sim.lost "/home/build" (Sim.nano PackageTypeYpkg)
    (Sim.overlay PackageTypeYpkg) []
  = (Val (Some "getwd: no such file or directory"), [], [EvQuery (QAbs ".")]).
Proof.
  exact (@CopyAssets_abs_failure _ Sim.lost "/home/build"
           (Sim.nano PackageTypeYpkg) (Sim.overlay PackageTypeYpkg) []
           "" "getwd: no such file or directory" eq_refl).
Defined.

Lemma CopyAssets_fail_fast_witness :
  CopyAssets (Sim.plain Sim.failComar) "/home/build" (Sim.nano PackageTypeXML)
    (Sim.overlay PackageTypeXML) []
  = (Val (Some "no such file or directory"), [],
     [EvQuery (QAbs ".")]
       ++ map (copied "/home/dev/pkg"
                 "/var/cache/solbuild/main-x86_64/nano/union/WORK")
            ["pspec.xml"; "files"]
       ++ [copied "/home/dev/pkg"
             "/var/cache/solbuild/main-x86_64/nano/union/WORK" "comar"]).
Proof.
  apply (@CopyAssets_fail_fast _ (Sim.plain Sim.failComar) "/home/build"
           (Sim.nano PackageTypeXML) (Sim.overlay PackageTypeXML) [] [] []
           "/home/dev/pkg" "/var/cache/solbuild/main-x86_64/nano/union/WORK"
           "comar" ["pspec.xml"; "files"] ["component.xml"; "actions.py"]
           (map (copied "/home/dev/pkg"
                   "/var/cache/solbuild/main-x86_64/nano/union/WORK")
              ["pspec.xml"; "files"])
           "no such file or directory");
    reflexivity.
Defined.

Lemma CopyAssets_copies_witness :
  trace (CopyAssets (Sim.plain Sim.noFailure) "/home/build"
           (Sim.nano PackageTypeYpkg) (Sim.overlay PackageTypeYpkg) [])
  = [EvQuery (QAbs ".")]
      ++ map (copied "/home/dev/pkg"
                "/var/cache/solbuild/main-x86_64/nano/union/home/build/work")
           ["package.yml"; "files"; "comar"; "component.xml"].
Proof.
  apply (@CopyAssets_copies _ (Sim.plain Sim.noFailure) "/home/build"
           (Sim.nano PackageTypeYpkg) (Sim.overlay PackageTypeYpkg) []
           "/home/dev/pkg"
           "/var/cache/solbuild/main-x86_64/nano/union/home/build/work");
    reflexivity.
Defined.

Lemma BindSources_mkdir_failure_witness :
  BindSources (Sim.plain Sim.failMkdir) "/home/build" (Sim.nano PackageTypeYpkg)
    (Sim.overlay PackageTypeYpkg) []
  = (Val (Some "permission denied"), [],
     [] ++
     [EvQuery
        (QStat "/var/cache/solbuild/main-x86_64/nano/union/home/build/YPKG/sources");
      EvCall
        (MkdirAll
           "/var/cache/solbuild/main-x86_64/nano/union/home/build/YPKG/sources"
           493);
      EvLog Error "Failed to create source directory"
        [("dir",
          FStr "/var/cache/solbuild/main-x86_64/nano/union/home/build/YPKG/sources");
         ("error", FErr "permission denied")]]).
Proof.
  apply (@BindSources_mkdir_failure _ (Sim.plain Sim.failMkdir) "/home/build"
           (Sim.nano PackageTypeYpkg) (Sim.overlay PackageTypeYpkg) []
           [] [Sim.src2] Sim.src1 [] [] []
           "/var/cache/solbuild/main-x86_64/nano/union/home/build/YPKG/sources"
           "permission denied");
    reflexivity.
Defined.

Lemma BindSources_mount_failure_witness :
  result (BindSources (Sim.plain Sim.failMount) "/home/build"
            (Sim.nano PackageTypeYpkg) (Sim.overlay PackageTypeYpkg) [])
  = Val (Some "operation not permitted") /\
  mounts (trace (BindSources (Sim.plain Sim.failMount) "/home/build"
                   (Sim.nano PackageTypeYpkg) (Sim.overlay PackageTypeYpkg) []))
  = [("/var/lib/solbuild/sources/nano-2.7.1.tar.xz",
      "/var/cache/solbuild/main-x86_64/nano/union/home/build/YPKG/sources/nano-2.7.1.tar.xz")].
Proof.
  pose (dir := "/var/cache/solbuild/main-x86_64/nano/union/home/build/YPKG/sources").
  rewrite (@BindSources_mount_failure _ (Sim.plain Sim.failMount) "/home/build"
             (Sim.nano PackageTypeYpkg) (Sim.overlay PackageTypeYpkg) []
             [] [Sim.src2] Sim.src1 [] [(dir, "")]
             [(Filepath.Join [dir; File Sim.src1], ""); (dir, "")]
             [(Filepath.Join [dir; File Sim.src1], ""); (dir, "")]
             [] [EvCall (MkdirAll dir 493)] dir "operation not permitted"
             eq_refl eq_refl eq_refl
             (or_intror (conj eq_refl (conj eq_refl eq_refl)))
             eq_refl eq_refl).
  split; reflexivity.
Defined.

Lemma BindSources_mounts_all_witness :
  mounts (trace (BindSources (Sim.plain Sim.noFailure) "/home/build"
                   (Sim.nano PackageTypeYpkg) (Sim.overlay PackageTypeYpkg) []))
  = [("/var/lib/solbuild/sources/nano-2.7.1.tar.xz",
      "/var/cache/solbuild/main-x86_64/nano/union/home/build/YPKG/sources/nano-2.7.1.tar.xz");
     ("/var/lib/solbuild/sources/fix.patch",
      "/var/cache/solbuild/main-x86_64/nano/union/home/build/YPKG/sources/fix.patch")].
Proof.
  apply (@BindSources_mounts_all _ (Sim.plain Sim.noFailure) "/home/build"
           (Sim.nano PackageTypeYpkg) (Sim.overlay PackageTypeYpkg) []
           "/var/cache/solbuild/main-x86_64/nano/union/home/build/YPKG/sources");
    intros; reflexivity.
Defined.

Lemma FetchSources_all_cached_witness :
  FetchSources (Sim.plain Sim.noFailure) (Sim.nano PackageTypeYpkg)
    (Sim.overlay PackageTypeYpkg) Sim.hot
  = (Val None, Sim.hot,
     [EvQuery (QIsFetched Sim.src1 "bb22"); EvQuery (QIsFetched Sim.src2 "dd44")]).
Proof.
  apply (@FetchSources_all_cached _ (Sim.plain Sim.noFailure)
           (Sim.nano PackageTypeYpkg) (Sim.overlay PackageTypeYpkg) Sim.hot).
  intros s [<-|[<-|[]]]; reflexivity.
Defined.

Lemma updateProfile_guards_witness :
  IsValidProfile "main-x86_64" = true /\
  existsAt (Sim.plain Sim.noFailure) "/var/lib/solbuild/images/main-x86_64.img"
    Sim.installed = true.
Proof.
  destruct (@updateProfile_guards _ (Sim.plain Sim.noFailure) "bogus"
              ["main-x86_64 "] Sim.installed (ImageUpdate Sim.mainImage))
    as (_ & Hv & Hi & _).
  - vm_compute; repeat (first [left; reflexivity | right]).
  - split; [exact Hv | exact Hi].
Defined.

Lemma updateProfile_exit_witness :
  result (updateProfile (Sim.plain Sim.noFailure) "main-x86_64" [] [])
  = Val (OsExit 1) /\
  result (updateProfile (Sim.plain Sim.noFailure) "main-x86_64" ["bogus"] [])
  = Val (Returns None).
Proof.
  split.
  - apply (proj2 (proj1 (@updateProfile_exit _ (Sim.plain Sim.noFailure)
                           "main-x86_64" [] []))).
    split; [reflexivity | left; reflexivity].
  - apply (proj2 (proj2 (@updateProfile_exit _ (Sim.plain Sim.noFailure)
                           "main-x86_64" ["bogus"] []))).
    intros [H _]; vm_compute in H; discriminate.
Defined.

Lemma Build_fail_fast_witness :
  result (Build (Sim.plain Sim.failActivate) "build" "/home/build"
            (Sim.nano PackageTypeYpkg) Sim.mainImage [])
  = Val (Some "mount failed") /\
  result (Build (Sim.plain Sim.failClean) "build" "/home/build"
            (Sim.nano PackageTypeYpkg) Sim.mainImage [])
  = Val (Some "device or resource busy").
Proof.
  pose (reaper := GrimReaper (Sim.overlay PackageTypeYpkg)
                    (Sim.nano PackageTypeYpkg)
                    (NewEopkgManager (MountPoint (Sim.overlay PackageTypeYpkg)))).
  split.
  - apply (@Build_fail_fast _ (Sim.plain Sim.failActivate) "build" "/home/build"
             (Sim.nano PackageTypeYpkg) Sim.mainImage []
             [(CleanExisting (Sim.overlay PackageTypeYpkg), None);
              (HandleInterrupt reaper, None)]
             [(Invoke reaper, None)]
             (ActivateRoot (Sim.nano PackageTypeYpkg) (Sim.overlay PackageTypeYpkg))
             "mount failed");
      reflexivity.
  - apply (@Build_fail_fast _ (Sim.plain Sim.failClean) "build" "/home/build"
             (Sim.nano PackageTypeYpkg) Sim.mainImage [] [] []
             (CleanExisting (Sim.overlay PackageTypeYpkg))
             "device or resource busy");
      reflexivity.
Defined.

Lemma Build_without_sources_witness :
  result (Build (Sim.plain Sim.failTouch) "build" "/home/build"
            (Sim.nano PackageTypeYpkg) Sim.mainImage [])
  = Val (Some "Not yet implemented") /\
  mounts (trace (Build (Sim.plain Sim.failTouch) "build" "/home/build"
                   (Sim.nano PackageTypeYpkg) Sim.mainImage [])) = [].
Proof.
  destruct (@Build_without_sources _ (Sim.plain Sim.failTouch) "build"
              "/home/build") with (p := Sim.nano PackageTypeYpkg)
                                  (img := Sim.mainImage) (w := @nil (string * string))
    as (Hr & Hm & _).
  - intros; reflexivity.
  - intros c w Hc; destruct c; try reflexivity.
    exfalso; exact (Hc _ eq_refl).
  - intros path w; discriminate.
  - reflexivity.
  - split; [exact Hr | exact Hm].
Defined.

Lemma external_dirs_witness :
  GetWorkDir "/home/build" (Sim.nano PackageTypeYpkg) (Sim.overlay PackageTypeYpkg)
  = Some "/var/cache/solbuild/main-x86_64/nano/union/home/build/work" /\
  GetSourceDir "/home/build" (Sim.nano PackageTypeXML) (Sim.overlay PackageTypeXML)
  = Some "/var/cache/solbuild/main-x86_64/nano/union/var/cache/eopkg/archives".
Proof.
  assert (Hh : cleanAbsolute "/home/build")
    by (split; [reflexivity | split; [discriminate | eexists; reflexivity]]).
  assert (Hm : forall t, cleanAbsolute (MountPoint (Sim.overlay t)))
    by (intros []; (split; [reflexivity
                           | split; [discriminate | eexists; reflexivity]])).
  split.
  - exact (proj1 (@external_dirs "/home/build" (Sim.nano PackageTypeYpkg)
                    (Sim.overlay PackageTypeYpkg) Hh (Hm PackageTypeYpkg))).
  - exact (proj2 (@external_dirs "/home/build" (Sim.nano PackageTypeXML)
                    (Sim.overlay PackageTypeXML) Hh (Hm PackageTypeXML))).
Defined.
